(** * Screenplay line classification, scene segmentation, speaker tracking
      and layout: a shallow embedding of the Python sources

    Embedded modules: [scene_validator.py], [speaking_time.py],
    [pacing_and_distribution.py], [character_development.py],
    [media_readability.py] (segmentation loop) and [text_to_script.py].

    Texts.  A Python [str] is modelled as a list of characters over the
    7-bit ASCII alphabet ([list ascii]).  Character codes above 127 are
    outside the model; where a definition has to say something about them
    they count as caseless symbols that are neither white space nor word
    characters.  All character classes below are the ASCII restrictions of
    the Python ones ([str.isspace], [str.upper], [str.isupper], and the
    [\s], [\w] classes of [re]).

    Truthiness.  [is_action] and [is_dialogue] return [line and ...]; they
    are embedded by the truth value Python gives that result in a
    condition. *)

From Stdlib Require Import String Ascii List Bool Arith Lia.
From Stdlib Require Import DecimalString.
Import ListNotations.

Local Open Scope string_scope.
Local Open Scope list_scope.
Local Open Scope bool_scope.
Local Open Scope nat_scope.

(** ** Characters and strings *)

Definition str := list ascii.

(** String literals are read as [str]. *)
Coercion list_ascii_of_string : string >-> list.

Definition code (c : ascii) : nat := nat_of_ascii c.

Fixpoint str_eqb (a b : str) : bool :=
  match a, b with
  | [], [] => true
  | x :: a', y :: b' => Ascii.eqb x y && str_eqb a' b'
  | _, _ => false
  end.

Module Char.

(** [str.isspace] on ASCII: TAB, LF, VT, FF, CR, FS, GS, RS, US, SPACE. *)
Definition isspace (c : ascii) : bool :=
  let n := code c in
  ((9 <=? n) && (n <=? 13)) || ((28 <=? n) && (n <=? 32)).

Definition islower (c : ascii) : bool :=
  let n := code c in (97 <=? n) && (n <=? 122).

Definition isupper (c : ascii) : bool :=
  let n := code c in (65 <=? n) && (n <=? 90).

Definition isdigit (c : ascii) : bool :=
  let n := code c in (48 <=? n) && (n <=? 57).

(** A cased character is a lower-case or an upper-case letter. *)
Definition iscased (c : ascii) : bool := islower c || isupper c.

(** [str.upper] and [str.lower] on one 7-bit character. *)
Definition upper (c : ascii) : ascii :=
  if islower c then ascii_of_nat (code c - 32) else c.

Definition lower (c : ascii) : ascii :=
  if isupper c then ascii_of_nat (code c + 32) else c.

(** The [\w] class of [re] on ASCII: letters, digits and the underscore. *)
Definition isword (c : ascii) : bool :=
  islower c || isupper c || isdigit c || (code c =? 95).

End Char.

Module Str.

(** [s.upper()] on 7-bit text, where it maps character by character and
    keeps the length. *)
Definition upper (s : str) : str := map Char.upper s.

(** [s.isupper()]: no lower-case character and at least one cased one. *)
Definition isupper (s : str) : bool :=
  negb (existsb Char.islower s) && existsb Char.isupper s.

Fixpoint lstrip (s : str) : str :=
  match s with
  | c :: r => if Char.isspace c then lstrip r else s
  | [] => []
  end.

Definition rstrip (s : str) : str := rev (lstrip (rev s)).

(** [s.strip()] *)
Definition strip (s : str) : str := rstrip (lstrip s).

(** [s.startswith(p)] *)
Fixpoint startswith (s p : str) {struct p} : bool :=
  match p, s with
  | [], _ => true
  | a :: p', b :: s' => if Ascii.eqb a b then startswith s' p' else false
  | _ :: _, [] => false
  end.

(** [s.endswith(p)] *)
Definition endswith (s p : str) : bool := startswith (rev s) (rev p).

(** [s.startswith((p1, p2, ...))] and [s.endswith((p1, p2, ...))] *)
Definition startswith_any (s : str) (ps : list str) : bool :=
  existsb (startswith s) ps.

Definition endswith_any (s : str) (ps : list str) : bool :=
  existsb (endswith s) ps.

(** [s.split()]: the maximal runs of non-space characters.  [w] is the
    word being read. *)
Fixpoint split_from (w : str) (s : str) : list str :=
  match s with
  | [] => match w with [] => [] | _ => [w] end
  | c :: r =>
      if Char.isspace c
      then match w with [] => split_from [] r | _ => w :: split_from [] r end
      else split_from (w ++ [c]) r
  end.

Definition split (s : str) : list str := split_from [] s.

(** [s.split('\n')] *)
Fixpoint split_nl_from (w : str) (s : str) : list str :=
  match s with
  | [] => [w]
  | c :: r =>
      if Ascii.eqb c "010"%char
      then w :: split_nl_from [] r
      else split_nl_from (w ++ [c]) r
  end.

Definition split_nl (s : str) : list str := split_nl_from [] s.

(** [sep.join(parts)] *)
Fixpoint join (sep : str) (parts : list str) : str :=
  match parts with
  | [] => []
  | [p] => p
  | p :: rest => p ++ sep ++ join sep rest
  end.

Definition spaces (n : nat) : str := repeat " "%char n.

(** [s.center(width)], CPython's rule: the left margin gets the extra
    space only when both the total padding and the width are odd. *)
Definition center (s : str) (width : nat) : str :=
  if width <=? length s then s
  else
    let marg := width - length s in
    let left := marg / 2 + (if Nat.odd marg && Nat.odd width then 1 else 0) in
    spaces left ++ s ++ spaces (marg - left).

(** [f"{s:>width}"] and [f"{s:<width}"] *)
Definition rjust (s : str) (width : nat) : str :=
  spaces (width - length s) ++ s.

Definition ljust (s : str) (width : nat) : str :=
  s ++ spaces (width - length s).

(** [str(n)] for a non-negative integer *)
Definition of_nat (n : nat) : str :=
  list_ascii_of_string (NilZero.string_of_uint (Nat.to_uint n)).

End Str.

(** ** scene_validator.py: the six line predicates *)

Definition is_scene_heading (line : str) : bool :=
  Str.startswith_any (Str.upper (Str.strip line)) ["INT." : str; "EXT." : str].

Definition is_transition (line : str) : bool :=
  Str.endswith_any (Str.upper (Str.strip line))
    ["TO:" : str; "OUT:" : str; "IN:" : str].

Definition is_emotion (line : str) : bool :=
  Str.startswith (Str.strip line) "(" && Str.endswith (Str.strip line) ")".

Definition is_character_name (line : str) : bool :=
  let line := Str.strip line in
  Str.isupper line
  && (length line <=? 40)
  && ((1 <=? length (Str.split line)) && (length (Str.split line) <=? 4))
  && negb (is_scene_heading line)
  && negb (is_transition line)
  && negb (is_emotion line).

(** [truthy s]: the truth value of a string in a condition. *)
Definition truthy (s : str) : bool :=
  match s with [] => false | _ => true end.

Definition is_action (line : str) : bool :=
  let line := Str.strip line in
  truthy line
  && negb (is_scene_heading line)
  && negb (is_transition line)
  && negb (is_character_name line)
  && negb (is_emotion line)
  && negb (Str.endswith_any line ["?" : str; "!" : str]).

Definition is_dialogue (line : str) : bool :=
  let line := Str.strip line in
  truthy line
  && negb (is_scene_heading line)
  && negb (is_transition line)
  && negb (is_character_name line)
  && negb (is_emotion line)
  && (Str.endswith_any line ["." : str; "?" : str; "!" : str]
      || (3 <? length (Str.split line))).

(** ** Exceptions

    The operations of the sources that can raise are list indexing
    ([IndexError]), true division ([ZeroDivisionError]), the lookup of a
    key in a plain [dict] ([KeyError]) and a [str] method called on [None]
    ([AttributeError]).  Code that uses them is embedded in the monad
    [result]. *)

Inductive exn : Type :=
  IndexError | ZeroDivisionError | KeyError | AttributeError.

Inductive result (A : Type) : Type :=
| Ok (a : A)
| Raise (e : exn).

Arguments Ok {A} a.
Arguments Raise {A} e.

Definition bind {A B : Type} (m : result A) (f : A -> result B) : result B :=
  match m with
  | Ok a => f a
  | Raise e => Raise e
  end.

Notation "x <- m ;; k" := (bind m (fun x => k))
  (at level 61, m at next level, right associativity).

(** [xs[i]] for an index [i >= 0] *)
Definition getitem {A : Type} (xs : list A) (i : nat) : result A :=
  match nth_error xs i with
  | Some x => Ok x
  | None => Raise IndexError
  end.

(** ** Counters: [defaultdict(int)]

    A dictionary keeps its keys in insertion order, which is the order the
    reports iterate in; it is embedded as an association list without
    duplicate keys. *)

Definition counter := list (str * nat).

(** [d[k] += n] on a [defaultdict(int)] *)
Fixpoint counter_add (k : str) (n : nat) (d : counter) : counter :=
  match d with
  | [] => [(k, 0 + n)]
  | (k', v) :: r =>
      if str_eqb k' k then (k', v + n) :: r else (k', v) :: counter_add k n r
  end.

(** [k in d] *)
Definition counter_mem (k : str) (d : counter) : bool :=
  existsb (fun kv => str_eqb (fst kv) k) d.

(** The count stored under [k]; 0 when the key is absent (reading does not
    insert here, this is only used to state properties). *)
Fixpoint counter_get (k : str) (d : counter) : nat :=
  match d with
  | [] => 0
  | (k', v) :: r => if str_eqb k' k then v else counter_get k r
  end.

(** [sum(d.values())] *)
Definition counter_total (d : counter) : nat :=
  fold_left (fun acc kv => acc + snd kv) d 0.

(** ** Symbols of the reports

    The reports contain a few symbols outside ASCII; they are carried as
    their UTF-8 bytes. *)

Definition bytes (l : list nat) : str := map ascii_of_nat l.

(** U+2714 HEAVY CHECK MARK *)
Definition CHECK_MARK : str := bytes [226; 156; 148].
(** U+26A0 WARNING SIGN, U+FE0F VARIATION SELECTOR-16 *)
Definition WARNING_SIGN : str := bytes [226; 154; 160; 239; 184; 143].
(** U+274C CROSS MARK *)
Definition CROSS_MARK : str := bytes [226; 157; 140].

Definition NL : str := ["010"%char].

Definition UNKNOWN : str := "UNKNOWN".

(** ** scene_validator.py: [scene_structure_validator] *)

Record ssv_state : Type := mk_ssv {
  scene_count : nat;
  valid_headings : list str;
  header_issues : list str;
  scene_issues : list str;
  character_lines : counter;
  action_present : bool
}.

Definition ssv_init : ssv_state :=
  mk_ssv 0 [] [] [] [] false.

(** f"⚠️ Line {i+1}: transition not followed by a scene heading" *)
Definition transition_issue (i : nat) : str :=
  WARNING_SIGN ++ " Line " ++ Str.of_nat (i + 1)
    ++ ": transition not followed by a scene heading".

(** f"❌ Line {i+1}: dialogue not preceded by character name" *)
Definition dialogue_issue (i : nat) : str :=
  CROSS_MARK ++ " Line " ++ Str.of_nat (i + 1)
    ++ ": dialogue not preceded by character name".

(** The condition of line 86:
    [i + 1 >= len(lines) or not is_scene_heading(lines[i + 1])] *)
Definition transition_unfollowed (lines : list str) (i : nat) : result bool :=
  if length lines <=? i + 1 then Ok true
  else nxt <- getitem lines (i + 1) ;; Ok (negb (is_scene_heading nxt)).

(** The condition of line 97:
    [i >= 1 and is_character_name(lines[i - 1])] *)
Definition cue_before (lines : list str) (i : nat) : result bool :=
  if 1 <=? i then prev <- getitem lines (i - 1) ;; Ok (is_character_name prev)
  else Ok false.

(** The condition of line 100:
    [i >= 2 and is_emotion(lines[i - 1]) and is_character_name(lines[i - 2])] *)
Definition cue_before_emotion (lines : list str) (i : nat) : result bool :=
  if 2 <=? i then
    prev <- getitem lines (i - 1) ;;
    if is_emotion prev
    then prev2 <- getitem lines (i - 2) ;; Ok (is_character_name prev2)
    else Ok false
  else Ok false.

(** One iteration of the loop of lines 73-105, for the pair [(i, raw)] of
    [enumerate(lines)]. *)
Definition ssv_step (lines : list str) (i : nat) (raw : str) (st : ssv_state)
  : result ssv_state :=
  let line := Str.strip raw in
  if negb (truthy line) then Ok st
  else if is_scene_heading line then
    Ok (mk_ssv (scene_count st + 1)
               (valid_headings st ++ ["    - " ++ line ++ " " ++ CHECK_MARK])
               (header_issues st) (scene_issues st) (character_lines st)
               (action_present st))
  else if is_transition line then
    flag <- transition_unfollowed lines i ;;
    if flag then
      Ok (mk_ssv (scene_count st) (valid_headings st)
                 (header_issues st ++ [transition_issue i])
                 (scene_issues st) (character_lines st) (action_present st))
    else Ok st
  else if is_action line then
    Ok (mk_ssv (scene_count st) (valid_headings st) (header_issues st)
               (scene_issues st) (character_lines st) true)
  else if is_dialogue line then
    direct <- cue_before lines i ;;
    if direct then
      prev <- getitem lines (i - 1) ;;
      let character := Str.upper (Str.strip prev) in
      Ok (mk_ssv (scene_count st) (valid_headings st) (header_issues st)
                 (scene_issues st)
                 (counter_add character 1 (character_lines st))
                 (action_present st))
    else
      through <- cue_before_emotion lines i ;;
      if through then
        prev2 <- getitem lines (i - 2) ;;
        let character := Str.upper (Str.strip prev2) in
        Ok (mk_ssv (scene_count st) (valid_headings st) (header_issues st)
                   (scene_issues st)
                   (counter_add character 1 (character_lines st))
                   (action_present st))
      else
        Ok (mk_ssv (scene_count st) (valid_headings st) (header_issues st)
                   (scene_issues st ++ [dialogue_issue i])
                   (counter_add UNKNOWN 1 (character_lines st))
                   (action_present st))
  else Ok st.

(** [for i, line in enumerate(lines)], from index [i] on; [rest] is
    [lines[i:]]. *)
Fixpoint ssv_loop (lines : list str) (i : nat) (rest : list str)
  (st : ssv_state) : result ssv_state :=
  match rest with
  | [] => Ok st
  | raw :: rest' =>
      st' <- ssv_step lines i raw st ;;
      ssv_loop lines (S i) rest' st'
  end.

(** [lines = script.strip().split('\n')] *)
Definition script_lines (script : str) : list str :=
  Str.split_nl (Str.strip script).

Definition ssv_scan_lines (lines : list str) : result ssv_state :=
  ssv_loop lines 0 lines ssv_init.

Definition ssv_scan (script : str) : result ssv_state :=
  ssv_scan_lines (script_lines script).

(** Lines 108-129: the report, one entry per output line group. *)
Definition ssv_report (st : ssv_state) : list str :=
  let bullet := fun issue : str => "    - " ++ issue in
  [ NL ++ "Scene Structure Report:"; "--------------------------------" : str ]
  ++ [ "Total Scenes: " ++ Str.of_nat (scene_count st) ++ NL ]
  ++ (match valid_headings st with
      | [] => [ CROSS_MARK ++ " No valid scene headings found." ]
      | _ => ("Valid Headings:" : str) :: valid_headings st
      end)
  ++ [ NL ++ "Header Reports:" ]
  ++ (match header_issues st with
      | [] => [ "    - " ++ CHECK_MARK ++ " No header errors" ]
      | _ => map bullet (header_issues st)
      end)
  ++ [ NL ++ "Scene Reports:" ]
  ++ (match scene_issues st with
      | [] => [ "    - " ++ CHECK_MARK ++ " No scene structure issues" ]
      | _ => map bullet (scene_issues st)
      end)
  ++ (if negb (action_present st)
      then [ "    - " ++ WARNING_SIGN ++ " Script has no action lines" ]
      else []).

Definition scene_structure_validator (script : str) : result str :=
  st <- ssv_scan script ;;
  Ok (Str.join NL (ssv_report st)).

(** ** Regular expressions: the fragment of [re] the sources use

    A backtracking matcher in continuation-passing style, with Python's
    priorities: the left alternative first, a greedy quantifier tries the
    longest repetition first and a lazy one the shortest.  Quantifiers in
    the sources apply to one-character items only ([\s*], [[\w\-\s]+?],
    [[^)]+], [.+], [[A-Z ]{1,39}]) or make a group optional ([(?:...)?]).
    Under [re.I] a literal matches a character with the same lower-case
    form; the sets used together with [re.I] ([\s]) are caseless. *)

Module Re.

Inductive regex : Type :=
| Empty
| Lit (c : ascii)
| Set_ (p : ascii -> bool)
| Cat (r1 r2 : regex)
| Alt (r1 r2 : regex)
| Rep (p : ascii -> bool) (lo : nat) (hi : option nat) (greedy : bool)
| Opt (r : regex)
| Group (n : nat) (r : regex)
| Bol
| Eol
| WordBoundary.

(** Character sets *)
Definition space : ascii -> bool := Char.isspace.                (* \s *)
Definition word : ascii -> bool := Char.isword.                  (* \w *)
Definition dot (c : ascii) : bool :=                             (* .  *)
  negb (Ascii.eqb c "010"%char).
Definition not_char (x c : ascii) : bool :=                      (* [^x] *)
  negb (Ascii.eqb c x).

(** A sequence of items and a literal string *)
Fixpoint cat (rs : list regex) : regex :=
  match rs with
  | [] => Empty
  | [r] => r
  | r :: rs' => Cat r (cat rs')
  end.

Definition lit (s : str) : regex := cat (map Lit s).

(** The spans of the groups that took part in the match, latest first. *)
Definition captures := list (nat * (nat * nat)).

Fixpoint span (n : nat) (caps : captures) : option (nat * nat) :=
  match caps with
  | [] => None
  | (m, sp) :: r => if m =? n then Some sp else span n r
  end.

Definition can_take (hi : option nat) : bool :=
  match hi with Some 0 => false | _ => true end.

Definition dec (hi : option nat) : option nat :=
  match hi with Some h => Some (h - 1) | None => None end.

Section Matcher.

Variable ignorecase : bool.
Variable subject : str.
Variable T : Type.

(** A literal [l] of the pattern against the character [c] of the
    subject.  Under [re.I] the two are compared in lower case, which is
    the case folding of [re] on 7-bit text. *)
Definition lit_matches (l c : ascii) : bool :=
  if ignorecase
  then (Ascii.eqb (Char.lower c) (Char.lower l))
  else (Ascii.eqb c l).

(** [p{lo,hi}] from position [i], where [suffix] is [subject[i:]]. *)
Fixpoint rep_greedy (p : ascii -> bool) (lo : nat) (hi : option nat)
  (suffix : str) (i : nat) (k : nat -> option T) : option T :=
  let stop := if lo =? 0 then k i else None in
  match suffix with
  | c :: rest =>
      if p c && can_take hi then
        match rep_greedy p (lo - 1) (dec hi) rest (S i) k with
        | Some m => Some m
        | None => stop
        end
      else stop
  | [] => stop
  end.

(** [p{lo,hi}?] *)
Fixpoint rep_lazy (p : ascii -> bool) (lo : nat) (hi : option nat)
  (suffix : str) (i : nat) (k : nat -> option T) : option T :=
  match (if lo =? 0 then k i else None) with
  | Some m => Some m
  | None =>
      match suffix with
      | c :: rest =>
          if p c && can_take hi
          then rep_lazy p (lo - 1) (dec hi) rest (S i) k
          else None
      | [] => None
      end
  end.

(** [\b] at position [i]: exactly one side is a word character. *)
Definition at_word_boundary (i : nat) : bool :=
  let before :=
    match i with
    | 0 => false
    | S j => match nth_error subject j with
             | Some c => word c
             | None => false
             end
    end in
  let after :=
    match nth_error subject i with
    | Some c => word c
    | None => false
    end in
  xorb before after.

(** [$]: at the end, or just before a line feed that ends the subject. *)
Definition at_end (i : nat) : bool :=
  (i =? length subject)
  || ((S i =? length subject)
      && match nth_error subject i with
         | Some c => Ascii.eqb c "010"%char
         | None => false
         end).

Fixpoint rmatch (r : regex) (i : nat) (caps : captures)
  (k : nat -> captures -> option T) : option T :=
  match r with
  | Empty => k i caps
  | Lit l =>
      match nth_error subject i with
      | Some c => if lit_matches l c then k (S i) caps else None
      | None => None
      end
  | Set_ p =>
      match nth_error subject i with
      | Some c => if p c then k (S i) caps else None
      | None => None
      end
  | Cat r1 r2 => rmatch r1 i caps (fun j caps' => rmatch r2 j caps' k)
  | Alt r1 r2 =>
      match rmatch r1 i caps k with
      | Some m => Some m
      | None => rmatch r2 i caps k
      end
  | Rep p lo hi greedy =>
      (if greedy then rep_greedy else rep_lazy)
        p lo hi (skipn i subject) i (fun j => k j caps)
  | Opt r' =>
      match rmatch r' i caps k with
      | Some m => Some m
      | None => k i caps
      end
  | Group n r' => rmatch r' i caps (fun j caps' => k j ((n, (i, j)) :: caps'))
  | Bol => if i =? 0 then k i caps else None
  | Eol => if at_end i then k i caps else None
  | WordBoundary => if at_word_boundary i then k i caps else None
  end.

End Matcher.

(** A compiled pattern: the expression and its [re.I] flag. *)
Record pattern : Type := compile { expr : regex; flag_I : bool }.

(** A match object: the subject, the end of the match and the spans. *)
Record match_object : Type := mk_match {
  m_subject : str;
  m_end : nat;
  m_caps : captures
}.

(** [pat.match(s)], anchored at position [start]. *)
Definition match_at (pat : pattern) (s : str) (start : nat)
  : option match_object :=
  rmatch (flag_I pat) s match_object (expr pat) start []
    (fun j caps => Some (mk_match s j caps)).

Definition match_ (pat : pattern) (s : str) : option match_object :=
  match_at pat s 0.

(** [m.group(n)]; [None] when the group took no part in the match. *)
Definition group (m : match_object) (n : nat) : option str :=
  match span n (m_caps m) with
  | Some (a, b) => Some (firstn (b - a) (skipn a (m_subject m)))
  | None => None
  end.

(** [pat.findall(s)] for a pattern without groups: the matched texts,
    scanning left to right without overlap; after an empty match the
    scan moves on by one character.  [fuel] bounds the number of
    positions tried. *)
Fixpoint findall_from (pat : pattern) (s : str) (fuel : nat) (i : nat)
  : list str :=
  match fuel with
  | 0 => []
  | S fuel' =>
      if length s <? i then []
      else
        match match_at pat s i with
        | Some m =>
            firstn (m_end m - i) (skipn i s)
            :: findall_from pat s fuel' (if m_end m =? i then S i else m_end m)
        | None => findall_from pat s fuel' (S i)
        end
  end.

Definition findall (pat : pattern) (s : str) : list str :=
  findall_from pat s (S (length s)) 0.

End Re.

(** ** scene_validator.py: [character_tracking] *)

(** The truth value of [current_character] in a condition: [None] and the
    empty string are false. *)
Definition truthy_opt (o : option str) : bool :=
  match o with Some s => truthy s | None => false end.

(** The key a dialogue line is counted under:
    [if current_character: ...[current_character] else: ...["UNKNOWN"]] *)
Definition attributed (current_character : option str) : str :=
  match current_character with
  | Some c => if truthy c then c else UNKNOWN
  | None => UNKNOWN
  end.

Module CharacterTracking.

Record state : Type := mk_state {
  current_character : option str;
  character_lines : counter
}.

Definition init : state := mk_state None [].

(** One iteration of the loop of lines 139-149. *)
Definition step (st : state) (raw : str) : state :=
  let line := Str.strip raw in
  if is_character_name line then
    mk_state (Some line) (character_lines st)
  else if is_dialogue line then
    mk_state (current_character st)
      (counter_add (attributed (current_character st)) 1 (character_lines st))
  else if str_eqb line [] then
    mk_state None (character_lines st)
  else st.

Definition scan_lines (lines : list str) : state := fold_left step lines init.

Definition scan (script : str) : state := scan_lines (script_lines script).

(** [n / d] on integers: the binary64 quotient, or an exception. *)
Inductive quotient : Type := Quot (n d : nat).

Definition true_div (n d : nat) : result quotient :=
  if d =? 0 then Raise ZeroDivisionError else Ok (Quot n d).

(** The value of [percent] in the distribution loop. *)
Inductive percent : Type :=
| PercentZero                      (* the integer 0 *)
| PercentOf (q : quotient).        (* q * 100 *)

(** [(count / total_lines) * 100 if total_lines else 0] *)
Definition percent_of (count total_lines : nat) : result percent :=
  if negb (total_lines =? 0)
  then q <- true_div count total_lines ;; Ok (PercentOf q)
  else Ok PercentZero.

Section Report.

(** The floating-point part of one distribution line,
    [f"{bar} {round(percent)}%"] with [bar = "█" * int(percent // 5)],
    is a parameter: binary64 arithmetic is not embedded. *)
Variable bar_and_rate : percent -> str.

Fixpoint distribution (total_lines : nat) (items : counter)
  : result (list str) :=
  match items with
  | [] => Ok []
  | (character, count) :: rest =>
      pc <- percent_of count total_lines ;;
      more <- distribution total_lines rest ;;
      Ok ((Str.ljust character 12 ++ ": " ++ bar_and_rate pc) :: more)
  end.

(** Lines 152-167 *)
Definition report (st : state) : result (list str) :=
  let found :=
    map (fun kv : str * nat =>
           "    - " ++ fst kv ++ ": " ++ Str.of_nat (snd kv) ++ " lines")
        (character_lines st) in
  dist <- distribution (counter_total (character_lines st))
            (character_lines st) ;;
  Ok ([ NL ++ "Characters Found:" ]
      ++ found
      ++ [ NL ++ "Character Dialogue Distribution:" ]
      ++ dist
      ++ [ NL ++ "Character Report:" ]
      ++ [ if counter_mem UNKNOWN (character_lines st)
           then "    - " ++ WARNING_SIGN
                  ++ " Some dialogue has no character assigned"
           else "    - " ++ CHECK_MARK
                  ++ " No character assignment issues" ]).

Definition character_tracking (script : str) : result str :=
  analysis <- report (scan script) ;;
  Ok (Str.join NL analysis).

End Report.

End CharacterTracking.

(** ** speaking_time.py: the scan of [character_speaking_stats]

    The report built from the final counters (lines 25-43) formats
    floating-point durations and is not embedded. *)

Module SpeakingTime.

Record state : Type := mk_state {
  current_character : option str;
  character_word_count : counter;
  character_line_count : counter;
  total_lines : nat
}.

Definition init : state := mk_state None [] [] 0.

(** One iteration of the loop of lines 11-22; the line is not stripped
    here, the predicates strip it themselves. *)
Definition step (st : state) (line : str) : state :=
  if is_character_name line then
    mk_state (Some (Str.upper (Str.strip line)))
      (character_word_count st) (character_line_count st) (total_lines st)
  else if is_dialogue line then
    let words := length (Str.split line) in
    let who := attributed (current_character st) in
    mk_state (current_character st)
      (counter_add who words (character_word_count st))
      (counter_add who 1 (character_line_count st))
      (total_lines st + 1)
  else st.

Definition scan_lines (lines : list str) : state := fold_left step lines init.

Definition scan (script : str) : state := scan_lines (script_lines script).

End SpeakingTime.

(** ** character_development.py: the scan of
    [character_development_validator]

    The report (lines 61-83) is built from the final state and is not
    embedded. *)

Module CharacterDevelopment.

(** [r'\b[A-Z][A-Z ]{1,39}\b'] *)
Definition NAME_RE : Re.pattern :=
  Re.compile
    (Re.cat [ Re.WordBoundary;
              Re.Set_ Char.isupper;
              Re.Rep (fun c => Char.isupper c
                               || (Ascii.eqb c " "%char))
                     1 (Some 39) true;
              Re.WordBoundary ])
    false.

(** [introduced]: a plain dict from names to line numbers, in insertion
    order. *)
Definition intro_mem (k : str) (d : list (str * nat)) : bool :=
  existsb (fun kv => str_eqb (fst kv) k) d.

(** [if name not in introduced: introduced[name] = n] *)
Definition intro_first (k : str) (n : nat) (d : list (str * nat))
  : list (str * nat) :=
  if intro_mem k d then d else d ++ [(k, n)].

(** [scene_map[k].add(n)] on a [defaultdict(set)] *)
Fixpoint scene_map_add (k : str) (n : nat) (d : list (str * list nat))
  : list (str * list nat) :=
  match d with
  | [] => [(k, [n])]
  | (k', ns) :: r =>
      if str_eqb k' k
      then (k', if existsb (Nat.eqb n) ns then ns else ns ++ [n]) :: r
      else (k', ns) :: scene_map_add k n r
  end.

Record state : Type := mk_state {
  character_speakers : counter;
  introduced : list (str * nat);
  current_character : option str;
  scenes : nat;
  scene_map : list (str * list nat)
}.

Definition init : state := mk_state [] [] None 0 [].

(** One iteration of the loop of lines 31-58, for [(i, raw)]. *)
Definition step (i : nat) (raw : str) (st : state) : state :=
  let line := Str.strip raw in
  if is_scene_heading line then
    mk_state (character_speakers st) (introduced st) (current_character st)
      (scenes st + 1) (scene_map st)
  else if is_character_name line then
    let name := Str.strip line in
    mk_state (character_speakers st)
      (intro_first name (i + 1) (introduced st))
      (Some name) (scenes st) (scene_map st)
  else if is_dialogue line && truthy_opt (current_character st) then
    match current_character st with
    | Some c =>
        mk_state (counter_add c 1 (character_speakers st)) (introduced st)
          (current_character st) (scenes st)
          (scene_map_add c (scenes st) (scene_map st))
    | None => st
    end
  else if is_action line then
    let possible_names := Re.findall NAME_RE line in
    mk_state (character_speakers st)
      (fold_left (fun d name => intro_first (Str.strip name) (i + 1) d)
         possible_names (introduced st))
      (current_character st) (scenes st) (scene_map st)
  else if negb (truthy line) then
    mk_state (character_speakers st) (introduced st) None
      (scenes st) (scene_map st)
  else st.

Fixpoint loop (i : nat) (rest : list str) (st : state) : state :=
  match rest with
  | [] => st
  | raw :: rest' => loop (S i) rest' (step i raw st)
  end.

Definition scan_lines (lines : list str) : state := loop 0 lines init.

Definition scan (script : str) : state := scan_lines (script_lines script).

End CharacterDevelopment.

(** ** Scene segmentation

    pacing_and_distribution.py lines 28-37 and media_readability.py lines
    48-61 are the same loop over [script.strip().split('\n')]. *)

(** A scene dict.  The initial one has no ["index"] key. *)
Record scene : Type := mk_scene {
  heading : option str;
  content : list str;
  index : option nat
}.

Record seg_state : Type := mk_seg {
  scenes : list scene;
  current_scene : scene;
  scene_counter : nat
}.

Definition seg_init : seg_state :=
  mk_seg [] (mk_scene None [] None) 0.

Definition seg_step (st : seg_state) (line : str) : seg_state :=
  if is_scene_heading line then
    mk_seg
      (if truthy_opt (heading (current_scene st))
       then scenes st ++ [current_scene st]
       else scenes st)
      (mk_scene (Some (Str.strip line)) [] (Some (scene_counter st + 1)))
      (scene_counter st + 1)
  else
    mk_seg (scenes st)
      (mk_scene (heading (current_scene st))
         (content (current_scene st) ++ [line])
         (index (current_scene st)))
      (scene_counter st).

(** The statement after the loop: the last open scene is kept when it has
    a heading. *)
Definition seg_close (st : seg_state) : seg_state :=
  mk_seg
    (if truthy_opt (heading (current_scene st))
     then scenes st ++ [current_scene st]
     else scenes st)
    (current_scene st) (scene_counter st).

Definition segment (lines : list str) : seg_state :=
  seg_close (fold_left seg_step lines seg_init).

Definition segment_scenes (lines : list str) : list scene :=
  scenes (segment lines).

(** ** pacing_and_distribution.py: the analysis of the scenes

    The report (lines 80-113) formats floating-point rates and is not
    embedded. *)

Module Pacing.

(** U+1F4AC, U+1F3C3, U+2696 U+FE0F *)
Definition DIALOGUE_HEAVY : str := bytes [240; 159; 146; 172] ++ " Dialogue-heavy".
Definition ACTION_HEAVY : str := bytes [240; 159; 143; 131] ++ " Action-heavy".
Definition BALANCED : str := bytes [226; 154; 150; 239; 184; 143] ++ " Balanced".

(** The variables of the inner loop (lines 49-59). *)
Record line_state : Type := mk_line_state {
  dialogue_count : nat;
  action_count : nat;
  current_character : option str;
  character_lines : counter;
  total_dialogue_lines : nat
}.

Definition step (st : line_state) (line : str) : line_state :=
  if is_character_name line then
    mk_line_state (dialogue_count st) (action_count st)
      (Some (Str.upper (Str.strip line)))
      (character_lines st) (total_dialogue_lines st)
  else if is_dialogue line then
    mk_line_state (dialogue_count st + 1) (action_count st)
      (current_character st)
      (counter_add (attributed (current_character st)) 1 (character_lines st))
      (total_dialogue_lines st + 1)
  else if is_action line then
    mk_line_state (dialogue_count st) (action_count st + 1)
      (current_character st) (character_lines st) (total_dialogue_lines st)
  else st.

Record scene_report : Type := mk_report {
  r_index : nat;
  r_heading : option str;
  r_dialogue : nat;
  r_action : nat;
  r_balance : str;
  r_quantity : nat
}.

Record state : Type := mk_state {
  scene_reports : list scene_report;
  all_character_lines : counter;
  all_dialogue_lines : nat
}.

Definition init : state := mk_state [] [] 0.

(** The scan of one scene's content: the counters start at 0 and the
    speaker at [None] for every scene (lines 45-47). *)
Definition scan_content (st : state) (sc : scene) : line_state :=
  fold_left step (content sc)
    (mk_line_state 0 0 None (all_character_lines st) (all_dialogue_lines st)).

(** [scene["index"]] *)
Definition get_index (sc : scene) : result nat :=
  match index sc with
  | Some n => Ok n
  | None => Raise KeyError
  end.

(** One iteration of the outer loop (lines 44-77). *)
Definition scene_step (st : state) (sc : scene) : result state :=
  let ls := scan_content st sc in
  let balance :=
    if action_count ls * 2 <? dialogue_count ls then DIALOGUE_HEAVY
    else if dialogue_count ls * 2 <? action_count ls then ACTION_HEAVY
    else BALANCED in
  idx <- get_index sc ;;
  Ok (mk_state
        (scene_reports st
         ++ [ mk_report idx (heading sc) (dialogue_count ls) (action_count ls)
                balance (dialogue_count ls + action_count ls) ])
        (character_lines ls) (total_dialogue_lines ls)).

Fixpoint analyse (scs : list scene) (st : state) : result state :=
  match scs with
  | [] => Ok st
  | sc :: rest => st' <- scene_step st sc ;; analyse rest st'
  end.

Definition scan (script : str) : result state :=
  analyse (segment_scenes (script_lines script)) init.

End Pacing.

(** ** text_to_script.py *)

(** [re.compile(r'^\s*(INT\.|EXT\.)', re.I)] *)
Definition SCENE_RE : Re.pattern :=
  Re.compile
    (Re.cat [ Re.Bol; Re.Rep Re.space 0 None true;
              Re.Group 1 (Re.Alt (Re.lit "INT.") (Re.lit "EXT.")) ])
    true.

(** [re.compile(r'^\s*(CUT TO:|FADE (IN|OUT):|DISSOLVE TO:)', re.I)] *)
Definition TRANSITION_RE : Re.pattern :=
  Re.compile
    (Re.cat [ Re.Bol; Re.Rep Re.space 0 None true;
              Re.Group 1
                (Re.Alt (Re.lit "CUT TO:")
                   (Re.Alt
                      (Re.cat [ Re.lit "FADE ";
                                Re.Group 2 (Re.Alt (Re.lit "IN") (Re.lit "OUT"));
                                Re.lit ":" ])
                      (Re.lit "DISSOLVE TO:"))) ])
    true.

(** The set [[\w\-\s]] of the name group *)
Definition name_char (c : ascii) : bool :=
  Re.word c || (Ascii.eqb c "-"%char) || Re.space c.

(** [re.compile(r'^\s*([\w\-\s]+?)(?:\s*\(([^)]+)\))?\s*:\s*(.+)$')]
    groups: 1 name, 2 parenthetical (optional), 3 dialogue *)
Definition DIALOGUE_RE : Re.pattern :=
  Re.compile
    (Re.cat [ Re.Bol; Re.Rep Re.space 0 None true;
              Re.Group 1 (Re.Rep name_char 1 None false);
              Re.Opt (Re.cat [ Re.Rep Re.space 0 None true;
                               Re.Lit "("%char;
                               Re.Group 2 (Re.Rep (Re.not_char ")"%char) 1 None true);
                               Re.Lit ")"%char ]);
              Re.Rep Re.space 0 None true;
              Re.Lit ":"%char;
              Re.Rep Re.space 0 None true;
              Re.Group 3 (Re.Rep Re.dot 1 None true);
              Re.Eol ])
    false.

(** [text.splitlines()]: the line boundaries of ASCII are LF, CR, CR LF,
    VT, FF, FS, GS and RS; no empty last line after a final boundary. *)
Definition is_linebreak (c : ascii) : bool :=
  let n := code c in
  ((10 <=? n) && (n <=? 13)) || ((28 <=? n) && (n <=? 30)).

Fixpoint splitlines_from (w : str) (s : str) : list str :=
  match s with
  | [] => match w with [] => [] | _ => [w] end
  | c :: r =>
      if Ascii.eqb c "013"%char then
        match r with
        | c' :: r' =>
            if Ascii.eqb c' "010"%char
            then w :: splitlines_from [] r'
            else w :: splitlines_from [] r
        | [] => w :: splitlines_from [] r
        end
      else if is_linebreak c then w :: splitlines_from [] r
      else splitlines_from (w ++ [c]) r
  end.

Definition splitlines (s : str) : list str := splitlines_from [] s.

(** The module globals of text_to_script.py that [format_script] reads. *)
Record globals : Type := mk_globals {
  g_SCENE_RE : Re.pattern;
  g_TRANSITION_RE : Re.pattern;
  g_DIALOGUE_RE : Re.pattern
}.

(** The module state after import. *)
Definition module_globals : globals :=
  mk_globals SCENE_RE TRANSITION_RE DIALOGUE_RE.

Definition is_some {A : Type} (o : option A) : bool :=
  match o with Some _ => true | None => false end.

(** [m.groups()] followed by the uses of the three groups in lines
    81-85: [char_name.upper()] and [dialogue.strip()] raise on [None]. *)
Definition inline_block (m : Re.match_object) : result (list str) :=
  match Re.group m 1, Re.group m 3 with
  | Some char_name, Some dialogue =>
      let paren := Re.group m 2 in
      Ok ([ Str.center (Str.strip (Str.upper char_name)) 40 ]
          ++ (match paren with
              | Some p =>
                  if truthy p
                  then [ Str.spaces 10 ++ "(" ++ Str.strip p ++ ")" ]
                  else []
              | None => []
              end)
          ++ [ Str.spaces 5 ++ Str.strip dialogue ])
  | _, _ => Raise AttributeError
  end.

(** The body of the loop of [format_script] (lines 61-98): the output
    lines appended for one input line. *)
Definition format_line (g : globals) (raw : str) : result (list str) :=
  let line := Str.strip raw in
  if negb (truthy line) then Ok [ [] ]
  else if is_some (Re.match_ (g_SCENE_RE g) line) then
    Ok [ Str.strip (Str.upper line) ]
  else if is_some (Re.match_ (g_TRANSITION_RE g) line) then
    Ok [ Str.rjust (Str.upper line) 60 ]
  else
    match Re.match_ (g_DIALOGUE_RE g) line with
    | Some m => inline_block m
    | None =>
        if is_character_name line then
          Ok [ Str.center (Str.strip (Str.upper line)) 40 ]
        else if is_emotion line then
          Ok [ Str.spaces 10 ++ Str.strip line ]
        else if is_dialogue line then
          Ok [ Str.spaces 5 ++ Str.strip line ]
        else Ok [ line ]
    end.

(** [for raw in text.splitlines(): ...] *)
Fixpoint format_lines (g : globals) (raws : list str) : result (list str) :=
  match raws with
  | [] => Ok []
  | raw :: rest =>
      out <- format_line g raw ;;
      outs <- format_lines g rest ;;
      Ok (out ++ outs)
  end.

Definition format_script_in (g : globals) (text : str) : result str :=
  formatted <- format_lines g (splitlines text) ;;
  Ok (Str.join NL formatted).

Definition format_script (text : str) : result str :=
  format_script_in module_globals text.

(** ** Vocabulary of the properties *)

(** A text is clean when it has no white space at either end. *)
Definition clean (s : str) : Prop :=
  Str.lstrip s = s /\ Str.lstrip (rev s) = rev s.

(** [named o]: the speaker [o], when there is one, is an upper-case name. *)
Definition named (o : option str) : Prop :=
  forall n, o = Some n -> Str.isupper n = true.

(** How a scan with state [S] moves its current speaker [cur] on one
    line: a character cue sets it to the upper-cased trimmed line, a blank
    line resets it when [blank_resets] and keeps it otherwise, any other
    line keeps it. *)
Definition speaker_policy {S : Type} (cur : S -> option str)
  (step : S -> str -> S) (blank_resets : bool) : Prop :=
  forall st line,
    (is_character_name line = true ->
       cur (step st line) = Some (Str.upper (Str.strip line)))
    /\ (Str.strip line = [] ->
          cur (step st line) = if blank_resets then None else cur st)
    /\ (is_character_name line = false -> Str.strip line <> [] ->
          cur (step st line) = cur st).

(** No line of [lines] is a character cue. *)
Definition no_cue (lines : list str) : Prop :=
  Forall (fun line => is_character_name line = false) lines.

(** No line of [lines] is a scene heading. *)
Definition no_heading (lines : list str) : Prop :=
  Forall (fun line => is_scene_heading line = false) lines.

(** The lines that heading lines [hs] and scenes [scs] account for: every
    heading line followed by the content of its scene, in order. *)
Definition scene_lines (hs : list str) (scs : list scene) : list str :=
  concat (map (fun p => fst p :: content (snd p)) (combine hs scs)).

(** The lines before the first heading and, for every heading line, the
    lines up to the next heading. *)
Fixpoint split_at_headings (lines : list str)
  : list str * list (str * list str) :=
  match lines with
  | [] => ([], [])
  | l :: r =>
      let (pre, gs) := split_at_headings r in
      if is_scene_heading l then ([], (l, pre) :: gs) else (l :: pre, gs)
  end.

(** The scene dicts of consecutive groups, numbered from [n + 1]. *)
Fixpoint number_scenes (n : nat) (gs : list (str * list str)) : list scene :=
  match gs with
  | [] => []
  | (h, c) :: r =>
      mk_scene (Some (Str.strip h)) c (Some (n + 1)) :: number_scenes (n + 1) r
  end.

(** The lookback of [scene_structure_validator] for the line at index
    [i]: the line before it is a character cue, or the line before it is
    an emotion and the one before that a character cue. *)
Definition speaker_resolved (lines : list str) (i : nat) : bool :=
  ((1 <=? i) && is_character_name (nth (i - 1) lines []))
  || ((2 <=? i) && is_emotion (nth (i - 1) lines [])
      && is_character_name (nth (i - 2) lines [])).

(** The line at index [i] is followed by a scene heading. *)
Definition heading_follows (lines : list str) (i : nat) : bool :=
  (i + 1 <? length lines) && is_scene_heading (nth (i + 1) lines []).

(** One iteration without the monad, for an index inside the list. *)
Definition ssv_step_pure (lines : list str) (i : nat) (raw : str)
  (st : ssv_state) : ssv_state :=
  let line := Str.strip raw in
  if negb (truthy line) then st
  else if is_scene_heading line then
    mk_ssv (scene_count st + 1)
      (valid_headings st ++ ["    - " ++ line ++ " " ++ CHECK_MARK])
      (header_issues st) (scene_issues st) (character_lines st)
      (action_present st)
  else if is_transition line then
    mk_ssv (scene_count st) (valid_headings st)
      (header_issues st
       ++ (if heading_follows lines i then [] else [transition_issue i]))
      (scene_issues st) (character_lines st) (action_present st)
  else if is_action line then
    mk_ssv (scene_count st) (valid_headings st) (header_issues st)
      (scene_issues st) (character_lines st) true
  else if is_dialogue line then
    if (1 <=? i) && is_character_name (nth (i - 1) lines []) then
      mk_ssv (scene_count st) (valid_headings st) (header_issues st)
        (scene_issues st)
        (counter_add (Str.upper (Str.strip (nth (i - 1) lines []))) 1
           (character_lines st))
        (action_present st)
    else if (2 <=? i) && is_emotion (nth (i - 1) lines [])
            && is_character_name (nth (i - 2) lines []) then
      mk_ssv (scene_count st) (valid_headings st) (header_issues st)
        (scene_issues st)
        (counter_add (Str.upper (Str.strip (nth (i - 2) lines []))) 1
           (character_lines st))
        (action_present st)
    else
      mk_ssv (scene_count st) (valid_headings st) (header_issues st)
        (scene_issues st ++ [dialogue_issue i])
        (counter_add UNKNOWN 1 (character_lines st))
        (action_present st)
  else st.

(** [ssv_grows st st']: from [st] to [st'] no issue was lost and the
    UNKNOWN count did not go down. *)
Definition ssv_grows (st st' : ssv_state) : Prop :=
  incl (header_issues st) (header_issues st')
  /\ incl (scene_issues st) (scene_issues st')
  /\ counter_get UNKNOWN (character_lines st)
     <= counter_get UNKNOWN (character_lines st').

(** [lit_prefix ic s p]: the literal text [p] matches at the start of
    [s], character by character, under the [re.I] flag [ic]. *)
Fixpoint lit_prefix (ic : bool) (s p : str) {struct p} : bool :=
  match p, s with
  | [], _ => true
  | l :: p', c :: s' => Re.lit_matches ic l c && lit_prefix ic s' p'
  | _ :: _, [] => false
  end.

(** The transitions [format_script] knows: the upper-cased text starts
    with one of the four cues of [TRANSITION_RE].  On 7-bit text without
    white space in front this is the test [TRANSITION_RE.match] makes. *)
Definition starts_with_transition (line : str) : bool :=
  Str.startswith_any (Str.upper line)
    ["CUT TO:" : str; "FADE IN:" : str; "FADE OUT:" : str;
     "DISSOLVE TO:" : str].

(** [extends caps caps']: [caps'] is [caps] with more spans recorded. *)
Definition extends (caps caps' : Re.captures) : Prop :=
  exists new, caps' = new ++ caps.





(** * Further embedded code

    The reports that the sections above leave to their scans are
    embedded here, with [extract_title], [line_write] and
    [run_analysis].  Floating-point formatting stays a parameter. *)

(** ** main.py: [extract_title] *)

(** The loop of lines 19-22 over [script.splitlines()]: the first line
    that is not blank, trimmed. *)
Fixpoint extract_title_from (lines : list str) : str :=
  match lines with
  | [] => "Untitled Script"
  | line :: rest =>
      if truthy (Str.strip line) then Str.strip line
      else extract_title_from rest
  end.

Definition extract_title (script : str) : str :=
  extract_title_from (splitlines script).

(** ** character_development.py: the report of
    [character_development_validator] (lines 61-84) *)

(** [len(scene_map[char])] on the [defaultdict(set)] *)
Fixpoint scene_set_size (k : str) (d : list (str * list nat)) : nat :=
  match d with
  | [] => 0
  | (k', ns) :: r => if str_eqb k' k then length ns else scene_set_size k r
  end.

Definition cdv_introduced_line (speakers : counter) (entry : str * nat) : str :=
  let intro := fst entry ++ " (Line " ++ Str.of_nat (snd entry) ++ ")" in
  if negb (counter_mem (fst entry) speakers)
  then "    - " ++ intro ++ ": Introduced via action only " ++ CROSS_MARK
  else "    - " ++ intro ++ ": Introduced via dialogue only " ++ WARNING_SIGN.

Definition cdv_presence_line (scene_map : list (str * list nat))
  (entry : str * nat) : str :=
  if snd entry =? 1
  then fst entry ++ ": " ++ WARNING_SIGN ++ " Only speaks once"
  else fst entry ++ ": Speaks " ++ Str.of_nat (snd entry)
         ++ " times across "
         ++ Str.of_nat (scene_set_size (fst entry) scene_map) ++ " scenes".

Definition cdv_warnings (speakers : counter) (introduced : list (str * nat))
  : list str :=
  map (fun entry : str * nat => fst entry ++ ": " ++ CROSS_MARK ++ " Never speaks")
    (filter (fun entry : str * nat => negb (counter_mem (fst entry) speakers))
       introduced).

Definition cdv_report (st : CharacterDevelopment.state) : list str :=
  [ NL ++ "Character Development Report";
    "--------------------------------" : str; [] ]
  ++ [ "Introduced Characters:" : str ]
  ++ map (cdv_introduced_line (CharacterDevelopment.character_speakers st))
       (CharacterDevelopment.introduced st)
  ++ [ NL ++ "Speaking Presence:" ]
  ++ map (cdv_presence_line (CharacterDevelopment.scene_map st))
       (CharacterDevelopment.character_speakers st)
  ++ [ NL ++ "Warnings:" ]
  ++ cdv_warnings (CharacterDevelopment.character_speakers st)
       (CharacterDevelopment.introduced st).

Definition character_development_validator (script : str) : str :=
  Str.join NL (cdv_report (CharacterDevelopment.scan script)).

(** ** speaking_time.py: the report of [character_speaking_stats]
    (lines 25-43) *)

(** Reading [d[k]] on a [defaultdict(int)] inserts a missing key with 0. *)
Definition counter_touch (k : str) (d : counter) : counter :=
  if counter_mem k d then d else d ++ [(k, 0)].

Section SpeakingReport.

(** [time_str] for a number of words: [time_sec = words / 2.5] and its
    formatting in minutes and seconds are binary64 arithmetic, a
    parameter of the embedding. *)
Variable time_str : nat -> str.

(** The loop of lines 28-38: the report lines and the line counter after
    the reads. *)
Fixpoint css_entries (word_count : counter) (line_count : counter)
  : list str * counter :=
  match word_count with
  | [] => ([], line_count)
  | (character, words) :: rest =>
      let lines_spoken := counter_get character line_count in
      let line_count' := counter_touch character line_count in
      let (more, line_count'') := css_entries rest line_count' in
      ([ character ++ ":";
         "    - Lines: " ++ Str.of_nat lines_spoken;
         "    - Words: " ++ Str.of_nat words;
         "    - Estimated Speaking Time: " ++ time_str words ++ NL ]
       ++ more, line_count'')
  end.

Definition css_report (st : SpeakingTime.state) : list str :=
  let (entries, line_count) :=
    css_entries (SpeakingTime.character_word_count st)
      (SpeakingTime.character_line_count st) in
  [ NL ++ "Character Speaking Time Report";
    "-------------------------------" : str ]
  ++ [ "Total dialogue lines: " ++ Str.of_nat (SpeakingTime.total_lines st)
         ++ " lines" ]
  ++ entries
  ++ (if length line_count =? 0 then [ "No dialogue lines found" : str ] else []).

Definition character_speaking_stats (script : str) : str :=
  Str.join NL (css_report (SpeakingTime.scan script)).

End SpeakingReport.

(** ** pacing_and_distribution.py: the report of
    [scene_pacing_and_distribution] (lines 80-115) *)

(** What an f-string shows for a heading: the text, or [None]. *)
Definition show_heading (h : option str) : str :=
  match h with Some s => s | None => "None" end.

(** [abs(a - b)] on non-negative integers *)
Definition abs_diff (a b : nat) : nat := (a - b) + (b - a).

Section PacingReport.

(** The floating-point part of a distribution line, as for
    [character_tracking]. *)
Variable bar_and_rate : CharacterTracking.percent -> str.

(** The four lines appended for one scene (lines 87-90 and 93-96). *)
Definition pacing_block (s : Pacing.scene_report) : list str :=
  [ "Scene " ++ Str.of_nat (Pacing.r_index s) ++ ": "
      ++ show_heading (Pacing.r_heading s);
    "    - Dialogue: " ++ Str.of_nat (Pacing.r_dialogue s) ++ " lines";
    "    - Action: " ++ Str.of_nat (Pacing.r_action s) ++ " lines";
    "    - Balance: " ++ Pacing.r_balance s ++ NL ].

(** The loop of lines 92-100 from index [i] on: the lines appended and
    the flag [ill_paced]. *)
Fixpoint pacing_compare (all : list Pacing.scene_report) (i : nat)
  (rest : list Pacing.scene_report) (ill_paced : bool)
  : result (list str * bool) :=
  match rest with
  | [] => Ok ([], ill_paced)
  | s :: rest' =>
      ill <- (if 0 <? i then
                p <- getitem all (i - 1) ;;
                Ok (if 4 <=? abs_diff (Pacing.r_quantity s) (Pacing.r_quantity p)
                    then true else ill_paced)
              else Ok ill_paced) ;;
      more <- pacing_compare all (S i) rest' ill ;;
      Ok (pacing_block s ++ fst more, snd more)
  end.

(** The loop of lines 110-113 *)
Fixpoint pacing_distribution (total_dialogue_lines : nat) (items : counter)
  : result (list str) :=
  match items with
  | [] => Ok []
  | (char, count) :: rest =>
      q <- CharacterTracking.true_div count total_dialogue_lines ;;
      more <- pacing_distribution total_dialogue_lines rest ;;
      Ok (("    " ++ Str.ljust char 12 ++ ": "
           ++ bar_and_rate (CharacterTracking.PercentOf q)) :: more)
  end.

Definition pacing_report (scene_counter : nat) (st : Pacing.state)
  : result (list str) :=
  scenes_part <-
    (if scene_counter =? 0 then Ok ([ "No scenes detected" : str ], false)
     else if scene_counter =? 1 then
       Ok (("Only one scene detected" : str)
           :: flat_map pacing_block (Pacing.scene_reports st), false)
     else pacing_compare (Pacing.scene_reports st) 0
            (Pacing.scene_reports st) false) ;;
  dist <-
    (if Pacing.all_dialogue_lines st =? 0
     then Ok [ "    No dialogue found in the script." : str ]
     else pacing_distribution (Pacing.all_dialogue_lines st)
            (Pacing.all_character_lines st)) ;;
  Ok ([ NL ++ "Scene Pacing Report"; "--------------------" : str ]
      ++ fst scenes_part
      ++ [ if snd scenes_part && (1 <? scene_counter)
           then "Significant variation in scene lengths - Consider breaking up longer scenes" : str
           else "Scene length distribution is balanced" : str ]
      ++ [ "Dialogue Distribution:" : str; "----------------------" : str ]
      ++ dist).

Definition scene_pacing_and_distribution (script : str) : result str :=
  let seg := segment (script_lines script) in
  st <- Pacing.analyse (scenes seg) Pacing.init ;;
  report <- pacing_report (scene_counter seg) st ;;
  Ok (Str.join NL report).

End PacingReport.

(** ** media_readability.py: [readability_analysis] *)

Module Readability.

(** The counters of the inner loop (lines 78-86); [long_lines] runs over
    all scenes. *)
Record line_state : Type := mk_line_state {
  long_lines : nat;
  consecutive_long : nat;
  long_line_blocks : nat
}.

Definition step (st : line_state) (line : str) : line_state :=
  let st1 :=
    if 100 <? length line
    then mk_line_state (long_lines st + 1) (consecutive_long st + 1)
           (long_line_blocks st)
    else mk_line_state (long_lines st) 0 (long_line_blocks st) in
  if 5 <=? consecutive_long st1
  then mk_line_state (long_lines st1) (consecutive_long st1)
         (long_line_blocks st1 + 1)
  else st1.

(** [format_flags] and [long_lines] *)
Record state : Type := mk_state {
  total_long_lines : nat;
  web : list str;
  tv : list str;
  stage : list str
}.

Definition init : state := mk_state 0 [] [] [].

(** The generator of lines 96-97 *)
Definition dialogue_lines (content : list str) : nat :=
  length
    (filter (fun line => truthy (Str.strip line)
                         && negb (is_scene_heading line)
                         && negb (is_character_name line))
       content).

Section Analysis.

(** [q < 0.3] for the binary64 quotient [q]: a parameter of the
    embedding. *)
Variable below_0_3 : CharacterTracking.quotient -> bool.

(** One iteration of the loop of lines 73-107. *)
Definition scene_step (st : state) (sc : scene) : result state :=
  let scene_len := length (content sc) in
  let ls := fold_left step (content sc) (mk_line_state (total_long_lines st) 0 0) in
  web' <-
    (if 15 <? scene_len then
       idx <- Pacing.get_index sc ;;
       Ok (web st ++ [ "Scene " ++ Str.of_nat idx
                         ++ " too long for short-form pacing " ++ WARNING_SIGN ])
     else Ok (web st)) ;;
  q <- CharacterTracking.true_div (dialogue_lines (content sc))
         (Nat.max scene_len 1) ;;
  stage' <-
    (if below_0_3 q then
       idx <- Pacing.get_index sc ;;
       Ok (stage st ++ [ "Scene " ++ Str.of_nat idx
                           ++ " is action-heavy for stage format " ++ WARNING_SIGN ])
     else Ok (stage st)) ;;
  tv' <-
    (if 1 <=? long_line_blocks ls then
       idx <- Pacing.get_index sc ;;
       Ok (tv st ++ [ "Scene " ++ Str.of_nat idx
                        ++ " has dense narration blocks " ++ WARNING_SIGN ])
     else Ok (tv st)) ;;
  Ok (mk_state (long_lines ls) web' tv' stage').

Fixpoint analyse (scs : list scene) (st : state) : result state :=
  match scs with
  | [] => Ok st
  | sc :: rest => st' <- scene_step st sc ;; analyse rest st'
  end.

(** Lines 110-115 for one category *)
Definition flag_lines (category : str) (flags : list str) : list str :=
  match flags with
  | [] => [ "    - " ++ category ++ ": " ++ CHECK_MARK ++ " No issues found" ]
  | _ => map (fun f : str => "    - " ++ category ++ ": " ++ f) flags
  end.

Definition report (st : state) : list str :=
  [ NL ++ "Readability Analysis"; "----------------------" : str ]
  ++ [ NL ++ "Format Flags:" ]
  ++ flag_lines "Web" (web st)
  ++ flag_lines "TV" (tv st)
  ++ flag_lines "Stage" (stage st)
  ++ [ NL ++ "General Issues:" ]
  ++ [ if total_long_lines st =? 0
       then "    - " ++ CHECK_MARK ++ " No overly long lines found"
       else "    - " ++ Str.of_nat (total_long_lines st)
              ++ " line(s) exceed 100 characters (may reduce readability)" ].

Definition scan (script : str) : result state :=
  analyse (segment_scenes (script_lines script)) init.

Definition readability_analysis (script : str) : result str :=
  st <- scan script ;;
  Ok (Str.join NL (report st)).

End Analysis.

End Readability.

(** ** text_to_script.py: [line_write] *)

(** What the function writes to the terminal: a [print], or the prompt of
    an [input]. *)
Inductive event : Type :=
| Printed (s : str)
| Prompted (s : str).

(** How a run on a finite sequence of typed lines ends: with the returned
    text, or never: once the input is exhausted [input] raises [EOFError],
    the bare [except] prints the empty [error], and the loop goes on. *)
Inductive outcome : Type :=
| Returned (raw_text : str)
| Loops.

(** The loop of lines 107-122 with the list [lines] collected so far. *)
Fixpoint line_write_loop (inputs : list str) (lines : list str)
  : list event * outcome :=
  match inputs with
  | [] => ([ Prompted "line: "; Printed [] ], Loops)
  | text :: rest =>
      if str_eqb (Str.strip text) "q" && (length lines <=? 1) then
        let (trace, out) := line_write_loop rest lines in
        (Prompted "line: "
         :: Printed "Enter at least 2 lines before proceeding" :: trace, out)
      else if str_eqb (Str.strip text) "q" then
        ([ Prompted "line: "; Printed ("lines collected, proceeding..." ++ NL) ],
         Returned (Str.join NL lines))
      else if length text <? 5 then
        let (trace, out) := line_write_loop rest lines in
        (Prompted "line: " :: Printed "Enter a valid line" :: trace, out)
      else
        let (trace, out) := line_write_loop rest (lines ++ [text]) in
        (Prompted "line: " :: trace, out)
  end.

Definition line_write (inputs : list str) : list event * outcome :=
  let (trace, out) := line_write_loop inputs [] in
  (Printed "Since no .txt file provided, Enter Each line of your draft and hit enter"
   :: Printed ("When youre done press q and enter to continue..." ++ NL)
   :: trace, out).

(** ** main.py: [run_analysis] (lines 100-114)

    What is printed, and the reports dict in insertion order.  The time
    stamp comes from the clock and is an input here; the float formatting
    of the three analyses that use it is a parameter, as above.  The
    values of the dict display are evaluated in order, and an exception
    in one of them leaves [self.reports] unassigned and the second
    message unprinted. *)

Section RunAnalysis.

Variable bar_and_rate : CharacterTracking.percent -> str.
Variable below_0_3 : CharacterTracking.quotient -> bool.
Variable time_str : nat -> str.

(** The dict display of lines 105-113 *)
Definition run_reports (current_time : str) (script : str)
  : result (list (str * str)) :=
  let title := extract_title script in
  structure <- scene_structure_validator script ;;
  characters <- CharacterTracking.character_tracking bar_and_rate script ;;
  let development := character_development_validator script in
  pacing <- scene_pacing_and_distribution bar_and_rate script ;;
  readability <- Readability.readability_analysis below_0_3 script ;;
  let speaking := character_speaking_stats time_str script in
  Ok [ ("Title & Date" : str, title ++ NL ++ current_time);
       ("Structure" : str, structure);
       ("Characters" : str, characters);
       ("Development" : str, development);
       ("Pacing" : str, pacing);
       ("Readability" : str, readability);
       ("Speaking" : str, speaking) ].

Definition run_analysis (current_time : str) (script : str)
  : list event * result (list (str * str)) :=
  match run_reports current_time script with
  | Ok reports =>
      ([ Printed (NL ++ "Running analysis..."); Printed "Analysis complete" ],
       Ok reports)
  | Raise e => ([ Printed (NL ++ "Running analysis...") ], Raise e)
  end.

End RunAnalysis.

(** ** Vocabulary of the further properties *)

(** Every character of [s] is white space. *)
Definition blank_text (s : str) : Prop := forallb Char.isspace s = true.

(** The line at index [i] exists and satisfies [p]. *)
Definition at_line (lines : list str) (i : nat) (p : str -> bool) : bool :=
  match nth_error lines i with
  | Some raw => p raw
  | None => false
  end.

(** The line at index [i] is a transition, not a scene heading, and no
    scene heading follows it directly. *)
Definition flagged_transition (lines : list str) (i : nat) : bool :=
  at_line lines i
    (fun raw => is_transition raw && negb (is_scene_heading raw))
  && negb (heading_follows lines i).

(** The line at index [i] is a dialogue line, not an action line, and has
    no speaker by the lookback of [scene_structure_validator]. *)
Definition unattributed (lines : list str) (i : nat) : bool :=
  at_line lines i (fun raw => is_dialogue raw && negb (is_action raw))
  && negb (speaker_resolved lines i).

(** The entry of [valid_headings] for a heading line. *)
Definition heading_entry (line : str) : str :=
  "    - " ++ Str.strip line ++ " " ++ CHECK_MARK.

(** A line counted as action by the pacing analysis: an action line that
    is not a dialogue line. *)
Definition action_only (line : str) : bool :=
  is_action line && negb (is_dialogue line).

(** The balance label of a scene with [d] dialogue and [a] action lines. *)
Definition pacing_balance (d a : nat) : str :=
  if a * 2 <? d then Pacing.DIALOGUE_HEAVY
  else if d * 2 <? a then Pacing.ACTION_HEAVY
  else Pacing.BALANCED.

(** The report entry that belongs to a scene. *)
Definition report_of_scene (idx : nat) (sc : scene) : Pacing.scene_report :=
  let d := length (filter is_dialogue (content sc)) in
  let a := length (filter action_only (content sc)) in
  Pacing.mk_report idx (heading sc) d a (pacing_balance d a) (d + a).

(** Entries for consecutive scenes, numbered from [n + 1]. *)
Fixpoint reports_from (n : nat) (scs : list scene) : list Pacing.scene_report :=
  match scs with
  | [] => []
  | sc :: rest => report_of_scene (n + 1) sc :: reports_from (n + 1) rest
  end.

(** Two adjacent entries differ by four counted lines or more. *)
Definition ill_paced (reports : list Pacing.scene_report) : bool :=
  existsb
    (fun ps : Pacing.scene_report * Pacing.scene_report =>
       4 <=? abs_diff (Pacing.r_quantity (snd ps)) (Pacing.r_quantity (fst ps)))
    (combine reports (tl reports)).

(** [ill_paced_after prev rest]: some entry of [rest] differs by four
    counted lines or more from the entry before it, [prev] being the
    entry before the first one. *)
Fixpoint ill_paced_after (prev : option Pacing.scene_report)
  (rest : list Pacing.scene_report) : bool :=
  match rest with
  | [] => false
  | s :: rest' =>
      (match prev with
       | Some p => 4 <=? abs_diff (Pacing.r_quantity s) (Pacing.r_quantity p)
       | None => false
       end)
      || ill_paced_after (Some s) rest'
  end.

(** [line] is a character cue for the name [k], as
    [character_development_validator] reads it. *)
Definition names_cue (k line : str) : bool :=
  negb (is_scene_heading line) && is_character_name line
  && str_eqb (Str.strip line) k.

(** [line] is an action line in which the pattern of names finds [k]. *)
Definition names_in_action (k line : str) : bool :=
  negb (is_scene_heading line) && negb (is_character_name line)
  && is_action line
  && existsb (fun name => str_eqb (Str.strip name) k)
       (Re.findall CharacterDevelopment.NAME_RE (Str.strip line)).

Definition introduces (k line : str) : bool :=
  names_cue k line || names_in_action k line.

(** The speakers and the scene sets have the same keys in the same order;
    each set is not empty, has no more elements than the speaker has
    lines, and holds scene numbers up to [scenes]. *)
Definition speakers_aligned (scenes : nat) (speakers : counter)
  (scene_map : list (str * list nat)) : Prop :=
  Forall2
    (fun (kv : str * nat) (ks : str * list nat) =>
       fst kv = fst ks
       /\ 1 <= length (snd ks) /\ length (snd ks) <= snd kv
       /\ NoDup (snd ks) /\ Forall (fun n => n <= scenes) (snd ks))
    speakers scene_map.

(** What holds of the state of [character_development_validator] after
    the first [i] lines. *)
Definition development_invariant (lines : list str) (i : nat)
  (st : CharacterDevelopment.state) : Prop :=
  NoDup (map fst (CharacterDevelopment.introduced st))
  /\ (forall k n, In (k, n) (CharacterDevelopment.introduced st) ->
        1 <= n <= i /\ at_line lines (n - 1) (introduces k) = true)
  /\ (forall m k, m < i -> at_line lines m (names_cue k) = true ->
        exists n, In (k, n) (CharacterDevelopment.introduced st) /\ n <= m + 1)
  /\ speakers_aligned (CharacterDevelopment.scenes st)
       (CharacterDevelopment.character_speakers st)
       (CharacterDevelopment.scene_map st)
  /\ (forall k, counter_mem k (CharacterDevelopment.character_speakers st) = true ->
        CharacterDevelopment.intro_mem k (CharacterDevelopment.introduced st) = true)
  /\ (forall c, CharacterDevelopment.current_character st = Some c ->
        CharacterDevelopment.intro_mem c (CharacterDevelopment.introduced st) = true).

(** A line of more than 100 characters. *)
Definition long_line (line : str) : bool := 100 <? length line.

(** [bs] starts with [n] times [true]. *)
Fixpoint starts_with_run (n : nat) (bs : list bool) : bool :=
  match n with
  | 0 => true
  | S n' =>
      match bs with
      | [] => false
      | b :: r => b && starts_with_run n' r
      end
  end.

(** [bs] holds [n] times [true] in a row somewhere. *)
Fixpoint has_run (n : nat) (bs : list bool) : bool :=
  starts_with_run n bs
  || match bs with
     | [] => false
     | _ :: r => has_run n r
     end.

(** The content holds five long lines in a row. *)
Definition dense_block (content : list str) : bool :=
  has_run 5 (map long_line content).

(** A run of five is completed inside [bs], [c] times [true] coming just
    before it. *)
Fixpoint run_reached (c : nat) (bs : list bool) : bool :=
  match bs with
  | [] => false
  | b :: r =>
      if b then (5 <=? c + 1) || run_reached (c + 1) r
      else run_reached 0 r
  end.

Definition scene_number (sc : scene) : nat :=
  match index sc with
  | Some n => n
  | None => 0
  end.

(** A flag of [readability_analysis] for a scene. *)
Definition scene_flag (msg : str) (sc : scene) : str :=
  "Scene " ++ Str.of_nat (scene_number sc) ++ msg ++ WARNING_SIGN.

Definition too_long_for_web (sc : scene) : bool := 15 <? length (content sc).

Definition dense_scene (sc : scene) : bool := dense_block (content sc).

Definition sparse_for_stage (below_0_3 : CharacterTracking.quotient -> bool)
  (sc : scene) : bool :=
  below_0_3
    (CharacterTracking.Quot (Readability.dialogue_lines (content sc))
       (Nat.max (length (content sc)) 1)).

(** A typed line that [line_write] keeps: it is not the quit command and
    has five characters or more. *)
Definition accepted_line (text : str) : bool :=
  negb (str_eqb (Str.strip text) "q") && (5 <=? length text).

(** * Properties *)

(** ** The repository's tests, on the embedding

    The assertions of tests/test_scene_validator.py and
    tests/test_text_to_script.py, with the dashes and apostrophes of the
    test texts written in ASCII. *)

Example test_scene_heading :
  is_scene_heading "INT. ROOM - DAY" = true
  /\ is_scene_heading "EXT. PARK - NIGHT" = true
  /\ is_scene_heading "FADE OUT:" = false.
Proof. repeat split; reflexivity. Qed.

Example test_transition :
  is_transition "CUT TO:" = true
  /\ is_transition "FADE OUT:" = true
  /\ is_transition "INT. KITCHEN" = false.
Proof. repeat split; reflexivity. Qed.

Example test_emotion :
  is_emotion "(angrily)" = true
  /\ is_emotion "angrily" = false
  /\ is_emotion "(just" = false.
Proof. repeat split; reflexivity. Qed.

Example test_character_name :
  is_character_name "SARAH" = true
  /\ is_character_name "DR. EVIL" = true
  /\ is_character_name "INT. HALLWAY" = false
  /\ is_character_name "cut to:" = false
  /\ is_character_name "(angrily)" = false.
Proof. repeat split; reflexivity. Qed.

Example test_action :
  is_action "He picks up the glass and stares at it." = true
  /\ is_action "MARK" = false
  /\ is_action "FADE IN:" = false.
Proof. repeat split; reflexivity. Qed.

Example test_dialogue :
  is_dialogue "I can't believe this is happening." = true
  /\ is_dialogue "CUT TO:" = false
  /\ is_dialogue "" = false.
Proof. repeat split; reflexivity. Qed.

Example test_scene_structure_validator :
  exists st,
    ssv_scan
      (NL ++ "INT. LIVING ROOM - NIGHT" ++ NL ++ NL
       ++ "SARAH" ++ NL ++ "(angrily)" ++ NL
       ++ "I can't believe this is happening." ++ NL ++ NL
       ++ "MARK" ++ NL ++ "We don't have a choice." ++ NL ++ NL
       ++ "Sarah walks in" ++ NL ++ NL
       ++ "CUT TO:" ++ NL ++ "INT. BEDROOM - LATER" ++ NL ++ NL
       ++ "SARAH" ++ NL ++ "It's over." ++ NL ++ "FADE OUT:" ++ NL)
    = Ok st
    /\ scene_count st = 2
    /\ scene_issues st = [].
Proof. eexists. split; [reflexivity|]. split; reflexivity. Qed.

Example test_character_tracking :
  CharacterTracking.character_lines
    (CharacterTracking.scan
       (NL ++ "INT. ROOM - DAY" ++ NL ++ NL
        ++ "SARAH" ++ NL ++ "Let's get out of here." ++ NL ++ NL
        ++ "MARK" ++ NL ++ "We're not done yet." ++ NL ++ NL
        ++ "SARAH" ++ NL ++ "We are now." ++ NL))
  = [ ("SARAH" : str, 2); ("MARK" : str, 1) ].
Proof. reflexivity. Qed.

Example test_transition_alignment :
  format_script "CUT TO:" = Ok (Str.spaces 53 ++ "CUT TO:").
Proof. reflexivity. Qed.

Example test_dialogue_with_parenthetical :
  format_script "Sarah (calmly): I'll take care of it."
  = Ok (Str.join NL
          [ Str.spaces 17 ++ "SARAH" ++ Str.spaces 18;
            Str.spaces 10 ++ "(calmly)";
            Str.spaces 5 ++ "I'll take care of it." ]).
Proof. reflexivity. Qed.

Example test_emotion_line :
  format_script "(angrily)" = Ok (Str.spaces 10 ++ "(angrily)").
Proof. reflexivity. Qed.

Example test_action_line :
  format_script "He walks to the door and pauses."
  = Ok (Str.spaces 5 ++ "He walks to the door and pauses.").
Proof. reflexivity. Qed.

(** ** Characters *)

Arguments Ascii.eqb : simpl never.

Ltac each_char c := destruct c as [[] [] [] [] [] [] [] []].

Lemma upper_fixed c : Char.islower c = false -> Char.upper c = c.
Proof. unfold Char.upper; intros ->; reflexivity. Qed.

Lemma upper_lower c : Char.upper (Char.lower c) = Char.upper c.
Proof. each_char c; reflexivity. Qed.

Lemma lower_upper c : Char.lower (Char.upper c) = Char.lower c.
Proof. each_char c; reflexivity. Qed.

Lemma isspace_upper c : Char.isspace (Char.upper c) = Char.isspace c.
Proof. each_char c; reflexivity. Qed.

(** ** Strings *)

Lemma str_eqb_eq a b : str_eqb a b = true <-> a = b.
Proof.
  revert b; induction a as [|x a IH]; intros [|y b]; simpl;
    try (split; congruence).
  rewrite andb_true_iff, Ascii.eqb_eq, IH. split.
  - intros [-> ->]; reflexivity.
  - intros H; injection H; auto.
Qed.

Lemma str_eqb_refl a : str_eqb a a = true.
Proof. apply str_eqb_eq; reflexivity. Qed.

Lemma str_eqb_neq a b : str_eqb a b = false <-> a <> b.
Proof.
  rewrite <- str_eqb_eq. destruct (str_eqb a b); split; congruence.
Qed.

Lemma lstrip_split s :
  exists ws, s = ws ++ Str.lstrip s /\ forallb Char.isspace ws = true.
Proof.
  induction s as [|c r IH]; simpl.
  - exists []; auto.
  - destruct (Char.isspace c) eqn:E.
    + destruct IH as (ws & Hs & Hw). exists (c :: ws); simpl.
      rewrite E, Hw; split; [f_equal; exact Hs | reflexivity].
    + exists []; auto.
Qed.

Lemma lstrip_head s c r : Str.lstrip s = c :: r -> Char.isspace c = false.
Proof.
  induction s as [|a s IH]; simpl; [discriminate|].
  destruct (Char.isspace a) eqn:E; [exact IH|].
  intros H; injection H as -> _; exact E.
Qed.

Lemma lstrip_fixed c r : Char.isspace c = false -> Str.lstrip (c :: r) = c :: r.
Proof. simpl; intros ->; reflexivity. Qed.

Lemma lstrip_idem s : Str.lstrip (Str.lstrip s) = Str.lstrip s.
Proof.
  destruct (Str.lstrip s) as [|c r] eqn:E; [reflexivity|].
  apply lstrip_fixed, (lstrip_head _ _ _ E).
Qed.

Lemma strip_clean s : clean (Str.strip s).
Proof.
  unfold clean, Str.strip, Str.rstrip. split.
  - destruct (lstrip_split (rev (Str.lstrip s))) as (ws & Hs & _).
    apply (f_equal (@rev ascii)) in Hs.
    rewrite rev_involutive, rev_app_distr in Hs.
    destruct (rev (Str.lstrip (rev (Str.lstrip s)))) as [|c r] eqn:E;
      [reflexivity|].
    simpl in Hs. apply lstrip_fixed, (lstrip_head _ _ _ Hs).
  - rewrite rev_involutive. apply lstrip_idem.
Qed.

Lemma clean_strip s : clean s -> Str.strip s = s.
Proof.
  intros [H1 H2]. unfold Str.strip, Str.rstrip.
  rewrite H1, H2. apply rev_involutive.
Qed.

Lemma strip_idem s : Str.strip (Str.strip s) = Str.strip s.
Proof. apply clean_strip, strip_clean. Qed.

Lemma forallb_rev {A : Type} (p : A -> bool) l :
  forallb p (rev l) = forallb p l.
Proof.
  induction l as [|x l IH]; simpl; [reflexivity|].
  rewrite forallb_app, IH. simpl. rewrite andb_true_r. apply andb_comm.
Qed.

Lemma strip_split s :
  exists a b, s = a ++ Str.strip s ++ b
              /\ forallb Char.isspace a = true
              /\ forallb Char.isspace b = true.
Proof.
  destruct (lstrip_split s) as (a & Hs & Ha).
  destruct (lstrip_split (rev (Str.lstrip s))) as (b & Hr & Hb).
  exists a, (rev b). repeat split.
  - unfold Str.strip, Str.rstrip. rewrite <- rev_app_distr, <- Hr, rev_involutive.
    exact Hs.
  - exact Ha.
  - rewrite forallb_rev. exact Hb.
Qed.

Lemma skipn_cons_nth {A : Type} (l : list A) i x rest :
  x :: rest = skipn i l ->
  nth_error l i = Some x /\ rest = skipn (S i) l.
Proof.
  revert i. induction l as [|y l IH]; intros [|i] H; simpl in *;
    try discriminate H.
  - injection H as -> ->. split; reflexivity.
  - apply IH in H. exact H.
Qed.

Lemma rev_upper s : rev (Str.upper s) = Str.upper (rev s).
Proof. unfold Str.upper; symmetry; apply map_rev. Qed.

(** ** The predicates see the trimmed line only *)

Lemma is_scene_heading_strip line :
  is_scene_heading (Str.strip line) = is_scene_heading line.
Proof. unfold is_scene_heading; rewrite strip_idem; reflexivity. Qed.

Lemma is_transition_strip line :
  is_transition (Str.strip line) = is_transition line.
Proof. unfold is_transition; rewrite strip_idem; reflexivity. Qed.

Lemma is_emotion_strip line :
  is_emotion (Str.strip line) = is_emotion line.
Proof. unfold is_emotion; rewrite strip_idem; reflexivity. Qed.

Lemma is_character_name_strip line :
  is_character_name (Str.strip line) = is_character_name line.
Proof. unfold is_character_name; rewrite !strip_idem; reflexivity. Qed.

Lemma is_action_strip line : is_action (Str.strip line) = is_action line.
Proof. unfold is_action; rewrite !strip_idem; reflexivity. Qed.

Lemma is_dialogue_strip line : is_dialogue (Str.strip line) = is_dialogue line.
Proof. unfold is_dialogue; rewrite !strip_idem; reflexivity. Qed.

(** [is_character_name] written on the line itself. *)
Lemma is_character_name_unfold line :
  is_character_name line =
    Str.isupper (Str.strip line)
    && (length (Str.strip line) <=? 40)
    && ((1 <=? length (Str.split (Str.strip line)))
        && (length (Str.split (Str.strip line)) <=? 4))
    && negb (is_scene_heading line)
    && negb (is_transition line)
    && negb (is_emotion line).
Proof.
  unfold is_character_name.
  rewrite is_scene_heading_strip, is_transition_strip, is_emotion_strip.
  reflexivity.
Qed.

Lemma emotion_not_heading line :
  is_emotion line = true -> is_scene_heading line = false.
Proof.
  unfold is_emotion, is_scene_heading. intros H.
  apply andb_true_iff in H as [H _].
  destruct (Str.strip line) as [|c r]; [discriminate|].
  simpl in H. destruct (Ascii.eqb_spec "(" c) as [<-|]; [|discriminate].
  reflexivity.
Qed.

Lemma emotion_not_transition line :
  is_emotion line = true -> is_transition line = false.
Proof.
  unfold is_emotion, is_transition, Str.endswith_any, Str.endswith.
  intros H. apply andb_true_iff in H as [_ H].
  unfold Str.endswith in H.
  cbn [existsb]. rewrite rev_upper.
  destruct (rev (Str.strip line)) as [|c r]; [discriminate|].
  simpl in H. destruct (Ascii.eqb_spec ")" c) as [<-|]; [|discriminate].
  reflexivity.
Qed.

(** C1 as stated fails: a line can be a scene heading and a transition. *)
Lemma C1_heading_and_transition :
  is_scene_heading "INT. ROOM - CUT TO:" = true
  /\ is_transition "INT. ROOM - CUT TO:" = true.
Proof. split; reflexivity. Qed.

(** C1 (amended): for every line, [is_character_name] excludes each of
    [is_scene_heading], [is_transition] and [is_emotion], and [is_emotion]
    excludes [is_scene_heading] and [is_transition]; the pair
    ([is_scene_heading], [is_transition]) is the only one that can hold
    together. *)
Theorem C1_exclusive_but_heading_transition (line : str) :
  (is_character_name line = true ->
     is_scene_heading line = false /\ is_transition line = false
     /\ is_emotion line = false)
  /\ (is_emotion line = true ->
        is_scene_heading line = false /\ is_transition line = false
        /\ is_character_name line = false)
  /\ (is_scene_heading line = true ->
        is_emotion line = false /\ is_character_name line = false)
  /\ (is_transition line = true ->
        is_emotion line = false /\ is_character_name line = false).
Proof.
  pose proof (emotion_not_heading line) as EH.
  pose proof (emotion_not_transition line) as ET.
  rewrite (is_character_name_unfold line).
  destruct (is_scene_heading line), (is_transition line), (is_emotion line);
    rewrite ?andb_false_r, ?andb_true_r; simpl;
    repeat split; intros; try reflexivity; try discriminate;
    try (specialize (EH eq_refl); discriminate);
    try (specialize (ET eq_refl); discriminate); auto.
Qed.

Lemma C1_exclusive_but_heading_transition_witness :
  is_scene_heading "SARAH" = false /\ is_transition "SARAH" = false
  /\ is_emotion "SARAH" = false.
Proof.
  apply (proj1 (C1_exclusive_but_heading_transition "SARAH")). reflexivity.
Defined.

(** A line that ends in a full stop still does once trimmed. *)
Lemma endswith_dot_strip line :
  Str.endswith line "." = true -> Str.endswith (Str.strip line) "." = true.
Proof.
  unfold Str.endswith, Str.strip, Str.rstrip. rewrite rev_involutive.
  destruct (lstrip_split line) as (ws & Hs & Hw).
  intros H. rewrite Hs in H at 1. rewrite rev_app_distr in H.
  destruct (rev (Str.lstrip line)) as [|c r] eqn:E.
  - (* the line would be white space only *)
    simpl in H.
    destruct (rev ws) as [|d t] eqn:Ed; [discriminate|].
    simpl in H. destruct (Ascii.eqb_spec "." d) as [<-|]; [|discriminate].
    assert (Hin : In "."%char ws) by (apply in_rev; rewrite Ed; left; reflexivity).
    rewrite forallb_forall in Hw. specialize (Hw _ Hin). discriminate.
  - simpl in H. destruct (Ascii.eqb_spec "." c) as [<-|]; [|discriminate].
    rewrite lstrip_fixed by reflexivity. reflexivity.
Qed.

(** C5: a non-empty line that ends in a full stop (once trimmed), has more
    than three words and satisfies none of [is_scene_heading],
    [is_transition], [is_emotion], [is_character_name] satisfies both
    [is_action] and [is_dialogue]. *)
Theorem C5_action_and_dialogue_overlap (line : str) :
  line <> [] ->
  Str.endswith (Str.strip line) "." = true ->
  3 < length (Str.split line) ->
  is_scene_heading line = false ->
  is_transition line = false ->
  is_emotion line = false ->
  is_character_name line = false ->
  is_action line = true /\ is_dialogue line = true.
Proof.
  intros _ Hdot _ Hh Ht He Hc.
  unfold is_action, is_dialogue.
  rewrite is_scene_heading_strip, is_transition_strip, is_emotion_strip,
    is_character_name_strip, Hh, Ht, He, Hc.
  unfold Str.endswith_any, Str.endswith in *. cbn [existsb].
  destruct (rev (Str.strip line)) as [|c r] eqn:E; [discriminate|].
  simpl in Hdot. destruct (Ascii.eqb_spec "." c) as [<-|]; [|discriminate].
  assert (Hne : truthy (Str.strip line) = true).
  { destruct (Str.strip line); [discriminate E | reflexivity]. }
  rewrite Hne. split; reflexivity.
Qed.

Lemma C5_action_and_dialogue_overlap_witness :
  is_action "He picks up the glass and stares at it." = true
  /\ is_dialogue "He picks up the glass and stares at it." = true.
Proof.
  apply (C5_action_and_dialogue_overlap "He picks up the glass and stares at it.");
    solve [ discriminate | reflexivity | vm_compute; lia ].
Defined.

(** ** Upper case *)

Lemma isupper_upper_id s : Str.isupper s = true -> Str.upper s = s.
Proof.
  unfold Str.isupper, Str.upper. intros H.
  apply andb_true_iff in H as [H _]. apply negb_true_iff in H.
  induction s as [|c r IH]; [reflexivity|].
  simpl in H. apply orb_false_iff in H as [Hc Hr].
  simpl. rewrite (upper_fixed c Hc), (IH Hr). reflexivity.
Qed.

Lemma in_lstrip c s : In c (Str.lstrip s) -> In c s.
Proof.
  destruct (lstrip_split s) as (ws & Hs & _). intros H.
  rewrite Hs. apply in_or_app; right; exact H.
Qed.

Lemma in_strip c s : In c (Str.strip s) -> In c s.
Proof.
  unfold Str.strip, Str.rstrip. intros H.
  apply in_rev, in_lstrip in H. apply in_rev in H. apply in_lstrip, H.
Qed.

Lemma uncased_not_isupper s :
  (forall c, In c s -> Char.iscased c = false) -> Str.isupper s = false.
Proof.
  intros H. unfold Str.isupper.
  replace (existsb Char.isupper s) with false; [apply andb_false_r|].
  symmetry. apply not_true_is_false. intros E.
  apply existsb_exists in E as (c & Hin & Hc).
  specialize (H c Hin). unfold Char.iscased in H.
  apply orb_false_iff in H as [_ H]. congruence.
Qed.

Lemma cue_isupper line :
  is_character_name line = true -> Str.isupper (Str.strip line) = true.
Proof.
  rewrite is_character_name_unfold. intros H.
  destruct (Str.isupper (Str.strip line)); [reflexivity | discriminate H].
Qed.

(** ** The current speaker is always a character cue *)

Lemma named_None : named None.
Proof. intros n H; discriminate H. Qed.

Lemma named_cue line : is_character_name line = true -> named (Some (Str.strip line)).
Proof. intros H n E; injection E as <-; apply cue_isupper, H. Qed.

Lemma named_cue_upper line :
  is_character_name line = true -> named (Some (Str.upper (Str.strip line))).
Proof.
  intros H n E; injection E as <-.
  rewrite (isupper_upper_id _ (cue_isupper _ H)). apply cue_isupper, H.
Qed.

Create HintDb speaker.
#[local] Hint Resolve named_None named_cue named_cue_upper : speaker.

Lemma tracking_step_named st raw :
  named (CharacterTracking.current_character st) ->
  named (CharacterTracking.current_character (CharacterTracking.step st raw)).
Proof.
  intros H. unfold CharacterTracking.step.
  rewrite is_character_name_strip, is_dialogue_strip.
  destruct (is_character_name raw) eqn:Ec; simpl; auto with speaker.
  destruct (is_dialogue raw); simpl; auto.
  destruct (str_eqb (Str.strip raw) []); simpl; auto with speaker.
Qed.

Lemma tracking_named lines st :
  named (CharacterTracking.current_character st) ->
  named (CharacterTracking.current_character
           (fold_left CharacterTracking.step lines st)).
Proof.
  revert st; induction lines as [|l ls IH]; intros st H; simpl; auto.
  apply IH, tracking_step_named, H.
Qed.

Lemma speaking_step_named st line :
  named (SpeakingTime.current_character st) ->
  named (SpeakingTime.current_character (SpeakingTime.step st line)).
Proof.
  intros H. unfold SpeakingTime.step.
  destruct (is_character_name line) eqn:Ec; simpl; auto with speaker.
  destruct (is_dialogue line); simpl; auto.
Qed.

Lemma speaking_named lines st :
  named (SpeakingTime.current_character st) ->
  named (SpeakingTime.current_character
           (fold_left SpeakingTime.step lines st)).
Proof.
  revert st; induction lines as [|l ls IH]; intros st H; simpl; auto.
  apply IH, speaking_step_named, H.
Qed.

Lemma development_step_named i raw st :
  named (CharacterDevelopment.current_character st) ->
  named (CharacterDevelopment.current_character
           (CharacterDevelopment.step i raw st)).
Proof.
  intros H. unfold CharacterDevelopment.step.
  rewrite is_scene_heading_strip, is_character_name_strip, is_dialogue_strip,
    is_action_strip, strip_idem.
  destruct (is_scene_heading raw); simpl; auto.
  destruct (is_character_name raw) eqn:Ec; simpl; auto with speaker.
  destruct (is_dialogue raw && _); simpl.
  { destruct (CharacterDevelopment.current_character st) eqn:E; simpl; auto.
    rewrite E; auto. }
  destruct (is_action raw); simpl; auto.
  destruct (truthy (Str.strip raw)); simpl; auto with speaker.
Qed.

Lemma development_named lines i st :
  named (CharacterDevelopment.current_character st) ->
  named (CharacterDevelopment.current_character
           (CharacterDevelopment.loop i lines st)).
Proof.
  revert i st; induction lines as [|l ls IH]; intros i st H; simpl; auto.
  apply IH, development_step_named, H.
Qed.

Lemma pacing_step_named st line :
  named (Pacing.current_character st) ->
  named (Pacing.current_character (Pacing.step st line)).
Proof.
  intros H. unfold Pacing.step.
  destruct (is_character_name line) eqn:Ec; simpl; auto with speaker.
  destruct (is_dialogue line); simpl; auto.
  destruct (is_action line); simpl; auto.
Qed.

Lemma pacing_named lines st :
  named (Pacing.current_character st) ->
  named (Pacing.current_character (fold_left Pacing.step lines st)).
Proof.
  revert st; induction lines as [|l ls IH]; intros st H; simpl; auto.
  apply IH, pacing_step_named, H.
Qed.

(** C9: a line without any cased character is not a character cue, and
    no scan ever has it as its current speaker: not [character_tracking],
    [character_speaking_stats] or [character_development_validator] after
    any sequence of lines, nor [scene_pacing_and_distribution] after the
    content of any scene. *)
Theorem C9_uncased_line_never_speaker (line : str) :
  (forall c, In c line -> Char.iscased c = false) ->
  is_character_name line = false
  /\ (forall lines,
        CharacterTracking.current_character
          (CharacterTracking.scan_lines lines) <> Some line)
  /\ (forall lines,
        SpeakingTime.current_character
          (SpeakingTime.scan_lines lines) <> Some line)
  /\ (forall lines,
        CharacterDevelopment.current_character
          (CharacterDevelopment.scan_lines lines) <> Some line)
  /\ (forall st sc,
        Pacing.current_character (Pacing.scan_content st sc) <> Some line).
Proof.
  intros Hun.
  assert (Hup : Str.isupper line = false) by (apply uncased_not_isupper, Hun).
  assert (Hno : forall o, named o -> o <> Some line).
  { intros o Hn E. specialize (Hn line E). congruence. }
  split; [|repeat split; intros; apply Hno].
  - rewrite is_character_name_unfold.
    rewrite (uncased_not_isupper (Str.strip line)); [reflexivity|].
    intros c Hc. apply Hun, in_strip, Hc.
  - apply tracking_named, named_None.
  - apply speaking_named, named_None.
  - apply development_named, named_None.
  - apply pacing_named, named_None.
Qed.

Lemma C9_uncased_line_never_speaker_witness :
  is_character_name "42!" = false
  /\ (forall lines,
        CharacterTracking.current_character
          (CharacterTracking.scan_lines lines) <> Some ("42!" : str))
  /\ (forall lines,
        SpeakingTime.current_character
          (SpeakingTime.scan_lines lines) <> Some ("42!" : str))
  /\ (forall lines,
        CharacterDevelopment.current_character
          (CharacterDevelopment.scan_lines lines) <> Some ("42!" : str))
  /\ (forall st sc,
        Pacing.current_character (Pacing.scan_content st sc)
        <> Some ("42!" : str)).
Proof.
  apply (C9_uncased_line_never_speaker "42!").
  intros c [<-|[<-|[<-|[]]]]; reflexivity.
Defined.

(** ** The speaker state machine of each scan *)

Lemma blank_not_cue line : Str.strip line = [] -> is_character_name line = false.
Proof. intros H. rewrite is_character_name_unfold, H. reflexivity. Qed.

Lemma blank_not_dialogue line : Str.strip line = [] -> is_dialogue line = false.
Proof. intros H. unfold is_dialogue. rewrite H. reflexivity. Qed.

Lemma blank_not_action line : Str.strip line = [] -> is_action line = false.
Proof. intros H. unfold is_action. rewrite H. reflexivity. Qed.

Lemma blank_not_heading line : Str.strip line = [] -> is_scene_heading line = false.
Proof. intros H. unfold is_scene_heading. rewrite H. reflexivity. Qed.

Lemma cue_not_heading line :
  is_character_name line = true -> is_scene_heading line = false.
Proof.
  rewrite is_character_name_unfold. intros H.
  destruct (is_scene_heading line); [|reflexivity].
  rewrite !andb_false_r in H. discriminate H.
Qed.

Lemma dialogue_not_cue line :
  is_dialogue line = true -> is_character_name line = false.
Proof.
  unfold is_dialogue. rewrite is_character_name_strip. intros H.
  destruct (is_character_name line); [|reflexivity].
  rewrite !andb_false_r in H. discriminate H.
Qed.

Lemma dialogue_not_heading line :
  is_dialogue line = true -> is_scene_heading line = false.
Proof.
  unfold is_dialogue. rewrite is_scene_heading_strip. intros H.
  destruct (is_scene_heading line); [|reflexivity].
  rewrite !andb_false_r in H. discriminate H.
Qed.

Lemma cue_name_upper line :
  is_character_name line = true ->
  Str.upper (Str.strip line) = Str.strip line.
Proof. intros H. apply isupper_upper_id, cue_isupper, H. Qed.

Lemma tracking_policy :
  speaker_policy CharacterTracking.current_character CharacterTracking.step true.
Proof.
  intros st line. unfold CharacterTracking.step.
  rewrite is_character_name_strip, is_dialogue_strip.
  repeat split.
  - intros H. rewrite H, (cue_name_upper _ H). reflexivity.
  - intros H. rewrite (blank_not_cue _ H), (blank_not_dialogue _ H), H.
    reflexivity.
  - intros Hc Hb. rewrite Hc.
    destruct (is_dialogue line); [reflexivity|].
    apply str_eqb_neq in Hb. rewrite Hb. reflexivity.
Qed.

Lemma development_policy i :
  speaker_policy CharacterDevelopment.current_character
    (fun st line => CharacterDevelopment.step i line st) true.
Proof.
  intros st line. unfold CharacterDevelopment.step.
  rewrite is_scene_heading_strip, is_character_name_strip, is_dialogue_strip,
    is_action_strip, strip_idem.
  repeat split.
  - intros H. rewrite (cue_not_heading _ H), H, (cue_name_upper _ H).
    reflexivity.
  - intros H.
    rewrite (blank_not_heading _ H), (blank_not_cue _ H),
      (blank_not_dialogue _ H), (blank_not_action _ H), H.
    reflexivity.
  - intros Hc Hb. rewrite Hc.
    destruct (is_scene_heading line); [reflexivity|].
    destruct (is_dialogue line && _).
    { destruct (CharacterDevelopment.current_character st) eqn:E;
        simpl; rewrite ?E; reflexivity. }
    destruct (is_action line); [reflexivity|].
    destruct (Str.strip line); [contradiction|reflexivity].
Qed.

Lemma speaking_policy :
  speaker_policy SpeakingTime.current_character SpeakingTime.step false.
Proof.
  intros st line. unfold SpeakingTime.step. repeat split.
  - intros H. rewrite H. reflexivity.
  - intros H. rewrite (blank_not_cue _ H), (blank_not_dialogue _ H).
    reflexivity.
  - intros Hc _. rewrite Hc. destruct (is_dialogue line); reflexivity.
Qed.

Lemma pacing_policy :
  speaker_policy Pacing.current_character Pacing.step false.
Proof.
  intros st line. unfold Pacing.step. repeat split.
  - intros H. rewrite H. reflexivity.
  - intros H.
    rewrite (blank_not_cue _ H), (blank_not_dialogue _ H),
      (blank_not_action _ H).
    reflexivity.
  - intros Hc _. rewrite Hc.
    destruct (is_dialogue line); [reflexivity|].
    destruct (is_action line); reflexivity.
Qed.

(** Whatever the policy on blank lines, the speaker stays [None] as long
    as no cue is scanned. *)
Lemma no_cue_no_speaker {S : Type} (cur : S -> option str)
  (step : S -> str -> S) (b : bool) :
  speaker_policy cur step b ->
  forall lines st, no_cue lines -> cur st = None ->
    cur (fold_left step lines st) = None.
Proof.
  intros P lines. induction lines as [|l ls IH]; intros st Hn H0; simpl; auto.
  inversion Hn as [|? ? Hl Hls]; subst.
  apply IH; [exact Hls|].
  destruct (P st l) as (_ & Hb & Ho).
  destruct (Str.strip l) eqn:E.
  - rewrite Hb by reflexivity. destruct b; auto.
  - rewrite Ho; auto. discriminate.
Qed.

Lemma development_loop_fold lines : forall i st,
  no_cue lines -> CharacterDevelopment.current_character st = None ->
  CharacterDevelopment.current_character
    (CharacterDevelopment.loop i lines st) = None.
Proof.
  induction lines as [|l ls IH]; intros i st Hn H0; simpl; auto.
  inversion Hn as [|? ? Hl Hls]; subst.
  apply IH; [exact Hls|].
  destruct (development_policy i st l) as (_ & Hb & Ho).
  destruct (Str.strip l) eqn:E.
  - apply Hb; reflexivity.
  - rewrite Ho; auto. discriminate.
Qed.

(** C2 as stated fails: [character_speaking_stats] keeps the speaker over
    a blank line, and the dialogue line after it goes to that speaker, not
    to UNKNOWN. *)
Lemma C2_speaking_stats_keeps_speaker_over_blank :
  SpeakingTime.current_character
    (SpeakingTime.scan ("SARAH" ++ NL ++ NL ++ "Hello there."))
  = Some ("SARAH" : str)
  /\ SpeakingTime.current_character
       (SpeakingTime.step
          (SpeakingTime.mk_state (Some ("SARAH" : str)) [] [] 0) [])
     = Some ("SARAH" : str)
  /\ SpeakingTime.character_line_count
       (SpeakingTime.scan ("SARAH" ++ NL ++ NL ++ "Hello there."))
     = [("SARAH" : str, 1)].
Proof. repeat split; reflexivity. Qed.

(** C2 (amended): every scan starts with no speaker, has none as long as
    no character cue was scanned, and sets the speaker to the upper-cased
    trimmed text of a character cue line.  [character_tracking] and
    [character_development_validator] reset it on a blank line and keep
    it on every other line, scene headings included;
    [character_speaking_stats] and the per-scene scan of
    [scene_pacing_and_distribution] keep it on every line that is not a
    cue, blank lines included, and the latter starts every scene without
    a speaker.  A dialogue line scanned without a speaker is counted
    under UNKNOWN by [character_tracking], [character_speaking_stats] and
    [scene_pacing_and_distribution], and is counted for nobody by
    [character_development_validator]. *)
Theorem C2_speaker_state_by_scan :
  (* character_tracking *)
  (speaker_policy CharacterTracking.current_character
     CharacterTracking.step true
   /\ (forall lines, no_cue lines ->
         CharacterTracking.current_character
           (CharacterTracking.scan_lines lines) = None)
   /\ (forall st raw,
         is_dialogue raw = true ->
         CharacterTracking.current_character st = None ->
         CharacterTracking.character_lines (CharacterTracking.step st raw)
         = counter_add UNKNOWN 1 (CharacterTracking.character_lines st)))
  (* character_development_validator *)
  /\ ((forall i,
         speaker_policy CharacterDevelopment.current_character
           (fun st line => CharacterDevelopment.step i line st) true)
      /\ (forall lines, no_cue lines ->
            CharacterDevelopment.current_character
              (CharacterDevelopment.scan_lines lines) = None)
      /\ (forall i st raw,
            is_dialogue raw = true ->
            CharacterDevelopment.current_character st = None ->
            CharacterDevelopment.character_speakers
              (CharacterDevelopment.step i raw st)
            = CharacterDevelopment.character_speakers st))
  (* character_speaking_stats *)
  /\ (speaker_policy SpeakingTime.current_character SpeakingTime.step false
      /\ (forall lines, no_cue lines ->
            SpeakingTime.current_character
              (SpeakingTime.scan_lines lines) = None)
      /\ (forall st line,
            is_dialogue line = true ->
            SpeakingTime.current_character st = None ->
            SpeakingTime.character_line_count (SpeakingTime.step st line)
            = counter_add UNKNOWN 1 (SpeakingTime.character_line_count st)
            /\ SpeakingTime.character_word_count (SpeakingTime.step st line)
               = counter_add UNKNOWN (length (Str.split line))
                   (SpeakingTime.character_word_count st)))
  (* scene_pacing_and_distribution *)
  /\ (speaker_policy Pacing.current_character Pacing.step false
      /\ (forall st sc, no_cue (content sc) ->
            Pacing.current_character (Pacing.scan_content st sc) = None)
      /\ (forall st line,
            is_dialogue line = true ->
            Pacing.current_character st = None ->
            Pacing.character_lines (Pacing.step st line)
            = counter_add UNKNOWN 1 (Pacing.character_lines st))).
Proof.
  repeat split.
  - apply tracking_policy.
  - apply tracking_policy.
  - apply tracking_policy.
  - intros lines Hn.
    apply (no_cue_no_speaker _ _ _ tracking_policy); auto.
  - intros st raw Hd Hc. unfold CharacterTracking.step.
    rewrite is_character_name_strip, is_dialogue_strip,
      (dialogue_not_cue _ Hd), Hd, Hc.
    reflexivity.
  - apply development_policy.
  - apply development_policy.
  - apply development_policy.
  - intros lines Hn. apply development_loop_fold; auto.
  - intros i st raw Hd Hc. unfold CharacterDevelopment.step.
    rewrite is_scene_heading_strip, is_character_name_strip,
      is_dialogue_strip, is_action_strip,
      (dialogue_not_heading _ Hd), (dialogue_not_cue _ Hd), Hd, Hc.
    simpl. destruct (is_action raw); [reflexivity|].
    destruct (truthy (Str.strip raw)); reflexivity.
  - apply speaking_policy.
  - apply speaking_policy.
  - apply speaking_policy.
  - intros lines Hn.
    apply (no_cue_no_speaker _ _ _ speaking_policy); auto.
  - unfold SpeakingTime.step.
    rewrite (dialogue_not_cue _ H), H, H0. reflexivity.
  - unfold SpeakingTime.step.
    rewrite (dialogue_not_cue _ H), H, H0. reflexivity.
  - apply pacing_policy.
  - apply pacing_policy.
  - apply pacing_policy.
  - intros st sc Hn.
    apply (no_cue_no_speaker _ _ _ pacing_policy); auto.
  - intros st line Hd Hc. unfold Pacing.step.
    rewrite (dialogue_not_cue _ Hd), Hd, Hc. reflexivity.
Qed.

Lemma C2_speaker_state_by_scan_witness :
  CharacterTracking.current_character
    (CharacterTracking.step
       (CharacterTracking.mk_state (Some ("MARK" : str)) []) "  Sarah  ")
  = Some ("MARK" : str)
  /\ CharacterTracking.current_character
       (CharacterTracking.step CharacterTracking.init "SARAH")
     = Some ("SARAH" : str)
  /\ SpeakingTime.current_character
       (SpeakingTime.step
          (SpeakingTime.mk_state (Some ("SARAH" : str)) [] [] 0) " ")
     = Some ("SARAH" : str)
  /\ CharacterTracking.character_lines
       (CharacterTracking.step CharacterTracking.init "Hello there.")
     = [(UNKNOWN, 1)].
Proof.
  destruct C2_speaker_state_by_scan as ((P1 & _ & U1) & _ & (P3 & _) & _).
  split; [|split; [|split]].
  - destruct (P1 (CharacterTracking.mk_state (Some ("MARK" : str)) [])
                ("  Sarah  " : str)) as (_ & _ & H).
    apply H; [reflexivity | discriminate].
  - destruct (P1 CharacterTracking.init ("SARAH" : str)) as (H & _).
    apply H. reflexivity.
  - destruct (P3 (SpeakingTime.mk_state (Some ("SARAH" : str)) [] [] 0)
                (" " : str)) as (_ & H & _).
    apply H. reflexivity.
  - apply (U1 CharacterTracking.init "Hello there."); reflexivity.
Defined.

(** ** Scene segmentation *)

Lemma heading_truthy line :
  is_scene_heading line = true -> truthy (Str.strip line) = true.
Proof.
  unfold is_scene_heading. destruct (Str.strip line); [discriminate|reflexivity].
Qed.

(** The scenes the pass would return if the input ended here. *)
Lemma seg_close_scenes st :
  scenes (seg_close st) =
    scenes st ++ (if truthy_opt (heading (current_scene st))
                  then [current_scene st] else []).
Proof.
  unfold seg_close; simpl.
  destruct (truthy_opt _); [reflexivity | symmetry; apply app_nil_r].
Qed.

(** The loop, from any state, in terms of [split_at_headings]: the lines
    before the next heading go to the open scene, every group becomes one
    more scene. *)
Lemma seg_fold lines : forall st,
  scenes (seg_close (fold_left seg_step lines st)) =
    scenes (seg_close
              (mk_seg (scenes st)
                 (mk_scene (heading (current_scene st))
                    (content (current_scene st)
                     ++ fst (split_at_headings lines))
                    (index (current_scene st)))
                 (scene_counter st)))
    ++ number_scenes (scene_counter st) (snd (split_at_headings lines)).
Proof.
  induction lines as [|l r IH]; intros [scs [h c ix] n].
  - simpl. rewrite !app_nil_r. reflexivity.
  - cbn [fold_left]. rewrite IH. clear IH.
    cbn [split_at_headings].
    destruct (split_at_headings r) as [pre gs].
    unfold seg_step. cbn [current_scene heading content index scenes scene_counter].
    destruct (is_scene_heading l) eqn:E.
    + rewrite !seg_close_scenes.
      cbn [current_scene heading content index scenes scene_counter fst snd
           number_scenes truthy_opt].
      rewrite (heading_truthy _ E), app_nil_r.
      destruct (truthy_opt h); rewrite <- ?app_assoc; reflexivity.
    + cbn [current_scene heading content index scenes scene_counter fst snd].
      rewrite <- app_assoc. reflexivity.
Qed.

Lemma segment_scenes_spec lines :
  segment_scenes lines = number_scenes 0 (snd (split_at_headings lines)).
Proof.
  unfold segment_scenes, segment. rewrite seg_fold. reflexivity.
Qed.

Lemma split_at_headings_spec lines :
  let (pre, gs) := split_at_headings lines in
  lines = pre ++ concat (map (fun g => fst g :: snd g) gs)
  /\ map fst gs = filter is_scene_heading lines
  /\ no_heading pre
  /\ Forall (fun g => no_heading (snd g)) gs.
Proof.
  induction lines as [|l r IH]; simpl.
  - repeat split; constructor.
  - destruct (split_at_headings r) as [pre gs].
    destruct IH as (Hl & Hh & Hp & Hg).
    destruct (is_scene_heading l) eqn:E; simpl.
    + repeat split.
      * f_equal; exact Hl.
      * f_equal; exact Hh.
      * constructor.
      * constructor; [exact Hp | exact Hg].
    + repeat split.
      * f_equal; exact Hl.
      * exact Hh.
      * constructor; [exact E | exact Hp].
      * exact Hg.
Qed.

Lemma number_scenes_length n gs : length (number_scenes n gs) = length gs.
Proof.
  revert n; induction gs as [|[h c] r IH]; intros n; simpl; auto.
Qed.

Lemma number_scenes_index n gs :
  map index (number_scenes n gs) = map Some (seq (n + 1) (length gs)).
Proof.
  revert n; induction gs as [|[h c] r IH]; intros n; simpl; auto.
  rewrite IH. replace (n + 1 + 1) with (S (n + 1)) by lia. reflexivity.
Qed.

Lemma number_scenes_heading n gs :
  map heading (number_scenes n gs)
  = map (fun h => Some (Str.strip h)) (map fst gs).
Proof.
  revert n; induction gs as [|[h c] r IH]; intros n; simpl; auto.
  rewrite IH. reflexivity.
Qed.

Lemma number_scenes_content n gs :
  map content (number_scenes n gs) = map snd gs.
Proof.
  revert n; induction gs as [|[h c] r IH]; intros n; simpl; auto.
  rewrite IH. reflexivity.
Qed.

Lemma number_scenes_lines n gs :
  scene_lines (map fst gs) (number_scenes n gs)
  = concat (map (fun g => fst g :: snd g) gs).
Proof.
  unfold scene_lines.
  revert n; induction gs as [|[h c] r IH]; intros n; simpl; auto.
  rewrite IH. reflexivity.
Qed.

(** C4: the segmentation pass on a line sequence with [k] scene heading
    lines returns [k] scenes, numbered 1..k in order; scene [i] has the
    trimmed text of the [i]-th heading line as heading, and the input is
    exactly: some lines without a heading (they are in no scene), then,
    for every scene in order, its heading line followed by its content,
    which holds no heading.  Without a heading line there is no scene. *)
Theorem C4_segmentation (lines : list str) :
  length (segment_scenes lines) = length (filter is_scene_heading lines)
  /\ map index (segment_scenes lines)
     = map Some (seq 1 (length (filter is_scene_heading lines)))
  /\ map heading (segment_scenes lines)
     = map (fun h => Some (Str.strip h)) (filter is_scene_heading lines)
  /\ (exists pre,
        no_heading pre
        /\ lines = pre ++ scene_lines (filter is_scene_heading lines)
                            (segment_scenes lines))
  /\ Forall (fun sc => no_heading (content sc)) (segment_scenes lines)
  /\ (filter is_scene_heading lines = [] -> segment_scenes lines = []).
Proof.
  rewrite segment_scenes_spec.
  pose proof (split_at_headings_spec lines) as H.
  destruct (split_at_headings lines) as [pre gs]. cbn [snd].
  destruct H as (Hl & Hh & Hp & Hg). rewrite <- Hh.
  repeat split.
  - rewrite number_scenes_length, length_map. reflexivity.
  - rewrite number_scenes_index, length_map. reflexivity.
  - apply number_scenes_heading.
  - exists pre. split; [exact Hp|]. rewrite number_scenes_lines. exact Hl.
  - apply Forall_forall. intros sc Hin.
    apply (in_map content) in Hin. rewrite number_scenes_content in Hin.
    apply in_map_iff in Hin as (g & <- & Hg').
    rewrite Forall_forall in Hg. apply Hg, Hg'.
  - intros E. destruct gs; [reflexivity | discriminate E].
Qed.

Lemma C4_segmentation_witness :
  segment_scenes [ "Opening line." : str; "SARAH" : str ] = [].
Proof.
  apply (C4_segmentation [ "Opening line." : str; "SARAH" : str ]).
  reflexivity.
Defined.

(** ** scene_structure_validator: no exception, and what is flagged *)

Lemma getitem_nth {A : Type} (xs : list A) (j : nat) (d : A) :
  j < length xs -> getitem xs j = Ok (nth j xs d).
Proof.
  intros H. unfold getitem.
  destruct (nth_error xs j) eqn:E.
  - rewrite (nth_error_nth _ _ d E). reflexivity.
  - apply nth_error_None in E. lia.
Qed.

Lemma transition_unfollowed_ok lines i :
  transition_unfollowed lines i = Ok (negb (heading_follows lines i)).
Proof.
  unfold transition_unfollowed, heading_follows.
  destruct (Nat.leb_spec (length lines) (i + 1)) as [H|H].
  - apply Nat.ltb_ge in H. rewrite H. reflexivity.
  - rewrite (getitem_nth (A:=str) _ _ [] H). apply Nat.ltb_lt in H. rewrite H.
    reflexivity.
Qed.

Lemma cue_before_ok lines i :
  i < length lines ->
  cue_before lines i
  = Ok ((1 <=? i) && is_character_name (nth (i - 1) lines [])).
Proof.
  intros H. unfold cue_before.
  destruct (Nat.leb_spec 1 i); [|reflexivity].
  rewrite (getitem_nth (A:=str) _ _ []) by lia. reflexivity.
Qed.

Lemma cue_before_emotion_ok lines i :
  i < length lines ->
  cue_before_emotion lines i
  = Ok ((2 <=? i) && is_emotion (nth (i - 1) lines [])
        && is_character_name (nth (i - 2) lines [])).
Proof.
  intros H. unfold cue_before_emotion.
  destruct (Nat.leb_spec 2 i); [|reflexivity].
  rewrite (getitem_nth (A:=str) _ _ []) by lia. simpl.
  destruct (is_emotion _); [|reflexivity].
  rewrite (getitem_nth (A:=str) _ _ []) by lia. reflexivity.
Qed.

Lemma ssv_step_ok lines i raw st :
  i < length lines ->
  ssv_step lines i raw st = Ok (ssv_step_pure lines i raw st).
Proof.
  intros H. unfold ssv_step, ssv_step_pure.
  destruct (negb (truthy (Str.strip raw))); [reflexivity|].
  destruct (is_scene_heading (Str.strip raw)); [reflexivity|].
  destruct (is_transition (Str.strip raw)).
  { rewrite transition_unfollowed_ok. simpl.
    destruct st; destruct (heading_follows lines i); simpl;
      rewrite ?app_nil_r; reflexivity. }
  destruct (is_action (Str.strip raw)); [reflexivity|].
  destruct (is_dialogue (Str.strip raw)); [|reflexivity].
  rewrite (cue_before_ok _ _ H), (cue_before_emotion_ok _ _ H).
  cbn [bind].
  destruct ((1 <=? i) && is_character_name (nth (i - 1) lines [])).
  { rewrite (getitem_nth (A:=str) _ _ []) by lia. reflexivity. }
  cbn [bind].
  destruct ((2 <=? i) && is_emotion (nth (i - 1) lines [])
            && is_character_name (nth (i - 2) lines [])); [|reflexivity].
  rewrite (getitem_nth (A:=str) _ _ []) by lia. reflexivity.
Qed.

Lemma counter_get_add k k' n d :
  counter_get k (counter_add k' n d)
  = counter_get k d + (if str_eqb k' k then n else 0).
Proof.
  induction d as [|[k0 v] r IH]; simpl.
  - destruct (str_eqb k' k); reflexivity.
  - destruct (str_eqb k0 k') eqn:E0; simpl.
    + apply str_eqb_eq in E0. subst k0.
      destruct (str_eqb k' k); lia.
    + destruct (str_eqb k0 k) eqn:E1.
      * destruct (str_eqb k' k) eqn:E2; [|lia].
        apply str_eqb_eq in E1, E2. subst.
        rewrite str_eqb_refl in E0. discriminate E0.
      * exact IH.
Qed.

Lemma counter_get_add_le k k' n d :
  counter_get k d <= counter_get k (counter_add k' n d).
Proof. rewrite counter_get_add. lia. Qed.

Lemma counter_get_mem k d : 1 <= counter_get k d -> counter_mem k d = true.
Proof.
  unfold counter_mem. induction d as [|[k0 v] r IH]; simpl; [lia|].
  destruct (str_eqb k0 k); simpl; auto.
Qed.

Lemma ssv_grows_refl st : ssv_grows st st.
Proof. repeat split; auto using incl_refl. Qed.

Lemma ssv_grows_trans a b c : ssv_grows a b -> ssv_grows b c -> ssv_grows a c.
Proof.
  intros (H1 & H2 & H3) (K1 & K2 & K3).
  repeat split; eauto using incl_tran. lia.
Qed.

Lemma ssv_step_pure_grows lines i raw st :
  ssv_grows st (ssv_step_pure lines i raw st).
Proof.
  unfold ssv_step_pure, ssv_grows.
  repeat match goal with
         | |- context [if ?b then _ else _] => destruct b
         end; simpl;
    repeat split;
    auto using incl_refl, incl_appl, counter_get_add_le.
Qed.

Lemma ssv_loop_grows lines rest : forall i st,
  i + length rest <= length lines ->
  exists st', ssv_loop lines i rest st = Ok st' /\ ssv_grows st st'.
Proof.
  induction rest as [|raw rest IH]; intros i st H; simpl in *.
  - exists st. split; [reflexivity | apply ssv_grows_refl].
  - rewrite ssv_step_ok by lia. cbn [bind].
    destruct (IH (S i) (ssv_step_pure lines i raw st)) as (st' & E & G);
      [lia|].
    exists st'. split; [exact E|].
    eapply ssv_grows_trans; [apply ssv_step_pure_grows | exact G].
Qed.

Lemma ssv_loop_app lines a b : forall i st,
  ssv_loop lines i (a ++ b) st
  = (s <- ssv_loop lines i a st ;; ssv_loop lines (i + length a) b s).
Proof.
  induction a as [|x a IH]; intros i st; simpl.
  - rewrite Nat.add_0_r. reflexivity.
  - destruct (ssv_step lines i x st) as [s|e]; simpl; [|reflexivity].
    rewrite IH. replace (S i + length a) with (i + S (length a)) by lia.
    reflexivity.
Qed.

(** The scan ends normally, and its final state has grown from the state
    right after the iteration for any given line. *)
Lemma ssv_scan_at lines i raw :
  nth_error lines i = Some raw ->
  exists s final,
    ssv_scan_lines lines = Ok final
    /\ ssv_grows (ssv_step_pure lines i raw s) final.
Proof.
  intros Hn. unfold ssv_scan_lines.
  destruct (nth_error_split _ _ Hn) as (before & after & Hl & Hlen).
  assert (Hi : i < length lines) by (apply nth_error_Some; congruence).
  assert (Hloop : ssv_loop lines 0 lines ssv_init
                  = ssv_loop lines 0 (before ++ raw :: after) ssv_init)
    by (rewrite <- Hl; reflexivity).
  rewrite Hloop, ssv_loop_app. simpl.
  destruct (ssv_loop_grows lines before 0 ssv_init) as (s & Es & _).
  { rewrite Hl, length_app. lia. }
  rewrite Es. cbn [bind]. rewrite Hlen.
  rewrite ssv_step_ok by exact Hi. cbn [bind].
  destruct (ssv_loop_grows lines after (S i) (ssv_step_pure lines i raw s))
    as (final & Ef & G).
  { rewrite Hl, length_app. simpl. lia. }
  exists s, final. split; [exact Ef | exact G].
Qed.

Lemma ssv_scan_lines_ok lines : exists st, ssv_scan_lines lines = Ok st.
Proof.
  destruct (ssv_loop_grows lines lines 0 ssv_init) as (st & E & _); [lia|].
  exists st; exact E.
Qed.

Lemma transition_truthy line :
  is_transition line = true -> truthy (Str.strip line) = true.
Proof.
  unfold is_transition. destruct (Str.strip line); [discriminate|reflexivity].
Qed.

(** C10 as stated fails for a transition line that is also a scene
    heading: the heading check comes first, so the line is counted as a
    heading and never reaches the transition check, even as last line. *)
Lemma C10_heading_transition_not_flagged :
  is_transition "INT. ROOM - CUT TO:" = true
  /\ is_scene_heading "INT. ROOM - CUT TO:" = true
  /\ ssv_scan "INT. ROOM - CUT TO:"
     = Ok (mk_ssv 1 [ "    - INT. ROOM - CUT TO: " ++ CHECK_MARK ] [] [] []
             false).
Proof. repeat split; reflexivity. Qed.

(** C10 (amended): the scan of [scene_structure_validator] never raises
    (no index past the end of the list), and a transition line that is
    not itself a scene heading is flagged as soon as it is the last line
    or the very next line is not a scene heading; in particular when the
    next line is blank, whatever comes after. *)
Theorem C10_transition_check (lines : list str) :
  exists st,
    ssv_scan_lines lines = Ok st
    /\ (forall i raw,
          nth_error lines i = Some raw ->
          is_transition raw = true ->
          is_scene_heading raw = false ->
          length lines <= i + 1
          \/ is_scene_heading (nth (i + 1) lines []) = false ->
          In (transition_issue i) (header_issues st))
    /\ (forall i raw nxt,
          nth_error lines i = Some raw ->
          is_transition raw = true ->
          is_scene_heading raw = false ->
          nth_error lines (i + 1) = Some nxt ->
          Str.strip nxt = [] ->
          In (transition_issue i) (header_issues st)).
Proof.
  destruct (ssv_scan_lines_ok lines) as (st & E). exists st.
  split; [exact E|].
  assert (Main : forall i raw,
            nth_error lines i = Some raw ->
            is_transition raw = true ->
            is_scene_heading raw = false ->
            length lines <= i + 1
            \/ is_scene_heading (nth (i + 1) lines []) = false ->
            In (transition_issue i) (header_issues st)).
  { intros i raw Hn Ht Hh Hnext.
    destruct (ssv_scan_at _ _ _ Hn) as (s & final & Ef & (G & _)).
    rewrite E in Ef. injection Ef as <-.
    apply G. unfold ssv_step_pure.
    rewrite is_scene_heading_strip, is_transition_strip,
      (transition_truthy _ Ht), Hh, Ht.
    simpl.
    assert (Hf : heading_follows lines i = false).
    { unfold heading_follows. destruct Hnext as [Hlen|Hnh].
      - apply Nat.ltb_ge in Hlen. rewrite Hlen. reflexivity.
      - rewrite Hnh. apply andb_false_r. }
    rewrite Hf. apply in_or_app. right. left. reflexivity. }
  split; [exact Main|].
  intros i raw nxt Hn Ht Hh Hnx Hb.
  apply (Main i raw Hn Ht Hh). right.
  rewrite (nth_error_nth _ _ _ Hnx). apply blank_not_heading, Hb.
Qed.

Lemma C10_transition_check_witness :
  exists st,
    ssv_scan_lines ["CUT TO:" : str; [] ; "INT. ROOM - DAY" : str] = Ok st
    /\ In (transition_issue 0) (header_issues st).
Proof.
  destruct (C10_transition_check ["CUT TO:" : str; [] ; "INT. ROOM - DAY" : str])
    as (st & E & _ & H).
  exists st. split; [exact E|].
  apply (H 0 ("CUT TO:" : str) []); reflexivity.
Defined.

(** ** Unattributed dialogue *)

Lemma in_ssv_report_scene_issue st issue :
  In issue (scene_issues st) -> In ("    - " ++ issue) (ssv_report st).
Proof.
  intros H. unfold ssv_report.
  do 6 (apply in_or_app; right). apply in_or_app; left.
  destruct (scene_issues st) as [|x r] eqn:E; [contradiction|].
  apply (in_map (fun issue : str => "    - " ++ issue)) in H. exact H.
Qed.

Lemma dialogue_truthy line :
  is_dialogue line = true -> truthy (Str.strip line) = true.
Proof.
  unfold is_dialogue. destruct (truthy (Str.strip line)); [auto|discriminate].
Qed.

Lemma dialogue_not_transition line :
  is_dialogue line = true -> is_transition line = false.
Proof.
  unfold is_dialogue. rewrite is_transition_strip. intros H.
  destruct (is_transition line); [|reflexivity].
  rewrite !andb_false_r in H. discriminate H.
Qed.

Lemma percent_of_ok count total :
  exists pc, CharacterTracking.percent_of count total = Ok pc.
Proof.
  unfold CharacterTracking.percent_of, CharacterTracking.true_div.
  destruct (total =? 0); simpl; eauto.
Qed.

Lemma distribution_ok bar total items :
  exists l, CharacterTracking.distribution bar total items = Ok l.
Proof.
  induction items as [|[k v] r (l & IH)]; simpl; eauto.
  destruct (percent_of_ok v total) as (pc & ->). rewrite IH. simpl. eauto.
Qed.

Lemma tracking_report_ok bar st :
  exists analysis,
    CharacterTracking.report bar st = Ok analysis
    /\ (counter_mem UNKNOWN (CharacterTracking.character_lines st) = true ->
        In ("    - " ++ WARNING_SIGN
              ++ " Some dialogue has no character assigned") analysis).
Proof.
  unfold CharacterTracking.report.
  destruct (distribution_ok bar
              (counter_total (CharacterTracking.character_lines st))
              (CharacterTracking.character_lines st)) as (l & ->).
  cbn [bind]. eexists; split; [reflexivity|].
  intros ->. repeat (apply in_or_app; right). left. reflexivity.
Qed.

Lemma tracking_step_unknown st raw :
  counter_get UNKNOWN (CharacterTracking.character_lines st)
  <= counter_get UNKNOWN
       (CharacterTracking.character_lines (CharacterTracking.step st raw)).
Proof.
  unfold CharacterTracking.step.
  repeat match goal with
         | |- context [if ?b then _ else _] => destruct b
         end; simpl; auto using counter_get_add_le.
Qed.

Lemma tracking_fold_unknown lines : forall st,
  counter_get UNKNOWN (CharacterTracking.character_lines st)
  <= counter_get UNKNOWN
       (CharacterTracking.character_lines
          (fold_left CharacterTracking.step lines st)).
Proof.
  induction lines as [|l r IH]; intros st; simpl; [lia|].
  etransitivity; [apply tracking_step_unknown | apply IH].
Qed.

(** C7 as stated fails in [scene_structure_validator]: a dialogue line
    that is also an action line is taken by the action check first, so it
    is neither counted under UNKNOWN nor reported. *)
Lemma C7_action_check_hides_dialogue :
  is_dialogue "Hello there." = true
  /\ speaker_resolved (script_lines "Hello there.") 0 = false
  /\ ssv_scan "Hello there." = Ok (mk_ssv 0 [] [] [] [] true)
  /\ scene_structure_validator "Hello there."
     = Ok (Str.join NL
             [ NL ++ "Scene Structure Report:";
               "--------------------------------" : str;
               "Total Scenes: 0" ++ NL;
               CROSS_MARK ++ " No valid scene headings found.";
               NL ++ "Header Reports:";
               "    - " ++ CHECK_MARK ++ " No header errors";
               NL ++ "Scene Reports:";
               "    - " ++ CHECK_MARK ++ " No scene structure issues" ]).
Proof. repeat split; reflexivity. Qed.

(** C7 (amended): the six predicates are functions without any
    operation that can raise (on the empty string all are false), and
    [scene_structure_validator] and [character_tracking] return a report
    for every script, without raising.  In
    [scene_structure_validator] a dialogue line that is not also an action
    line and has no resolvable speaker (no character cue right before it,
    directly or through one emotion line) is counted under UNKNOWN and
    its issue is in the report.  In [character_tracking] a dialogue line
    scanned while there is no current speaker is counted under UNKNOWN and
    the report carries the warning. *)
Theorem C7_no_exception_unknown_reported :
  (is_scene_heading [] = false /\ is_transition [] = false
   /\ is_emotion [] = false /\ is_character_name [] = false
   /\ is_action [] = false /\ is_dialogue [] = false)
  /\ (forall script,
     exists st,
       ssv_scan script = Ok st
       /\ scene_structure_validator script = Ok (Str.join NL (ssv_report st))
       /\ (forall i raw,
             nth_error (script_lines script) i = Some raw ->
             is_dialogue raw = true ->
             is_action raw = false ->
             speaker_resolved (script_lines script) i = false ->
             1 <= counter_get UNKNOWN (character_lines st)
             /\ In (dialogue_issue i) (scene_issues st)
             /\ In ("    - " ++ dialogue_issue i) (ssv_report st)))
  /\ (forall bar_and_rate script,
        exists analysis,
          CharacterTracking.report bar_and_rate
            (CharacterTracking.scan script) = Ok analysis
          /\ CharacterTracking.character_tracking bar_and_rate script
             = Ok (Str.join NL analysis)
          /\ (forall before raw after,
                script_lines script = before ++ raw :: after ->
                is_dialogue raw = true ->
                CharacterTracking.current_character
                  (CharacterTracking.scan_lines before) = None ->
                1 <= counter_get UNKNOWN
                       (CharacterTracking.character_lines
                          (CharacterTracking.scan script))
                /\ In ("    - " ++ WARNING_SIGN
                         ++ " Some dialogue has no character assigned")
                     analysis)).
Proof.
  split; [repeat split; reflexivity|].
  split.
  - intros script.
    destruct (ssv_scan_lines_ok (script_lines script)) as (st & E).
    exists st. unfold scene_structure_validator, ssv_scan. rewrite E.
    repeat split.
    + destruct (ssv_scan_at _ _ _ H) as (s & final & Ef & (_ & _ & G)).
      rewrite E in Ef. injection Ef as <-.
      eapply Nat.le_trans; [|exact G].
      unfold ssv_step_pure.
      rewrite is_scene_heading_strip, is_transition_strip, is_action_strip,
        is_dialogue_strip, (dialogue_truthy _ H0), (dialogue_not_heading _ H0),
        (dialogue_not_transition _ H0), H0, H1.
      unfold speaker_resolved in H2. apply orb_false_iff in H2 as [-> ->].
      simpl. rewrite counter_get_add, str_eqb_refl. lia.
    + destruct (ssv_scan_at _ _ _ H) as (s & final & Ef & (_ & G & _)).
      rewrite E in Ef. injection Ef as <-.
      apply G. unfold ssv_step_pure.
      rewrite is_scene_heading_strip, is_transition_strip, is_action_strip,
        is_dialogue_strip, (dialogue_truthy _ H0), (dialogue_not_heading _ H0),
        (dialogue_not_transition _ H0), H0, H1.
      unfold speaker_resolved in H2. apply orb_false_iff in H2 as [-> ->].
      simpl. apply in_or_app. right. left. reflexivity.
    + apply in_ssv_report_scene_issue.
      destruct (ssv_scan_at _ _ _ H) as (s & final & Ef & (_ & G & _)).
      rewrite E in Ef. injection Ef as <-.
      apply G. unfold ssv_step_pure.
      rewrite is_scene_heading_strip, is_transition_strip, is_action_strip,
        is_dialogue_strip, (dialogue_truthy _ H0), (dialogue_not_heading _ H0),
        (dialogue_not_transition _ H0), H0, H1.
      unfold speaker_resolved in H2. apply orb_false_iff in H2 as [-> ->].
      simpl. apply in_or_app. right. left. reflexivity.
  - intros bar script.
    destruct (tracking_report_ok bar (CharacterTracking.scan script))
      as (analysis & E & W).
    exists analysis. unfold CharacterTracking.character_tracking. rewrite E.
    split; [reflexivity|]. split; [reflexivity|].
    intros before raw after Hl Hd Hc.
    assert (Hu : 1 <= counter_get UNKNOWN
                   (CharacterTracking.character_lines
                      (CharacterTracking.scan script))).
    { unfold CharacterTracking.scan, CharacterTracking.scan_lines in *.
      rewrite Hl, fold_left_app. simpl.
      eapply Nat.le_trans; [|apply tracking_fold_unknown].
      unfold CharacterTracking.step at 1.
      rewrite is_character_name_strip, is_dialogue_strip,
        (dialogue_not_cue _ Hd), Hd, Hc.
      simpl. rewrite counter_get_add, str_eqb_refl. lia. }
    split; [exact Hu|]. apply W, counter_get_mem, Hu.
Qed.

Lemma C7_no_exception_unknown_reported_witness :
  exists st,
    ssv_scan "Really?" = Ok st
    /\ 1 <= counter_get UNKNOWN (character_lines st)
    /\ In ("    - " ++ dialogue_issue 0) (ssv_report st).
Proof.
  destruct (proj1 (proj2 C7_no_exception_unknown_reported) "Really?")
    as (st & E & _ & H).
  exists st. split; [exact E|].
  destruct (H 0 ("Really?" : str)) as (H1 & _ & H3);
    [reflexivity | reflexivity | reflexivity | reflexivity |].
  split; [exact H1 | exact H3].
Defined.

(** ** The matcher *)

Section MatcherFacts.

Variable ic : bool.
Variable s : str.
Variable T : Type.

Lemma rmatch_cat_cons r rs i caps (k : nat -> Re.captures -> option T) :
  Re.rmatch ic s T (Re.cat (r :: rs)) i caps k
  = Re.rmatch ic s T r i caps
      (fun j c => Re.rmatch ic s T (Re.cat rs) j c k).
Proof. destruct rs; reflexivity. Qed.

Lemma skipn_nth_error (i : nat) :
  skipn i s = match nth_error s i with
              | Some c => c :: skipn (S i) s
              | None => []
              end.
Proof.
  revert i. induction s as [|c r IH]; intros [|i]; try reflexivity.
  simpl. rewrite IH. destruct (nth_error r i); reflexivity.
Qed.

(** A literal text matches where it is a prefix of the rest of the
    subject. *)
Lemma rmatch_lit p : forall i caps (k : nat -> Re.captures -> option T),
  Re.rmatch ic s T (Re.lit p) i caps k
  = if lit_prefix ic (skipn i s) p then k (i + length p) caps else None.
Proof.
  unfold Re.lit.
  induction p as [|l p IH]; intros i caps k.
  - simpl. rewrite Nat.add_0_r. reflexivity.
  - cbn [map]. rewrite rmatch_cat_cons. cbn [Re.rmatch].
    rewrite (skipn_nth_error i).
    destruct (nth_error s i) as [c|]; [|reflexivity].
    cbn [lit_prefix].
    destruct (Re.lit_matches ic l c); [|reflexivity].
    rewrite IH. cbn [andb length].
    replace (S i + length p) with (i + S (length p)) by lia.
    reflexivity.
Qed.

(** [p*] and [p+?]: the continuation that succeeded was called
    somewhere at or after the start, having read at least [lo] items. *)
Lemma rep_greedy_inv p (m : T) : forall suffix lo hi i k,
  Re.rep_greedy T p lo hi suffix i k = Some m ->
  exists j, k j = Some m /\ i + lo <= j.
Proof.
  induction suffix as [|c rest IH]; intros lo hi i k; simpl.
  - destruct (Nat.eqb_spec lo 0); [|discriminate].
    intros H. exists i. split; [exact H | lia].
  - assert (Stop : (if lo =? 0 then k i else None) = Some m ->
                   exists j, k j = Some m /\ i + lo <= j).
    { destruct (Nat.eqb_spec lo 0); [|discriminate].
      intros H. exists i. split; [exact H | lia]. }
    destruct (p c && Re.can_take hi); [|exact Stop].
    destruct (Re.rep_greedy T p (lo - 1) (Re.dec hi) rest (S i) k) eqn:E;
      [|exact Stop].
    intros H. injection H as ->.
    destruct (IH _ _ _ _ E) as (j & Hj & Hle).
    exists j. split; [exact Hj | lia].
Qed.

Lemma rep_lazy_inv p (m : T) : forall suffix lo hi i k,
  Re.rep_lazy T p lo hi suffix i k = Some m ->
  exists j, k j = Some m /\ i + lo <= j.
Proof.
  induction suffix as [|c rest IH]; intros lo hi i k; simpl.
  - destruct (Nat.eqb_spec lo 0).
    + destruct (k i) eqn:E; [|discriminate].
      intros H. injection H as ->. exists i. split; [exact E | lia].
    + discriminate.
  - destruct (if lo =? 0 then k i else None) eqn:E.
    + intros H. injection H as ->.
      destruct (Nat.eqb_spec lo 0); [|discriminate].
      exists i. split; [exact E | lia].
    + destruct (p c && Re.can_take hi); [|discriminate].
      intros H. destruct (IH _ _ _ _ H) as (j & Hj & Hle).
      exists j. split; [exact Hj | lia].
Qed.

(** Greedy [p*] in front of a character that [p] refuses reads
    nothing. *)
Lemma rep_greedy_refused p hi c rest i (k : nat -> option T) :
  p c = false -> Re.rep_greedy T p 0 hi (c :: rest) i k = k i.
Proof. intros H. simpl. rewrite H. reflexivity. Qed.

(** Whatever made a match succeed, its continuation was called, with
    the spans extended. *)
Lemma rmatch_inv (m : T) r : forall i caps k,
  Re.rmatch ic s T r i caps k = Some m ->
  exists j caps', k j caps' = Some m /\ extends caps caps'.
Proof.
  assert (Refl : forall c, extends c c) by (intros c; exists []; reflexivity).
  induction r as [ | l | p | r1 IH1 r2 IH2 | r1 IH1 r2 IH2
                 | p lo hi g | r IH | n r IH | | | ];
    intros i caps k; cbn [Re.rmatch].
  - eauto.
  - destruct (nth_error s i); [|discriminate].
    destruct (Re.lit_matches ic l a); [eauto|discriminate].
  - destruct (nth_error s i); [|discriminate].
    destruct (p a); [eauto|discriminate].
  - intros H. apply IH1 in H as (j1 & c1 & H & (n1 & ->)).
    apply IH2 in H as (j2 & c2 & H & (n2 & ->)).
    exists j2, (n2 ++ n1 ++ caps). split; [exact H|].
    exists (n2 ++ n1). apply app_assoc.
  - destruct (Re.rmatch ic s T r1 i caps k) eqn:E.
    + intros H; injection H as ->. apply IH1 in E. exact E.
    + apply IH2.
  - destruct g; intros H.
    + apply rep_greedy_inv in H as (j & H & _). eauto.
    + apply rep_lazy_inv in H as (j & H & _). eauto.
  - destruct (Re.rmatch ic s T r i caps k) eqn:E.
    + intros H; injection H as ->. apply IH in E. exact E.
    + eauto.
  - intros H. apply IH in H as (j & c & H & (n1 & ->)).
    exists j, ((n, (i, j)) :: n1 ++ caps). split; [exact H|].
    exists ((n, (i, j)) :: n1). reflexivity.
  - destruct (i =? 0); [eauto|discriminate].
  - destruct (Re.at_end s i); [eauto|discriminate].
  - destruct (Re.at_word_boundary s i); [eauto|discriminate].
Qed.

(** A group that matched is in the spans the continuation receives. *)
Lemma rmatch_group_inv (m : T) n r i caps k :
  Re.rmatch ic s T (Re.Group n r) i caps k = Some m ->
  exists j caps', k j caps' = Some m
                  /\ extends caps caps' /\ is_some (Re.span n caps') = true.
Proof.
  cbn [Re.rmatch]. intros H.
  apply rmatch_inv in H as (j & c & H & (n1 & ->)).
  exists j, ((n, (i, j)) :: n1 ++ caps). split; [exact H|]. split.
  - exists ((n, (i, j)) :: n1). reflexivity.
  - simpl. rewrite Nat.eqb_refl. reflexivity.
Qed.

(** A match only moves forward in the subject. *)
Lemma rmatch_forward (m : T) r : forall i caps k,
  Re.rmatch ic s T r i caps k = Some m ->
  exists j caps', k j caps' = Some m /\ i <= j.
Proof.
  induction r as [ | l | p | r1 IH1 r2 IH2 | r1 IH1 r2 IH2
                 | p lo hi g | r IH | n r IH | | | ];
    intros i caps k; cbn [Re.rmatch].
  - eauto.
  - destruct (nth_error s i); [|discriminate].
    destruct (Re.lit_matches ic l a); [eauto|discriminate].
  - destruct (nth_error s i); [|discriminate].
    destruct (p a); [eauto|discriminate].
  - intros H. apply IH1 in H as (j1 & c1 & H & L1).
    apply IH2 in H as (j2 & c2 & H & L2).
    exists j2, c2. split; [exact H | lia].
  - destruct (Re.rmatch ic s T r1 i caps k) eqn:E.
    + intros H; injection H as ->. apply IH1 in E. exact E.
    + apply IH2.
  - destruct g; intros H.
    + apply rep_greedy_inv in H as (j & H & L). exists j, caps. split; [exact H | lia].
    + apply rep_lazy_inv in H as (j & H & L). exists j, caps. split; [exact H | lia].
  - destruct (Re.rmatch ic s T r i caps k) eqn:E.
    + intros H; injection H as ->. apply IH in E. exact E.
    + eauto.
  - intros H. apply IH in H as (j & c & H & L). eauto.
  - destruct (i =? 0); [eauto|discriminate].
  - destruct (Re.at_end s i); [eauto|discriminate].
  - destruct (Re.at_word_boundary s i); [eauto|discriminate].
Qed.

End MatcherFacts.

Lemma match_at_forward pat s i m :
  Re.match_at pat s i = Some m -> i <= Re.m_end m.
Proof.
  unfold Re.match_at. intros H.
  apply rmatch_forward in H as (j & c & H & L).
  injection H as <-. exact L.
Qed.

(** The scan of [findall] never runs out of positions to try: more fuel
    than the length of the subject plus one changes nothing. *)
Lemma findall_fuel_enough pat s : forall fuel i,
  length s < i + fuel ->
  Re.findall_from pat s fuel i = Re.findall_from pat s (S fuel) i.
Proof.
  induction fuel as [|fuel IH]; intros i H.
  - simpl. apply Nat.ltb_lt in H. rewrite Nat.add_0_r in H. rewrite H.
    reflexivity.
  - change (Re.findall_from pat s (S (S fuel)) i)
      with (if length s <? i then []
            else match Re.match_at pat s i with
                 | Some m =>
                     firstn (Re.m_end m - i) (skipn i s)
                     :: Re.findall_from pat s (S fuel)
                          (if Re.m_end m =? i then S i else Re.m_end m)
                 | None => Re.findall_from pat s (S fuel) (S i)
                 end).
    cbn [Re.findall_from].
    destruct (length s <? i); [reflexivity|].
    destruct (Re.match_at pat s i) as [m|] eqn:E.
    + f_equal. apply IH.
      apply match_at_forward in E.
      destruct (Nat.eqb_spec (Re.m_end m) i); lia.
    + apply IH. lia.
Qed.

Lemma findall_any_fuel pat s n :
  Re.findall_from pat s (S (length s) + n) 0 = Re.findall pat s.
Proof.
  unfold Re.findall. induction n as [|n IH].
  - rewrite Nat.add_0_r. reflexivity.
  - rewrite <- IH. rewrite Nat.add_succ_r. symmetry.
    apply findall_fuel_enough. lia.
Qed.

Lemma span_extends n caps caps' :
  extends caps caps' ->
  is_some (Re.span n caps) = true -> is_some (Re.span n caps') = true.
Proof.
  intros (new & ->). induction new as [|[m sp] r IH]; simpl; auto.
  destruct (m =? n); auto.
Qed.

(** ** The patterns of the formatter *)
Lemma lit_matches_upper l c :
  Char.upper l = l -> Re.lit_matches true l c = Ascii.eqb l (Char.upper c).
Proof.
  intros Hl. unfold Re.lit_matches.
  destruct (Ascii.eqb_spec (Char.lower c) (Char.lower l)) as [E|E];
    destruct (Ascii.eqb_spec l (Char.upper c)) as [F|F]; try reflexivity.
  - exfalso. apply F. rewrite <- Hl, <- (upper_lower l), <- E, upper_lower.
    reflexivity.
  - exfalso. apply E. rewrite F, lower_upper. reflexivity.
Qed.

Lemma lit_prefix_upper p : forall s,
  Str.upper p = p ->
  lit_prefix true s p = Str.startswith (Str.upper s) p.
Proof.
  induction p as [|l p IH]; intros s Hp; [reflexivity|].
  simpl in Hp. injection Hp as Hl Hp.
  destruct s as [|c s]; [reflexivity|].
  cbn [lit_prefix Str.upper map Str.startswith].
  rewrite (lit_matches_upper _ _ Hl), (IH _ Hp).
  destruct (Ascii.eqb l (Char.upper c)); reflexivity.
Qed.

Lemma lit_prefix_app ic p q : forall s,
  lit_prefix ic s (p ++ q)
  = lit_prefix ic s p && lit_prefix ic (skipn (length p) s) q.
Proof.
  induction p as [|l p IH]; intros s; [reflexivity|].
  destruct s as [|c s]; simpl.
  - destruct q; reflexivity.
  - rewrite IH. apply andb_assoc.
Qed.


Lemma rep_space_clean T line i (k : nat -> option T) :
  Str.lstrip line = line ->
  Re.rep_greedy T Re.space 0 None line i k = k i.
Proof.
  intros Hc. destruct line as [|c r]; [reflexivity|].
  apply rep_greedy_refused. exact (lstrip_head _ _ _ Hc).
Qed.

Lemma scene_re_spec line :
  Str.lstrip line = line ->
  is_some (Re.match_ SCENE_RE line)
  = Str.startswith_any (Str.upper line) ["INT." : str; "EXT." : str].
Proof.
  intros Hc.
  unfold Re.match_, Re.match_at, SCENE_RE. cbn [Re.expr Re.flag_I].
  rewrite rmatch_cat_cons. cbn [Re.rmatch Nat.eqb].
  rewrite rmatch_cat_cons. cbn [Re.rmatch skipn Re.cat].
  rewrite (rep_space_clean _ _ _ _ Hc), !rmatch_lit.
  cbn [skipn]. rewrite !lit_prefix_upper by reflexivity.
  unfold Str.startswith_any. cbn [existsb].
  destruct (Str.startswith (Str.upper line) "INT.");
    destruct (Str.startswith (Str.upper line) "EXT."); reflexivity.
Qed.

Lemma transition_re_spec line :
  Str.lstrip line = line ->
  is_some (Re.match_ TRANSITION_RE line) = starts_with_transition line.
Proof.
  intros Hc.
  unfold Re.match_, Re.match_at, TRANSITION_RE. cbn [Re.expr Re.flag_I].
  rewrite rmatch_cat_cons. cbn [Re.rmatch Nat.eqb].
  rewrite rmatch_cat_cons. cbn [Re.rmatch skipn Re.cat].
  rewrite (rep_space_clean _ _ _ _ Hc), !rmatch_lit.
  unfold starts_with_transition, Str.startswith_any. cbn [existsb].
  rewrite <- !lit_prefix_upper by reflexivity.
  change ("FADE IN:" : str) with (("FADE " : str) ++ ("IN" : str) ++ (":" : str)).
  change ("FADE OUT:" : str) with (("FADE " : str) ++ ("OUT" : str) ++ (":" : str)).
  rewrite !lit_prefix_app, !skipn_skipn.
  cbn [Nat.add length list_ascii_of_string app skipn].
  repeat match goal with
         | |- context [lit_prefix true ?a ?b] =>
             destruct (lit_prefix true a b)
         end; reflexivity.
Qed.

Lemma group_some m n :
  is_some (Re.span n (Re.m_caps m)) = true -> exists t, Re.group m n = Some t.
Proof.
  unfold Re.group. destruct (Re.span n (Re.m_caps m)) as [[a b]|];
    [eauto | discriminate].
Qed.

(** When the inline pattern matches, the name and the dialogue groups
    took part in the match. *)
Lemma dialogue_re_groups line m :
  Re.match_ DIALOGUE_RE line = Some m ->
  exists name dialogue,
    Re.group m 1 = Some name /\ Re.group m 3 = Some dialogue.
Proof.
  unfold Re.match_, Re.match_at, DIALOGUE_RE. cbn [Re.expr Re.flag_I].
  intros H.
  rewrite rmatch_cat_cons in H. apply rmatch_inv in H as (j0 & c0 & H & _).
  rewrite rmatch_cat_cons in H. apply rmatch_inv in H as (j1 & c1 & H & _).
  rewrite rmatch_cat_cons in H.
  apply rmatch_group_inv in H as (j2 & c2 & H & _ & S1).
  rewrite rmatch_cat_cons in H. apply rmatch_inv in H as (j3 & c3 & H & E3).
  rewrite rmatch_cat_cons in H. apply rmatch_inv in H as (j4 & c4 & H & E4).
  rewrite rmatch_cat_cons in H. apply rmatch_inv in H as (j5 & c5 & H & E5).
  rewrite rmatch_cat_cons in H. apply rmatch_inv in H as (j6 & c6 & H & E6).
  rewrite rmatch_cat_cons in H.
  apply rmatch_group_inv in H as (j7 & c7 & H & E7 & S3).
  apply rmatch_inv in H as (j8 & c8 & H & E8).
  injection H as <-.
  destruct (group_some (Re.mk_match line j8 c8) 1) as (name & Hn).
  { cbn [Re.m_caps].
    repeat (eapply span_extends; [eassumption|]). exact S1. }
  destruct (group_some (Re.mk_match line j8 c8) 3) as (dialogue & Hd).
  { cbn [Re.m_caps]. eapply span_extends; [eassumption|]. exact S3. }
  exists name, dialogue. split; assumption.
Qed.

Lemma inline_block_ok line m :
  Re.match_ DIALOGUE_RE line = Some m -> exists out, inline_block m = Ok out.
Proof.
  intros H. destruct (dialogue_re_groups _ _ H) as (name & dialogue & Hn & Hd).
  unfold inline_block. rewrite Hn, Hd. eauto.
Qed.








(** ** The layout of one line *)

Lemma lstrip_upper s : Str.lstrip (Str.upper s) = Str.upper (Str.lstrip s).
Proof.
  induction s as [|c r IH]; [reflexivity|].
  cbn [Str.upper map Str.lstrip]. rewrite isspace_upper.
  destruct (Char.isspace c); [exact IH | reflexivity].
Qed.

Lemma strip_upper s : Str.strip (Str.upper s) = Str.upper (Str.strip s).
Proof.
  unfold Str.strip, Str.rstrip.
  rewrite lstrip_upper, rev_upper, lstrip_upper, <- rev_upper. reflexivity.
Qed.





Lemma strip_lstrip raw : Str.lstrip (Str.strip raw) = Str.strip raw.
Proof. apply strip_clean. Qed.

(** The first three tests of the loop body. *)
Lemma format_line_head raw :
  format_line module_globals raw =
    if negb (truthy (Str.strip raw)) then Ok [ [] ]
    else if is_scene_heading raw then Ok [ Str.upper (Str.strip raw) ]
    else if starts_with_transition (Str.strip raw)
         then Ok [ Str.rjust (Str.upper (Str.strip raw)) 60 ]
    else
      match Re.match_ DIALOGUE_RE (Str.strip raw) with
      | Some m => inline_block m
      | None =>
          if is_character_name raw then
            Ok [ Str.center (Str.upper (Str.strip raw)) 40 ]
          else if is_emotion raw then Ok [ Str.spaces 10 ++ Str.strip raw ]
          else if is_dialogue raw then Ok [ Str.spaces 5 ++ Str.strip raw ]
          else Ok [ Str.strip raw ]
      end.
Proof.
  unfold format_line.
  cbn [module_globals g_SCENE_RE g_TRANSITION_RE g_DIALOGUE_RE].
  rewrite (scene_re_spec _ (strip_lstrip raw)),
    (transition_re_spec _ (strip_lstrip raw)),
    is_character_name_strip, is_emotion_strip, is_dialogue_strip,
    !strip_upper, !strip_idem.
  reflexivity.
Qed.

(** ** The inline pattern *)

Section RepeatFacts.

Variable T : Type.
Variable p : ascii -> bool.






End RepeatFacts.




Section InlineFacts.

Variable line : str.


End InlineFacts.





Section InlineMatch.

Variable line : str.



End InlineMatch.






Section InlineInversion.

Variable line : str.
Variable T : Type.





End InlineInversion.












(** ** Transitions in the formatter *)






(** * Further properties *)

(** ** White space around the script *)

Lemma lstrip_spaces_app a s :
  forallb Char.isspace a = true -> Str.lstrip (a ++ s) = Str.lstrip s.
Proof.
  induction a as [|c a IH]; simpl; [reflexivity|].
  intros H. apply andb_true_iff in H as [Hc Ha]. rewrite Hc. apply IH, Ha.
Qed.

Lemma lstrip_all_spaces a : forallb Char.isspace a = true -> Str.lstrip a = [].
Proof.
  intros H. rewrite <- (app_nil_r a). rewrite lstrip_spaces_app by exact H.
  reflexivity.
Qed.


(** Trimming finds the clean core of a text, whatever white space is
    around it. *)
Lemma strip_unique a c b :
  forallb Char.isspace a = true -> forallb Char.isspace b = true ->
  clean c -> Str.strip (a ++ c ++ b) = c.
Proof.
  intros Ha Hb [Hc1 Hc2]. unfold Str.strip, Str.rstrip.
  rewrite lstrip_spaces_app by exact Ha.
  destruct c as [|x c].
  - simpl. rewrite (lstrip_all_spaces b Hb). reflexivity.
  - assert (Hx : Char.isspace x = false) by exact (lstrip_head _ _ _ Hc1).
    change ((x :: c) ++ b) with (x :: (c ++ b)).
    rewrite lstrip_fixed by exact Hx.
    change (x :: c ++ b) with ((x :: c) ++ b).
    rewrite rev_app_distr, lstrip_spaces_app by (rewrite forallb_rev; exact Hb).
    rewrite Hc2. apply rev_involutive.
Qed.


Lemma strip_surrounded a s b :
  forallb Char.isspace a = true -> forallb Char.isspace b = true ->
  Str.strip (a ++ s ++ b) = Str.strip s.
Proof.
  intros Ha Hb.
  destruct (strip_split s) as (a' & b' & Hs & Ha' & Hb').
  rewrite Hs at 1.
  replace (a ++ (a' ++ Str.strip s ++ b') ++ b)
    with ((a ++ a') ++ Str.strip s ++ (b' ++ b))
    by (rewrite <- !app_assoc; reflexivity).
  apply strip_unique.
  - rewrite forallb_app, Ha, Ha'. reflexivity.
  - rewrite forallb_app, Hb, Hb'. reflexivity.
  - apply strip_clean.
Qed.

(** Leading and trailing white space of the script, blank lines
    included, is invisible to every analysis: all of them work on
    [script.strip().split('\n')].  Line numbers in the reports therefore
    count from the first line that is not blank. *)
Theorem surrounding_space_ignored
  (bar_and_rate : CharacterTracking.percent -> str)
  (time_str : nat -> str)
  (below_0_3 : CharacterTracking.quotient -> bool) (a s b : str) :
  blank_text a -> blank_text b ->
  script_lines (a ++ s ++ b) = script_lines s
  /\ scene_structure_validator (a ++ s ++ b) = scene_structure_validator s
  /\ CharacterTracking.character_tracking bar_and_rate (a ++ s ++ b)
     = CharacterTracking.character_tracking bar_and_rate s
  /\ character_development_validator (a ++ s ++ b)
     = character_development_validator s
  /\ scene_pacing_and_distribution bar_and_rate (a ++ s ++ b)
     = scene_pacing_and_distribution bar_and_rate s
  /\ Readability.readability_analysis below_0_3 (a ++ s ++ b)
     = Readability.readability_analysis below_0_3 s
  /\ character_speaking_stats time_str (a ++ s ++ b)
     = character_speaking_stats time_str s.
Proof.
  intros Ha Hb.
  assert (E : script_lines (a ++ s ++ b) = script_lines s).
  { unfold script_lines. rewrite strip_surrounded by assumption. reflexivity. }
  split; [exact E|].
  unfold scene_structure_validator, ssv_scan,
    CharacterTracking.character_tracking, CharacterTracking.scan,
    character_development_validator, CharacterDevelopment.scan,
    scene_pacing_and_distribution, Readability.readability_analysis,
    Readability.scan, character_speaking_stats, SpeakingTime.scan.
  rewrite E. repeat split; reflexivity.
Qed.

Lemma surrounding_space_ignored_witness :
  scene_structure_validator (NL ++ NL ++ "  " ++ "CUT TO:" ++ NL)
  = scene_structure_validator "CUT TO:".
Proof.
  apply (surrounding_space_ignored (fun _ => []) (fun _ => []) (fun _ => false)
           (NL ++ NL ++ "  ") "CUT TO:" NL); reflexivity.
Defined.

(** ** scene_structure_validator: what the scan collects *)

(** A blank line, a heading and a transition are neither action nor
    dialogue. *)
Lemma not_truthy_predicates raw :
  truthy (Str.strip raw) = false ->
  is_scene_heading raw = false /\ is_transition raw = false
  /\ is_action raw = false /\ is_dialogue raw = false.
Proof.
  intros H. assert (E : Str.strip raw = []) by (destruct (Str.strip raw); [reflexivity|discriminate]).
  repeat split.
  - apply blank_not_heading, E.
  - unfold is_transition. rewrite E. reflexivity.
  - apply blank_not_action, E.
  - apply blank_not_dialogue, E.
Qed.

Lemma heading_not_action raw :
  is_scene_heading raw = true -> is_action raw = false /\ is_dialogue raw = false.
Proof.
  intros H. unfold is_action, is_dialogue.
  rewrite is_scene_heading_strip, H, !andb_false_r. split; reflexivity.
Qed.

Lemma transition_not_action raw :
  is_transition raw = true -> is_action raw = false /\ is_dialogue raw = false.
Proof.
  intros H. unfold is_action, is_dialogue.
  rewrite is_transition_strip, H, !andb_false_r. split; reflexivity.
Qed.

(** What one iteration adds to each variable of the scan. *)
Ltac ssv_fields :=
  cbn [scene_count valid_headings header_issues scene_issues action_present
       negb andb orb];
  rewrite ?app_nil_r, ?Nat.add_0_r, ?orb_false_r, ?orb_true_r,
    ?andb_false_r, ?andb_true_r;
  cbn [negb andb orb]; rewrite ?app_nil_r;
  repeat split; reflexivity.

Lemma ssv_step_pure_fields lines i raw st :
  nth_error lines i = Some raw ->
  let st' := ssv_step_pure lines i raw st in
  scene_count st' = scene_count st + (if is_scene_heading raw then 1 else 0)
  /\ valid_headings st'
     = valid_headings st
       ++ (if is_scene_heading raw then [heading_entry raw] else [])
  /\ header_issues st'
     = header_issues st
       ++ (if flagged_transition lines i then [transition_issue i] else [])
  /\ scene_issues st'
     = scene_issues st
       ++ (if unattributed lines i then [dialogue_issue i] else [])
  /\ action_present st' = action_present st || is_action raw.
Proof.
  intros Hn. unfold flagged_transition, unattributed, at_line. rewrite Hn.
  unfold ssv_step_pure, heading_entry, speaker_resolved.
  rewrite is_scene_heading_strip, is_transition_strip, is_action_strip,
    is_dialogue_strip.
  pose proof (not_truthy_predicates raw) as B.
  pose proof (heading_not_action raw) as Hh.
  pose proof (transition_not_action raw) as Ht.
  destruct st as [n vh hi si cl ap].
  destruct (truthy (Str.strip raw)).
  2:{ destruct (B eq_refl) as (-> & -> & -> & ->). ssv_fields. }
  clear B. destruct (is_scene_heading raw).
  { destruct (Hh eq_refl) as (-> & ->). ssv_fields. }
  clear Hh. destruct (is_transition raw).
  { destruct (Ht eq_refl) as (-> & ->).
    destruct (heading_follows lines i); ssv_fields. }
  clear Ht. destruct (is_action raw); [ssv_fields|].
  destruct (is_dialogue raw); [|ssv_fields].
  destruct ((1 <=? i) && is_character_name (nth (i - 1) lines []));
    [ssv_fields|].
  destruct ((2 <=? i) && is_emotion (nth (i - 1) lines [])
            && is_character_name (nth (i - 2) lines [])); ssv_fields.
Qed.


(** The loop from index [i] on, as one comprehension per variable. *)
Lemma ssv_loop_exact lines : forall rest i st,
  rest = skipn i lines ->
  exists st',
    ssv_loop lines i rest st = Ok st'
    /\ scene_count st'
       = scene_count st + length (filter is_scene_heading rest)
    /\ valid_headings st'
       = valid_headings st ++ map heading_entry (filter is_scene_heading rest)
    /\ header_issues st'
       = header_issues st
         ++ map transition_issue
              (filter (flagged_transition lines) (seq i (length rest)))
    /\ scene_issues st'
       = scene_issues st
         ++ map dialogue_issue
              (filter (unattributed lines) (seq i (length rest)))
    /\ action_present st' = action_present st || existsb is_action rest.
Proof.
  induction rest as [|raw rest IH]; intros i st Hr.
  - exists st. simpl. rewrite !app_nil_r, Nat.add_0_r, orb_false_r.
    repeat split; reflexivity.
  - destruct (skipn_cons_nth _ _ _ _ Hr) as (Hn & Hs).
    assert (Hi : i < length lines) by (apply nth_error_Some; congruence).
    cbn [ssv_loop]. rewrite ssv_step_ok by exact Hi. cbn [bind].
    destruct (IH (S i) (ssv_step_pure lines i raw st) Hs)
      as (st' & E & H1 & H2 & H3 & H4 & H5).
    destruct (ssv_step_pure_fields lines i raw st Hn) as (S1 & S2 & S3 & S4 & S5).
    exists st'. split; [exact E|].
    rewrite H1, H2, H3, H4, H5, S1, S2, S3, S4, S5.
    cbn [filter existsb length seq].
    destruct (is_scene_heading raw), (flagged_transition lines i),
      (unattributed lines i); cbn [map length app];
      rewrite <- ?app_assoc, ?app_nil_r, ?Nat.add_0_r, ?orb_assoc;
      repeat split; try reflexivity; lia.
Qed.

(** ** Counters *)

Lemma fold_sum_shift (d : counter) : forall a,
  fold_left (fun acc kv => acc + snd kv) d a
  = a + fold_left (fun acc (kv : str * nat) => acc + snd kv) d 0.
Proof.
  induction d as [|kv d IH]; intros a; simpl; [lia|].
  rewrite IH, (IH (snd kv)). lia.
Qed.

Lemma counter_total_cons k v d :
  counter_total ((k, v) :: d) = v + counter_total d.
Proof. unfold counter_total. simpl. apply fold_sum_shift. Qed.

Lemma counter_total_add k n d :
  counter_total (counter_add k n d) = counter_total d + n.
Proof.
  induction d as [|[k' v] d IH]; simpl.
  - rewrite counter_total_cons. unfold counter_total. simpl. lia.
  - destruct (str_eqb k' k); rewrite !counter_total_cons; [lia|].
    rewrite IH. lia.
Qed.

Lemma counter_mem_add k k' n d :
  counter_mem k (counter_add k' n d) = counter_mem k d || str_eqb k' k.
Proof.
  unfold counter_mem. induction d as [|[k0 v] d IH]; simpl.
  - rewrite orb_false_r. reflexivity.
  - destruct (str_eqb k0 k') eqn:E; simpl.
    + apply str_eqb_eq in E. subst k0.
      destruct (str_eqb k' k); simpl; [reflexivity|].
      rewrite orb_false_r. reflexivity.
    + rewrite IH. apply orb_assoc.
Qed.

(** ** scene_structure_validator: what is counted *)

Lemma ssv_step_pure_counts lines i raw st :
  nth_error lines i = Some raw ->
  let st' := ssv_step_pure lines i raw st in
  counter_total (character_lines st')
  = counter_total (character_lines st)
    + (if is_dialogue raw && negb (is_action raw) then 1 else 0)
  /\ counter_get UNKNOWN (character_lines st)
     + (if unattributed lines i then 1 else 0)
     <= counter_get UNKNOWN (character_lines st').
Proof.
  intros Hn. unfold unattributed, at_line. rewrite Hn.
  unfold ssv_step_pure, speaker_resolved.
  rewrite is_scene_heading_strip, is_transition_strip, is_action_strip,
    is_dialogue_strip.
  pose proof (not_truthy_predicates raw) as B.
  pose proof (heading_not_action raw) as Hh.
  pose proof (transition_not_action raw) as Ht.
  destruct st as [n vh hi si cl ap].
  destruct (truthy (Str.strip raw)).
  2:{ destruct (B eq_refl) as (-> & -> & -> & ->). cbn [character_lines negb andb].
      split; lia. }
  clear B. destruct (is_scene_heading raw).
  { destruct (Hh eq_refl) as (-> & ->). cbn [character_lines negb andb].
    split; lia. }
  clear Hh. destruct (is_transition raw).
  { destruct (Ht eq_refl) as (-> & ->). cbn [character_lines negb andb].
    split; lia. }
  clear Ht. destruct (is_action raw).
  { cbn [character_lines negb andb]. rewrite andb_false_r.
    cbn [andb]. split; lia. }
  destruct (is_dialogue raw); [|cbn [character_lines negb andb]; split; lia].
  destruct ((1 <=? i) && is_character_name (nth (i - 1) lines [])).
  { cbn [character_lines negb andb orb].
    rewrite counter_total_add. split; [lia|].
    etransitivity; [|apply counter_get_add_le]. lia. }
  destruct ((2 <=? i) && is_emotion (nth (i - 1) lines [])
            && is_character_name (nth (i - 2) lines []));
    cbn [character_lines negb andb orb]; rewrite counter_total_add.
  - split; [lia|]. etransitivity; [|apply counter_get_add_le]. lia.
  - split; [lia|]. rewrite counter_get_add, str_eqb_refl. lia.
Qed.

Lemma ssv_loop_counts lines : forall rest i st,
  rest = skipn i lines ->
  exists st',
    ssv_loop lines i rest st = Ok st'
    /\ counter_total (character_lines st')
       = counter_total (character_lines st)
         + length (filter (fun raw => is_dialogue raw && negb (is_action raw))
                     rest)
    /\ counter_get UNKNOWN (character_lines st)
       + length (filter (unattributed lines) (seq i (length rest)))
       <= counter_get UNKNOWN (character_lines st').
Proof.
  induction rest as [|raw rest IH]; intros i st Hr.
  - exists st. simpl. split; [reflexivity|]. split; lia.
  - destruct (skipn_cons_nth _ _ _ _ Hr) as (Hn & Hs).
    assert (Hi : i < length lines) by (apply nth_error_Some; congruence).
    cbn [ssv_loop]. rewrite ssv_step_ok by exact Hi. cbn [bind].
    destruct (IH (S i) (ssv_step_pure lines i raw st) Hs) as (st' & E & H1 & H2).
    destruct (ssv_step_pure_counts lines i raw st Hn) as (S1 & S2).
    exists st'. split; [exact E|].
    cbn [filter length seq].
    destruct (is_dialogue raw && negb (is_action raw)),
      (unattributed lines i); cbn [length]; split; lia.
Qed.

(** The header issues are exactly the transition lines, other than
    scene headings, that no scene heading follows directly: one issue
    each, in line order, and no issue for any other line. *)
Theorem ssv_header_issues_exact (lines : list str) :
  exists st,
    ssv_scan_lines lines = Ok st
    /\ header_issues st
       = map transition_issue
           (filter (flagged_transition lines) (seq 0 (length lines))).
Proof.
  destruct (ssv_loop_exact lines lines 0 ssv_init eq_refl)
    as (st & E & _ & _ & H & _).
  exists st. split; [exact E | exact H].
Qed.

(** The scene issues are exactly the dialogue lines that are not action
    lines and have no character cue right before them (directly or
    through one emotion line): one issue each, in line order.  Every
    dialogue line that is not an action line is counted for somebody, and
    UNKNOWN has at least one count per issue. *)
Theorem ssv_scene_issues_exact (lines : list str) :
  exists st,
    ssv_scan_lines lines = Ok st
    /\ scene_issues st
       = map dialogue_issue
           (filter (unattributed lines) (seq 0 (length lines)))
    /\ counter_total (character_lines st)
       = length (filter (fun raw => is_dialogue raw && negb (is_action raw))
                   lines)
    /\ length (scene_issues st) <= counter_get UNKNOWN (character_lines st).
Proof.
  destruct (ssv_loop_exact lines lines 0 ssv_init eq_refl)
    as (st & E & _ & _ & _ & H & _).
  destruct (ssv_loop_counts lines lines 0 ssv_init eq_refl)
    as (st' & E' & T & U).
  rewrite E in E'. injection E' as <-.
  cbn [ssv_init scene_issues character_lines app counter_get counter_total
       fold_left Nat.add] in H, T, U.
  exists st. split; [exact E|]. split; [exact H|]. split; [exact T|].
  rewrite H, length_map. exact U.
Qed.

(** The scan records an action line exactly when some line of the script
    satisfies [is_action]; otherwise the report ends with the warning
    that the script has no action lines. *)
Theorem ssv_action_present_exact (lines : list str) :
  exists st,
    ssv_scan_lines lines = Ok st
    /\ action_present st = existsb is_action lines
    /\ (existsb is_action lines = false ->
        last (ssv_report st) []
        = "    - " ++ WARNING_SIGN ++ " Script has no action lines").
Proof.
  destruct (ssv_loop_exact lines lines 0 ssv_init eq_refl)
    as (st & E & _ & _ & _ & _ & H).
  exists st. split; [exact E|]. split; [exact H|].
  intros Hn. unfold ssv_report. rewrite H, Hn. cbn [ssv_init action_present orb negb].
  rewrite !app_assoc. apply last_last.
Qed.

Lemma ssv_action_present_exact_witness :
  existsb is_action [ "INT. ROOM - DAY" : str; "BOB" : str; "Hello?" : str ]
  = false
  /\ exists st,
       ssv_scan_lines [ "INT. ROOM - DAY" : str; "BOB" : str; "Hello?" : str ]
       = Ok st
       /\ last (ssv_report st) []
          = "    - " ++ WARNING_SIGN ++ " Script has no action lines".
Proof.
  split; [reflexivity|].
  destruct (ssv_action_present_exact
              [ "INT. ROOM - DAY" : str; "BOB" : str; "Hello?" : str ])
    as (st & E & _ & H).
  exists st. split; [exact E | apply H; reflexivity].
Defined.

(** ** The number of scenes *)

Lemma development_loop_scenes lines : forall i st,
  CharacterDevelopment.scenes (CharacterDevelopment.loop i lines st)
  = CharacterDevelopment.scenes st + length (filter is_scene_heading lines).
Proof.
  induction lines as [|raw lines IH]; intros i st; cbn [CharacterDevelopment.loop filter].
  - simpl. lia.
  - rewrite IH. unfold CharacterDevelopment.step.
    rewrite is_scene_heading_strip.
    destruct (is_scene_heading raw); cbn [CharacterDevelopment.scenes length]; [lia|].
    repeat match goal with
           | |- context [if ?b then _ else _] => destruct b
           end;
      try destruct (CharacterDevelopment.current_character st);
      cbn [CharacterDevelopment.scenes]; lia.
Qed.

Lemma seg_fold_counter lines : forall st,
  scene_counter (fold_left seg_step lines st)
  = scene_counter st + length (filter is_scene_heading lines).
Proof.
  induction lines as [|l lines IH]; intros st; cbn [fold_left filter].
  - simpl. lia.
  - rewrite IH. unfold seg_step.
    destruct (is_scene_heading l); cbn [scene_counter length]; lia.
Qed.

(** All analyses agree on the number of scenes: the count of
    [scene_structure_validator], the count and the number of scenes of
    the segmentation of [scene_pacing_and_distribution] and
    [readability_analysis], and the count of
    [character_development_validator] are all the number of scene heading
    lines, and the validator lists these lines, trimmed, in order. *)
Theorem scene_counts_agree (lines : list str) :
  exists st,
    ssv_scan_lines lines = Ok st
    /\ scene_count st = length (filter is_scene_heading lines)
    /\ valid_headings st = map heading_entry (filter is_scene_heading lines)
    /\ scene_counter (segment lines) = scene_count st
    /\ length (segment_scenes lines) = scene_count st
    /\ CharacterDevelopment.scenes (CharacterDevelopment.scan_lines lines)
       = scene_count st.
Proof.
  destruct (ssv_loop_exact lines lines 0 ssv_init eq_refl)
    as (st & E & H1 & H2 & _).
  cbn [ssv_init scene_count valid_headings app Nat.add] in H1, H2.
  exists st. split; [exact E|]. split; [exact H1|]. split; [exact H2|].
  rewrite H1. repeat split.
  - unfold segment, seg_close. cbn [scene_counter].
    rewrite seg_fold_counter. reflexivity.
  - rewrite segment_scenes_spec, number_scenes_length.
    pose proof (split_at_headings_spec lines) as S.
    destruct (split_at_headings lines) as [pre gs]. destruct S as (_ & S & _).
    cbn [snd]. rewrite <- S, length_map. reflexivity.
  - unfold CharacterDevelopment.scan_lines.
    rewrite development_loop_scenes. reflexivity.
Qed.

(** ** Dialogue lines are counted once *)

Lemma tracking_fold_total lines : forall st,
  counter_total (CharacterTracking.character_lines
                   (fold_left CharacterTracking.step lines st))
  = counter_total (CharacterTracking.character_lines st)
    + length (filter is_dialogue lines).
Proof.
  induction lines as [|raw lines IH]; intros st; cbn [fold_left filter].
  - simpl. lia.
  - rewrite IH. unfold CharacterTracking.step.
    rewrite is_character_name_strip, is_dialogue_strip.
    pose proof (dialogue_not_cue raw) as D.
    destruct (is_dialogue raw).
    + rewrite (D eq_refl). cbn [CharacterTracking.character_lines length].
      rewrite counter_total_add. lia.
    + destruct (is_character_name raw);
        [|destruct (str_eqb (Str.strip raw) [])];
        cbn [CharacterTracking.character_lines]; lia.
Qed.

Lemma speaking_fold_total lines : forall st,
  let st' := fold_left SpeakingTime.step lines st in
  SpeakingTime.total_lines st'
  = SpeakingTime.total_lines st + length (filter is_dialogue lines)
  /\ counter_total (SpeakingTime.character_line_count st')
     = counter_total (SpeakingTime.character_line_count st)
       + length (filter is_dialogue lines)
  /\ counter_total (SpeakingTime.character_word_count st')
     = counter_total (SpeakingTime.character_word_count st)
       + list_sum (map (fun line => length (Str.split line))
                     (filter is_dialogue lines)).
Proof.
  induction lines as [|line lines IH]; intros st; cbn [fold_left filter].
  - simpl. repeat split; lia.
  - destruct (IH (SpeakingTime.step st line)) as (H1 & H2 & H3).
    cbv zeta. rewrite H1, H2, H3. unfold SpeakingTime.step.
    pose proof (dialogue_not_cue line) as D.
    destruct (is_dialogue line).
    + rewrite (D eq_refl).
      unfold list_sum.
      cbn [SpeakingTime.total_lines SpeakingTime.character_line_count
           SpeakingTime.character_word_count length map fold_right].
      rewrite !counter_total_add. repeat split; lia.
    + destruct (is_character_name line);
        cbn [SpeakingTime.total_lines SpeakingTime.character_line_count
             SpeakingTime.character_word_count];
        repeat split; lia.
Qed.

(** [character_tracking] and [character_speaking_stats] count every
    dialogue line of the script exactly once: the counts of the former,
    and the total and the per-character line counts of the latter, all
    add up to the number of lines that satisfy [is_dialogue]; the word
    counts add up to the words of these lines.  The two reports can only
    differ in whom a line is counted for. *)
Theorem dialogue_totals_agree (script : str) :
  let dialogue := filter is_dialogue (script_lines script) in
  counter_total (CharacterTracking.character_lines
                   (CharacterTracking.scan script))
  = length dialogue
  /\ SpeakingTime.total_lines (SpeakingTime.scan script) = length dialogue
  /\ counter_total (SpeakingTime.character_line_count
                      (SpeakingTime.scan script))
     = length dialogue
  /\ counter_total (SpeakingTime.character_word_count
                      (SpeakingTime.scan script))
     = list_sum (map (fun line => length (Str.split line)) dialogue).
Proof.
  cbv zeta. split.
  - unfold CharacterTracking.scan, CharacterTracking.scan_lines.
    rewrite tracking_fold_total. reflexivity.
  - unfold SpeakingTime.scan, SpeakingTime.scan_lines.
    destruct (speaking_fold_total (script_lines script) SpeakingTime.init)
      as (H1 & H2 & H3).
    cbv zeta in H1, H2, H3. rewrite H1, H2, H3. repeat split; reflexivity.
Qed.

(** ** Words *)

Lemma split_from_word w s : w <> [] -> Str.split_from w s <> [].
Proof.
  revert w. induction s as [|c s IH]; intros w Hw; simpl.
  - destruct w; [contradiction | discriminate].
  - destruct (Char.isspace c).
    + destruct w; [contradiction | discriminate].
    + apply IH. destruct w; discriminate.
Qed.

Lemma split_from_nonspace w s c :
  In c s -> Char.isspace c = false -> Str.split_from w s <> [].
Proof.
  revert w. induction s as [|d s IH]; intros w Hin Hc; [contradiction|].
  simpl. destruct Hin as [->|Hin].
  - rewrite Hc. apply split_from_word. destruct w; discriminate.
  - destruct (Char.isspace d).
    + destruct w; [apply (IH [] Hin Hc) | discriminate].
    + apply (IH _ Hin Hc).
Qed.

(** A line that is not blank has at least one word. *)
Lemma truthy_has_word line :
  truthy (Str.strip line) = true -> 1 <= length (Str.split line).
Proof.
  intros H. destruct (Str.strip line) as [|c r] eqn:E; [discriminate|].
  assert (Hc : Char.isspace c = false).
  { destruct (strip_clean line) as [H1 _]. rewrite E in H1.
    exact (lstrip_head _ _ _ H1). }
  assert (Hin : In c line) by (apply in_strip; rewrite E; left; reflexivity).
  pose proof (split_from_nonspace [] line c Hin Hc) as Hne.
  unfold Str.split. destruct (Str.split_from [] line); [contradiction|simpl; lia].
Qed.

Lemma dialogue_has_word line :
  is_dialogue line = true -> 1 <= length (Str.split line).
Proof. intros H. apply truthy_has_word, dialogue_truthy, H. Qed.

(** ** character_speaking_stats: the two counters *)

Lemma speaking_step_counters st line k :
  (counter_mem k (SpeakingTime.character_word_count st)
   = counter_mem k (SpeakingTime.character_line_count st)
   /\ counter_get k (SpeakingTime.character_line_count st)
      <= counter_get k (SpeakingTime.character_word_count st)) ->
  counter_mem k (SpeakingTime.character_word_count (SpeakingTime.step st line))
  = counter_mem k (SpeakingTime.character_line_count (SpeakingTime.step st line))
  /\ counter_get k (SpeakingTime.character_line_count (SpeakingTime.step st line))
     <= counter_get k (SpeakingTime.character_word_count (SpeakingTime.step st line)).
Proof.
  intros [Hm Hg]. unfold SpeakingTime.step.
  destruct (is_character_name line); [split; assumption|].
  destruct (is_dialogue line) eqn:Hd; [|split; assumption].
  cbn [SpeakingTime.character_word_count SpeakingTime.character_line_count].
  rewrite !counter_mem_add, !counter_get_add, Hm. split; [reflexivity|].
  pose proof (dialogue_has_word _ Hd).
  destruct (str_eqb _ k); lia.
Qed.

Lemma speaking_fold_counters lines k : forall st,
  (counter_mem k (SpeakingTime.character_word_count st)
   = counter_mem k (SpeakingTime.character_line_count st)
   /\ counter_get k (SpeakingTime.character_line_count st)
      <= counter_get k (SpeakingTime.character_word_count st)) ->
  let st' := fold_left SpeakingTime.step lines st in
  counter_mem k (SpeakingTime.character_word_count st')
  = counter_mem k (SpeakingTime.character_line_count st')
  /\ counter_get k (SpeakingTime.character_line_count st')
     <= counter_get k (SpeakingTime.character_word_count st').
Proof.
  induction lines as [|l lines IH]; intros st H; cbn [fold_left]; [exact H|].
  apply IH, speaking_step_counters, H.
Qed.

(** In [character_speaking_stats] the word counter and the line counter
    always have the same keys, and nobody has fewer words than lines:
    every dialogue line has at least one word. *)
Theorem speaking_words_cover_lines (script k : str) :
  counter_mem k (SpeakingTime.character_word_count (SpeakingTime.scan script))
  = counter_mem k (SpeakingTime.character_line_count (SpeakingTime.scan script))
  /\ counter_get k (SpeakingTime.character_line_count
                      (SpeakingTime.scan script))
     <= counter_get k (SpeakingTime.character_word_count
                         (SpeakingTime.scan script)).
Proof.
  apply (speaking_fold_counters (script_lines script) k SpeakingTime.init).
  split; [reflexivity | apply Nat.le_refl].
Qed.

(** ** scene_pacing_and_distribution: the analysis of the scenes *)

Lemma action_not_cue line : is_action line = true -> is_character_name line = false.
Proof.
  unfold is_action. rewrite is_character_name_strip. intros H.
  destruct (is_character_name line); [|reflexivity].
  rewrite !andb_false_r in H. discriminate H.
Qed.

Lemma pacing_fold_counts content : forall ls,
  let ls' := fold_left Pacing.step content ls in
  Pacing.dialogue_count ls'
  = Pacing.dialogue_count ls + length (filter is_dialogue content)
  /\ Pacing.action_count ls'
     = Pacing.action_count ls + length (filter action_only content)
  /\ Pacing.total_dialogue_lines ls'
     = Pacing.total_dialogue_lines ls + length (filter is_dialogue content)
  /\ counter_total (Pacing.character_lines ls')
     = counter_total (Pacing.character_lines ls)
       + length (filter is_dialogue content).
Proof.
  induction content as [|line content IH]; intros ls; cbn [fold_left filter].
  - simpl. repeat split; lia.
  - destruct (IH (Pacing.step ls line)) as (H1 & H2 & H3 & H4).
    cbv zeta. rewrite H1, H2, H3, H4. unfold Pacing.step, action_only.
    pose proof (dialogue_not_cue line) as D.
    pose proof (action_not_cue line) as A.
    destruct (is_dialogue line).
    + rewrite (D eq_refl), andb_false_r.
      cbn [Pacing.dialogue_count Pacing.action_count
           Pacing.total_dialogue_lines Pacing.character_lines length].
      rewrite counter_total_add. repeat split; lia.
    + rewrite andb_true_r. destruct (is_action line).
      * rewrite (A eq_refl).
        cbn [Pacing.dialogue_count Pacing.action_count
             Pacing.total_dialogue_lines Pacing.character_lines length].
        repeat split; lia.
      * destruct (is_character_name line);
          cbn [Pacing.dialogue_count Pacing.action_count
               Pacing.total_dialogue_lines Pacing.character_lines length];
          repeat split; lia.
Qed.

(** One scene with an index: no exception, one more entry. *)
Lemma pacing_scene_step_ok st h c n :
  exists st',
    Pacing.scene_step st (mk_scene h c (Some n)) = Ok st'
    /\ Pacing.scene_reports st'
       = Pacing.scene_reports st ++ [report_of_scene n (mk_scene h c (Some n))]
    /\ Pacing.all_dialogue_lines st'
       = Pacing.all_dialogue_lines st + length (filter is_dialogue c)
    /\ counter_total (Pacing.all_character_lines st')
       = counter_total (Pacing.all_character_lines st)
         + length (filter is_dialogue c).
Proof.
  unfold Pacing.scene_step, Pacing.get_index, Pacing.scan_content.
  cbn [index content heading bind].
  destruct (pacing_fold_counts c
              (Pacing.mk_line_state 0 0 None (Pacing.all_character_lines st)
                 (Pacing.all_dialogue_lines st))) as (H1 & H2 & H3 & H4).
  cbv zeta in H1, H2, H3, H4.
  cbn [Pacing.dialogue_count Pacing.action_count Pacing.total_dialogue_lines
       Pacing.character_lines Nat.add] in H1, H2, H3, H4.
  eexists. split; [reflexivity|].
  cbn [Pacing.scene_reports Pacing.all_dialogue_lines Pacing.all_character_lines].
  rewrite H1, H2, H3, H4. unfold report_of_scene, pacing_balance.
  cbn [content heading]. repeat split; reflexivity.
Qed.

Lemma pacing_analyse_numbered gs : forall n st,
  exists st',
    Pacing.analyse (number_scenes n gs) st = Ok st'
    /\ Pacing.scene_reports st'
       = Pacing.scene_reports st ++ reports_from n (number_scenes n gs)
    /\ Pacing.all_dialogue_lines st'
       = Pacing.all_dialogue_lines st
         + length (filter is_dialogue (concat (map snd gs)))
    /\ counter_total (Pacing.all_character_lines st')
       = counter_total (Pacing.all_character_lines st)
         + length (filter is_dialogue (concat (map snd gs))).
Proof.
  induction gs as [|[h c] gs IH]; intros n st; cbn [number_scenes Pacing.analyse].
  - exists st. simpl. rewrite app_nil_r. repeat split; lia.
  - destruct (pacing_scene_step_ok st (Some (Str.strip h)) c (n + 1))
      as (st1 & E1 & R1 & D1 & T1).
    rewrite E1. cbn [bind].
    destruct (IH (n + 1) st1) as (st' & E & R & D & T).
    exists st'. split; [exact E|].
    rewrite R, R1, D, D1, T, T1.
    cbn [reports_from map concat snd]. rewrite filter_app, length_app.
    rewrite <- app_assoc. repeat split; try reflexivity; lia.
Qed.

Lemma number_scenes_concat n gs :
  concat (map content (number_scenes n gs)) = concat (map snd gs).
Proof. rewrite number_scenes_content. reflexivity. Qed.

Lemma reports_from_index n scs :
  map Pacing.r_index (reports_from n scs) = seq (n + 1) (length scs).
Proof.
  revert n; induction scs as [|sc scs IH]; intros n; simpl; [reflexivity|].
  rewrite IH. replace (n + 1 + 1) with (S (n + 1)) by lia. reflexivity.
Qed.

(** The analysis of [scene_pacing_and_distribution] never raises: every
    scene carries its index.  It gives one entry per scene, numbered
    1..k in order.  In each scene it counts as dialogue the lines that
    satisfy [is_dialogue] and as action the lines that satisfy
    [is_action] but not [is_dialogue] (dialogue wins the overlap, and a
    character cue is neither).  The total of dialogue lines is the sum of
    the per-character counts and the number of dialogue lines inside
    scenes. *)
Theorem pacing_analysis_exact (lines : list str) :
  exists st,
    Pacing.analyse (segment_scenes lines) Pacing.init = Ok st
    /\ Pacing.scene_reports st = reports_from 0 (segment_scenes lines)
    /\ map Pacing.r_index (Pacing.scene_reports st)
       = seq 1 (length (filter is_scene_heading lines))
    /\ Pacing.all_dialogue_lines st
       = length (filter is_dialogue (concat (map content (segment_scenes lines))))
    /\ counter_total (Pacing.all_character_lines st)
       = Pacing.all_dialogue_lines st.
Proof.
  rewrite segment_scenes_spec.
  pose proof (split_at_headings_spec lines) as S.
  destruct (split_at_headings lines) as [pre gs]. destruct S as (_ & S & _).
  cbn [snd].
  destruct (pacing_analyse_numbered gs 0 Pacing.init) as (st & E & R & D & T).
  cbn [Pacing.init Pacing.scene_reports Pacing.all_dialogue_lines
       Pacing.all_character_lines app Nat.add] in R, D, T.
  change (counter_total []) with 0 in T. cbn [Nat.add] in T.
  exists st. split; [exact E|]. split; [exact R|].
  rewrite R, reports_from_index, number_scenes_length, number_scenes_concat,
    <- S, length_map.
  repeat split; [exact D | rewrite T, D; reflexivity].
Qed.

(** ** Text before the first scene heading *)

Lemma split_at_headings_prefix pre rest :
  no_heading pre ->
  snd (split_at_headings (pre ++ rest)) = snd (split_at_headings rest).
Proof.
  induction pre as [|l pre IH]; intros H; [reflexivity|].
  inversion H as [|? ? Hl Hp]; subst.
  cbn [app split_at_headings].
  destruct (split_at_headings (pre ++ rest)) as [p gs] eqn:E.
  rewrite Hl. cbn [snd]. rewrite <- (IH Hp). reflexivity.
Qed.

(** Lines before the first scene heading have no influence on the pacing
    and the readability analysis: with or without them the segmentation
    gives the same scenes, hence the same analyses. *)
Theorem text_before_first_heading_ignored
  (below_0_3 : CharacterTracking.quotient -> bool) (pre rest : list str) :
  no_heading pre ->
  segment_scenes (pre ++ rest) = segment_scenes rest
  /\ Pacing.analyse (segment_scenes (pre ++ rest)) Pacing.init
     = Pacing.analyse (segment_scenes rest) Pacing.init
  /\ Readability.analyse below_0_3 (segment_scenes (pre ++ rest))
       Readability.init
     = Readability.analyse below_0_3 (segment_scenes rest) Readability.init.
Proof.
  intros H.
  assert (E : segment_scenes (pre ++ rest) = segment_scenes rest).
  { rewrite !segment_scenes_spec, split_at_headings_prefix by exact H.
    reflexivity. }
  rewrite E. repeat split; reflexivity.
Qed.

Lemma text_before_first_heading_ignored_witness :
  segment_scenes ([ "SARAH" : str; "Hello there." : str ]
                  ++ [ "INT. ROOM - DAY" : str; "MARK" : str ])
  = segment_scenes [ "INT. ROOM - DAY" : str; "MARK" : str ].
Proof.
  apply (text_before_first_heading_ignored (fun _ => false)
           [ "SARAH" : str; "Hello there." : str ]
           [ "INT. ROOM - DAY" : str; "MARK" : str ]).
  repeat constructor.
Defined.

(** The counter and the scenes of the segmentation. *)
Lemma scene_counts_agree_lemma lines :
  scene_counter (segment lines) = length (filter is_scene_heading lines)
  /\ length (scenes (segment lines)) = length (filter is_scene_heading lines).
Proof.
  split.
  - unfold segment, seg_close. cbn [scene_counter].
    rewrite seg_fold_counter. reflexivity.
  - change (scenes (segment lines)) with (segment_scenes lines).
    rewrite segment_scenes_spec, number_scenes_length.
    pose proof (split_at_headings_spec lines) as S.
    destruct (split_at_headings lines) as [pre gs]. destruct S as (_ & S & _).
    cbn [snd]. rewrite <- S, length_map. reflexivity.
Qed.

Lemma pacing_analysis_exact_lemma lines :
  exists st,
    Pacing.analyse (segment_scenes lines) Pacing.init = Ok st
    /\ Pacing.scene_reports st = reports_from 0 (segment_scenes lines).
Proof.
  rewrite segment_scenes_spec.
  destruct (pacing_analyse_numbered (snd (split_at_headings lines)) 0 Pacing.init)
    as (st & E & R & _).
  exists st. split; [exact E | exact R].
Qed.

(** ** scene_pacing_and_distribution: the report *)

Section PacingReportFacts.

Variable bar_and_rate : CharacterTracking.percent -> str.

Lemma ill_paced_after_some p rest :
  ill_paced_after (Some p) rest
  = existsb
      (fun ps : Pacing.scene_report * Pacing.scene_report =>
         4 <=? abs_diff (Pacing.r_quantity (snd ps)) (Pacing.r_quantity (fst ps)))
      (combine (p :: rest) rest).
Proof.
  revert p. induction rest as [|s rest IH]; intros p; [reflexivity|].
  cbn [ill_paced_after combine existsb fst snd]. rewrite IH. reflexivity.
Qed.

Lemma ill_paced_after_none all : ill_paced_after None all = ill_paced all.
Proof.
  destruct all as [|s rest]; [reflexivity|].
  cbn [ill_paced_after orb]. rewrite ill_paced_after_some. reflexivity.
Qed.

(** The comparison loop never indexes out of the list of entries. *)
Lemma pacing_compare_spec all : forall rest i ill,
  rest = skipn i all ->
  pacing_compare all i rest ill
  = Ok (flat_map pacing_block rest,
        ill || ill_paced_after
                 (if i =? 0 then None else nth_error all (i - 1)) rest).
Proof.
  induction rest as [|s rest IH]; intros i ill Hr.
  - simpl. rewrite orb_false_r. reflexivity.
  - destruct (skipn_cons_nth _ _ _ _ Hr) as (Hn & Hs).
    assert (Hi : i < length all) by (apply nth_error_Some; congruence).
    cbn [pacing_compare ill_paced_after flat_map].
    destruct i as [|i].
    + cbn [Nat.ltb Nat.leb Nat.eqb bind].
      rewrite (IH 1 ill Hs). cbn [bind fst snd Nat.eqb Nat.sub].
      rewrite Hn. reflexivity.
    + change (0 <? S i) with true. cbn [Nat.eqb].
      replace (S i - 1) with i by lia.
      destruct (nth_error all i) as [p|] eqn:Ep;
        [|apply nth_error_None in Ep; lia].
      unfold getitem. rewrite Ep. cbn [bind].
      rewrite (IH (S (S i)) _ Hs). cbn [bind fst snd Nat.eqb].
      replace (S (S i) - 1) with (S i) by lia. rewrite Hn.
      destruct (4 <=? abs_diff (Pacing.r_quantity s) (Pacing.r_quantity p));
        rewrite ?orb_true_r, ?orb_false_r; reflexivity.
Qed.

Lemma pacing_distribution_ok total items :
  total <> 0 ->
  pacing_distribution bar_and_rate total items
  = Ok (map (fun kv : str * nat =>
               "    " ++ Str.ljust (fst kv) 12 ++ ": "
               ++ bar_and_rate
                    (CharacterTracking.PercentOf
                       (CharacterTracking.Quot (snd kv) total)))
          items).
Proof.
  intros Ht. induction items as [|[k v] items IH]; [reflexivity|].
  cbn [pacing_distribution map fst snd]. unfold CharacterTracking.true_div.
  apply Nat.eqb_neq in Ht. rewrite Ht. cbn [bind]. rewrite IH. reflexivity.
Qed.

(** [scene_pacing_and_distribution] returns a report for every script:
    no missing key, no index out of range, no division by zero.  The
    report is the two title lines; the scene part (a notice for no or one
    scene, four lines per scene); the verdict, which speaks of a
    significant variation exactly when two adjacent scenes differ by four
    or more counted lines; and the distribution, one line per character
    in order of first appearance, or a notice that there is no
    dialogue. *)
Theorem pacing_report_exact (script : str) :
  exists st,
    Pacing.scan script = Ok st
    /\ scene_pacing_and_distribution bar_and_rate script
       = Ok (Str.join NL
               ([ NL ++ "Scene Pacing Report"; "--------------------" : str ]
                ++ (match Pacing.scene_reports st with
                    | [] => [ "No scenes detected" : str ]
                    | [ _ ] =>
                        ("Only one scene detected" : str)
                        :: flat_map pacing_block (Pacing.scene_reports st)
                    | _ => flat_map pacing_block (Pacing.scene_reports st)
                    end)
                ++ [ if ill_paced (Pacing.scene_reports st)
                     then "Significant variation in scene lengths - Consider breaking up longer scenes" : str
                     else "Scene length distribution is balanced" : str ]
                ++ [ "Dialogue Distribution:" : str;
                     "----------------------" : str ]
                ++ (if Pacing.all_dialogue_lines st =? 0
                    then [ "    No dialogue found in the script." : str ]
                    else
                      map (fun kv : str * nat =>
                             "    " ++ Str.ljust (fst kv) 12 ++ ": "
                             ++ bar_and_rate
                                  (CharacterTracking.PercentOf
                                     (CharacterTracking.Quot (snd kv)
                                        (Pacing.all_dialogue_lines st))))
                        (Pacing.all_character_lines st)))).
Proof.
  destruct (scene_counts_agree_lemma (script_lines script)) as (Hc & Hl).
  destruct (pacing_analysis_exact_lemma (script_lines script)) as (st & E & R).
  exists st. unfold Pacing.scan. split; [exact E|].
  unfold scene_pacing_and_distribution, segment_scenes in *.
  rewrite E. cbn [bind].
  assert (Hk : scene_counter (segment (script_lines script))
               = length (Pacing.scene_reports st)).
  { rewrite R, Hc, <- Hl. clear. generalize 0.
    induction (scenes (segment (script_lines script))) as [|sc scs IH];
      intros n; simpl; [reflexivity|]. rewrite <- IH. reflexivity. }
  unfold pacing_report. rewrite Hk.
  destruct (Pacing.scene_reports st) as [|r1 [|r2 rs]] eqn:Er.
  - cbn [length Nat.eqb bind fst snd andb].
    destruct (Pacing.all_dialogue_lines st =? 0) eqn:Ed.
    + reflexivity.
    + rewrite pacing_distribution_ok by (apply Nat.eqb_neq, Ed). reflexivity.
  - cbn [length Nat.eqb bind fst snd andb].
    destruct (Pacing.all_dialogue_lines st =? 0) eqn:Ed.
    + reflexivity.
    + rewrite pacing_distribution_ok by (apply Nat.eqb_neq, Ed). reflexivity.
  - cbn [length Nat.eqb].
    rewrite (pacing_compare_spec (r1 :: r2 :: rs) (r1 :: r2 :: rs) 0 false eq_refl).
    cbn [bind fst snd Nat.eqb orb]. rewrite ill_paced_after_none.
    change (1 <? S (S (length rs))) with true. rewrite andb_true_r.
    destruct (Pacing.all_dialogue_lines st =? 0) eqn:Ed.
    + reflexivity.
    + rewrite pacing_distribution_ok by (apply Nat.eqb_neq, Ed). reflexivity.
Qed.

End PacingReportFacts.

(** ** character_development_validator: introductions and speakers *)

Lemma intro_mem_In k d :
  CharacterDevelopment.intro_mem k d = true <-> In k (map fst d).
Proof.
  unfold CharacterDevelopment.intro_mem. rewrite existsb_exists. split.
  - intros ([k' n] & Hin & E). apply str_eqb_eq in E. cbn [fst] in E. subst k'.
    apply in_map_iff. exists (k, n). split; [reflexivity | exact Hin].
  - intros Hin. apply in_map_iff in Hin. destruct Hin as ([k' n] & E & Hin).
    cbn [fst] in E. subst k'. exists (k, n). split; [exact Hin|].
    apply str_eqb_refl.
Qed.

Lemma intro_first_cases k n d :
  (CharacterDevelopment.intro_mem k d = true
   /\ CharacterDevelopment.intro_first k n d = d)
  \/ (~ In k (map fst d)
      /\ CharacterDevelopment.intro_first k n d = d ++ [(k, n)]).
Proof.
  unfold CharacterDevelopment.intro_first.
  destruct (CharacterDevelopment.intro_mem k d) eqn:E.
  - left. split; reflexivity.
  - right. split; [|reflexivity]. intros Hin. apply intro_mem_In in Hin.
    congruence.
Qed.

(** Entering a name keeps the keys distinct, keeps every entry, enters
    nothing but [(k, n)], and leaves [k] entered. *)
Lemma intro_first_spec k n d :
  NoDup (map fst d) ->
  NoDup (map fst (CharacterDevelopment.intro_first k n d))
  /\ (forall e, In e d -> In e (CharacterDevelopment.intro_first k n d))
  /\ (forall e, In e (CharacterDevelopment.intro_first k n d) ->
        In e d \/ e = (k, n))
  /\ CharacterDevelopment.intro_mem k (CharacterDevelopment.intro_first k n d)
     = true.
Proof.
  intros Hnd. destruct (intro_first_cases k n d) as [[Hm ->] | [Hn ->]].
  - repeat split; auto.
  - repeat split.
    + rewrite map_app. cbn [map fst].
      apply NoDup_rev in Hnd. rewrite <- (rev_involutive (map fst d ++ [k])).
      apply NoDup_rev. rewrite rev_app_distr. cbn [rev app].
      constructor; [|exact Hnd]. rewrite <- in_rev. exact Hn.
    + intros e He. apply in_or_app. left. exact He.
    + intros e He. apply in_app_or in He. destruct He as [He | [He | []]];
        [left; exact He | right; symmetry; exact He].
    + apply intro_mem_In. rewrite map_app. apply in_or_app. right. left.
      reflexivity.
Qed.

Lemma intro_fold_spec n names : forall d,
  NoDup (map fst d) ->
  let d' := fold_left
              (fun d name => CharacterDevelopment.intro_first (Str.strip name) n d)
              names d in
  NoDup (map fst d')
  /\ (forall e, In e d -> In e d')
  /\ (forall e, In e d' ->
        In e d \/ exists name, In name names /\ e = (Str.strip name, n)).
Proof.
  induction names as [|name names IH]; intros d Hnd; cbn [fold_left].
  - repeat split; auto.
  - destruct (intro_first_spec (Str.strip name) n d Hnd) as (N1 & K1 & O1 & _).
    destruct (IH _ N1) as (N2 & K2 & O2).
    repeat split.
    + exact N2.
    + intros e He. apply K2, K1, He.
    + intros e He. destruct (O2 e He) as [H | (nm & Hnm & ->)].
      * destruct (O1 e H) as [H' | ->]; [left; exact H'|].
        right. exists name. split; [left; reflexivity | reflexivity].
      * right. exists nm. split; [right; exact Hnm | reflexivity].
Qed.

Lemma intro_mem_keep k (d d' : list (str * nat)) :
  (forall e, In e d -> In e d') ->
  CharacterDevelopment.intro_mem k d = true ->
  CharacterDevelopment.intro_mem k d' = true.
Proof.
  intros K H. apply intro_mem_In in H. apply intro_mem_In.
  apply in_map_iff in H. destruct H as (e & E & He).
  apply in_map_iff. exists e. split; [exact E | apply K, He].
Qed.

Lemma speakers_aligned_mono n n' sp sm :
  n <= n' -> speakers_aligned n sp sm -> speakers_aligned n' sp sm.
Proof.
  intros Hn H. unfold speakers_aligned in *.
  induction H as [|kv ks sp sm (E & L1 & L2 & ND & B) H IH]; constructor.
  - repeat split; auto. eapply Forall_impl; [|exact B].
    intros a Ha. cbn beta in Ha. lia.
  - exact IH.
Qed.

Lemma speakers_aligned_add n c sp sm :
  speakers_aligned n sp sm ->
  speakers_aligned n (counter_add c 1 sp)
    (CharacterDevelopment.scene_map_add c n sm).
Proof.
  unfold speakers_aligned.
  induction 1 as [|[k v] [k' ns] sp sm (E & L1 & L2 & ND & B) H IH];
    cbn [counter_add CharacterDevelopment.scene_map_add].
  - constructor; [|constructor]. cbn [fst snd length].
    repeat split; try lia.
    + constructor; [intros []|constructor].
    + constructor; [lia|constructor].
  - cbn [fst snd] in *. subst k'.
    destruct (str_eqb k c).
    + constructor; [|exact H]. cbn [fst snd].
      destruct (existsb (Nat.eqb n) ns) eqn:Ex.
      * repeat split; auto; lia.
      * repeat split.
        -- rewrite length_app. simpl. lia.
        -- rewrite length_app. simpl. lia.
        -- apply NoDup_rev in ND. rewrite <- (rev_involutive (ns ++ [n])).
           apply NoDup_rev. rewrite rev_app_distr. cbn [rev app].
           constructor; [|exact ND]. rewrite <- in_rev. intros Hin.
           assert (existsb (Nat.eqb n) ns = true)
             by (apply existsb_exists; exists n; split;
                 [exact Hin | apply Nat.eqb_refl]).
           congruence.
        -- apply Forall_app. split; [exact B|]. constructor; [lia|constructor].
    + constructor; [|exact IH]. cbn [fst snd]. repeat split; auto.
Qed.

Lemma speakers_aligned_keys n sp sm :
  speakers_aligned n sp sm -> map fst sp = map fst sm.
Proof.
  unfold speakers_aligned.
  induction 1 as [|kv ks sp sm (E & _) H IH]; cbn [map]; [reflexivity|].
  rewrite E, IH. reflexivity.
Qed.

Lemma speakers_aligned_lookup n k sp sm :
  speakers_aligned n sp sm ->
  counter_mem k sp = true ->
  1 <= scene_set_size k sm
  /\ scene_set_size k sm <= counter_get k sp
  /\ scene_set_size k sm <= n + 1.
Proof.
  unfold speakers_aligned, counter_mem.
  induction 1 as [|[k1 v] [k2 ns] sp sm (E & L1 & L2 & ND & B) H IH];
    cbn [existsb fst snd counter_get scene_set_size] in *; [discriminate|].
  subst k2. destruct (str_eqb k1 k); cbn [orb]; [intros _|exact IH].
  repeat split; try assumption.
  replace (n + 1) with (length (seq 0 (S n))) by (rewrite length_seq; lia).
  apply NoDup_incl_length; [exact ND|].
  intros a Ha. apply in_seq. rewrite Forall_forall in B. apply B in Ha. lia.
Qed.

Lemma at_line_here lines i raw p :
  nth_error lines i = Some raw -> at_line lines i p = p raw.
Proof. unfold at_line. intros ->. reflexivity. Qed.

(** One pass of the loop keeps the invariant. *)
Lemma development_step_invariant lines i raw st :
  nth_error lines i = Some raw ->
  development_invariant lines i st ->
  development_invariant lines (S i) (CharacterDevelopment.step i raw st).
Proof.
  intros Hn (ND & In2 & Cue & Al & Sp & Cur).
  assert (In2' : forall k n, In (k, n) (CharacterDevelopment.introduced st) ->
            1 <= n <= S i /\ at_line lines (n - 1) (introduces k) = true).
  { intros k n H. destruct (In2 k n H) as (? & ?). split; [lia | assumption]. }
  assert (CueOld : forall p,
            (forall k, names_cue k raw = true -> p k) ->
            (forall m k, m < i -> at_line lines m (names_cue k) = true -> p k) ->
            forall m k, m < S i -> at_line lines m (names_cue k) = true -> p k).
  { intros p H0 H1 m k Hm Hc. destruct (Nat.eq_dec m i) as [->|Hne].
    - rewrite (at_line_here _ _ _ _ Hn) in Hc. apply H0, Hc.
    - apply (H1 m k); [lia | exact Hc]. }
  unfold CharacterDevelopment.step.
  rewrite is_scene_heading_strip, is_character_name_strip, is_dialogue_strip,
    is_action_strip, strip_idem.
  destruct (is_scene_heading raw) eqn:Eh.
  { (* a scene heading *)
    unfold development_invariant.
    cbn [CharacterDevelopment.introduced CharacterDevelopment.scenes
         CharacterDevelopment.character_speakers CharacterDevelopment.scene_map
         CharacterDevelopment.current_character].
    split; [exact ND|]. split; [exact In2'|].
    split; [|split; [|split; [exact Sp | exact Cur]]].
    - intros m k Hm Hc. destruct (Nat.eq_dec m i) as [->|Hne].
      + rewrite (at_line_here _ _ _ _ Hn) in Hc. unfold names_cue in Hc.
        rewrite Eh in Hc. discriminate Hc.
      + apply Cue; [lia | exact Hc].
    - eapply speakers_aligned_mono; [|exact Al]. lia. }
  destruct (is_character_name raw) eqn:Ec.
  { (* a character cue *)
    destruct (intro_first_spec (Str.strip raw) (i + 1) _ ND) as (N1 & K1 & O1 & M1).
    unfold development_invariant.
    cbn [CharacterDevelopment.introduced CharacterDevelopment.scenes
         CharacterDevelopment.character_speakers CharacterDevelopment.scene_map
         CharacterDevelopment.current_character].
    split; [exact N1|]. split; [|split; [|split; [exact Al|split]]].
    - intros k n H. destruct (O1 _ H) as [H' | E]; [apply In2', H'|].
      injection E as -> ->. split; [lia|].
      replace (i + 1 - 1) with i by lia.
      rewrite (at_line_here _ _ _ _ Hn). unfold introduces, names_cue.
      rewrite Eh, Ec, str_eqb_refl. reflexivity.
    - intros m k Hm Hc. destruct (Nat.eq_dec m i) as [->|Hne].
      + rewrite (at_line_here _ _ _ _ Hn) in Hc. unfold names_cue in Hc.
        rewrite Eh, Ec in Hc. cbn [negb andb] in Hc. apply str_eqb_eq in Hc.
        subst k. apply intro_mem_In in M1. apply in_map_iff in M1.
        destruct M1 as ([k0 n0] & E & Hin). cbn [fst] in E. subst k0.
        exists n0. split; [exact Hin|].
        destruct (O1 _ Hin) as [H' | E'].
        * destruct (In2 _ _ H') as (? & _). lia.
        * injection E' as ->. lia.
      + destruct (Cue m k) as (n & Hin & Hle); [lia | exact Hc |].
        exists n. split; [apply K1, Hin | exact Hle].
    - intros k Hk. eapply intro_mem_keep; [exact K1 | apply Sp, Hk].
    - intros c E. injection E as <-. exact M1. }
  assert (NoCue : forall k, names_cue k raw = true ->
            exists n, In (k, n) (CharacterDevelopment.introduced st) /\ n <= i + 1).
  { intros k Hc. unfold names_cue in Hc. rewrite Ec, andb_false_r in Hc.
    discriminate Hc. }
  destruct (is_dialogue raw && truthy_opt (CharacterDevelopment.current_character st))
    eqn:Ed.
  { (* a dialogue line with a speaker *)
    destruct (CharacterDevelopment.current_character st) as [c|] eqn:Ecur;
      [|rewrite andb_false_r in Ed; discriminate Ed].
    unfold development_invariant.
    cbn [CharacterDevelopment.introduced CharacterDevelopment.scenes
         CharacterDevelopment.character_speakers CharacterDevelopment.scene_map
         CharacterDevelopment.current_character].
    split; [exact ND|]. split; [exact In2'|]. split; [|split; [|split]].
    - intros m k Hm Hc. destruct (Nat.eq_dec m i) as [->|Hne].
      + rewrite (at_line_here _ _ _ _ Hn) in Hc. apply NoCue, Hc.
      + apply Cue; [lia | exact Hc].
    - apply speakers_aligned_add, Al.
    - intros k Hk. rewrite counter_mem_add in Hk.
      apply orb_true_iff in Hk. destruct Hk as [Hk | Hk]; [apply Sp, Hk|].
      apply str_eqb_eq in Hk. subst k. apply Cur. reflexivity.
    - intros c' E. apply Cur, E. }
  destruct (is_action raw) eqn:Ea.
  { (* an action line *)
    destruct (intro_fold_spec (i + 1)
                (Re.findall CharacterDevelopment.NAME_RE (Str.strip raw)) _ ND)
      as (N1 & K1 & O1).
    unfold development_invariant.
    cbn [CharacterDevelopment.introduced CharacterDevelopment.scenes
         CharacterDevelopment.character_speakers CharacterDevelopment.scene_map
         CharacterDevelopment.current_character].
    split; [exact N1|]. split; [|split; [|split; [exact Al|split]]].
    - intros k n H. destruct (O1 _ H) as [H' | (name & Hname & E)];
        [apply In2', H'|].
      injection E as -> ->. split; [lia|].
      replace (i + 1 - 1) with i by lia.
      rewrite (at_line_here _ _ _ _ Hn). unfold introduces, names_in_action.
      rewrite Eh, Ec, Ea. cbn [negb andb].
      apply orb_true_iff. right. apply existsb_exists.
      exists name. split; [exact Hname | apply str_eqb_refl].
    - intros m k Hm Hc. destruct (Nat.eq_dec m i) as [->|Hne].
      + rewrite (at_line_here _ _ _ _ Hn) in Hc.
        destruct (NoCue k Hc) as (n & Hin & Hle).
        exists n. split; [apply K1, Hin | exact Hle].
      + destruct (Cue m k) as (n & Hin & Hle); [lia | exact Hc |].
        exists n. split; [apply K1, Hin | exact Hle].
    - intros k Hk. eapply intro_mem_keep; [exact K1 | apply Sp, Hk].
    - intros c E. eapply intro_mem_keep; [exact K1 | apply Cur, E]. }
  assert (Same : development_invariant lines (S i) st).
  { unfold development_invariant.
    split; [exact ND|]. split; [exact In2'|].
    split; [|split; [exact Al|split; [exact Sp | exact Cur]]].
    intros m k Hm Hc. destruct (Nat.eq_dec m i) as [->|Hne].
    - rewrite (at_line_here _ _ _ _ Hn) in Hc. apply NoCue, Hc.
    - apply Cue; [lia | exact Hc]. }
  destruct (negb (truthy (Str.strip raw))); [|exact Same].
  destruct Same as (S1 & S2 & S3 & S4 & S5 & S6).
  unfold development_invariant.
  cbn [CharacterDevelopment.introduced CharacterDevelopment.scenes
       CharacterDevelopment.character_speakers CharacterDevelopment.scene_map
       CharacterDevelopment.current_character].
  split; [exact S1|]. split; [exact S2|]. split; [exact S3|].
  split; [exact S4|]. split; [exact S5|].
  intros c E. discriminate E.
Qed.

Lemma development_loop_invariant lines : forall rest i st,
  rest = skipn i lines ->
  development_invariant lines i st ->
  development_invariant lines (length lines)
    (CharacterDevelopment.loop i rest st).
Proof.
  induction rest as [|raw rest IH]; intros i st Hr Inv;
    cbn [CharacterDevelopment.loop].
  - assert (length lines <= i).
    { destruct (Nat.le_gt_cases (length lines) i) as [H|H]; [exact H|].
      assert (L : length (skipn i lines) = length lines - i)
        by apply length_skipn.
      rewrite <- Hr in L. simpl in L. lia. }
    destruct Inv as (ND & In2 & Cue & Al & Sp & Cur).
    assert (Hi : forall k n, In (k, n) (CharacterDevelopment.introduced st) ->
              n <= length lines).
    { intros k n H0. destruct (In2 k n H0) as ((_ & _) & Hat).
      unfold at_line in Hat.
      destruct (nth_error lines (n - 1)) eqn:En; [|discriminate Hat].
      assert (n - 1 < length lines) by (apply nth_error_Some; congruence).
      destruct (In2 k n H0) as ((? & _) & _). lia. }
    unfold development_invariant.
    split; [exact ND|]. split; [|split; [|split; [exact Al|split; [exact Sp | exact Cur]]]].
    + intros k n H0. destruct (In2 k n H0) as ((? & _) & Hat).
      split; [split; [assumption | apply (Hi k), H0] | exact Hat].
    + intros m k Hm Hc. apply Cue; [lia | exact Hc].
  - destruct (skipn_cons_nth _ _ _ _ Hr) as (Hn & Hs).
    apply (IH (S i) _ Hs). apply development_step_invariant; assumption.
Qed.

Lemma development_scan_invariant lines :
  development_invariant lines (length lines)
    (CharacterDevelopment.scan_lines lines).
Proof.
  unfold CharacterDevelopment.scan_lines.
  apply development_loop_invariant; [reflexivity|].
  unfold development_invariant, CharacterDevelopment.init.
  cbn [CharacterDevelopment.introduced CharacterDevelopment.scenes
       CharacterDevelopment.character_speakers CharacterDevelopment.scene_map
       CharacterDevelopment.current_character map].
  split; [constructor|]. split; [intros k n []|].
  split; [intros m k Hm; lia|]. split; [constructor|].
  split; [intros k Hk; discriminate Hk | intros c Hc; discriminate Hc].
Qed.

(** The introductions of [character_development_validator]: no name is
    entered twice; the line recorded for a name exists and either is a
    cue for that name or is an action line in which the pattern of names
    finds it; and every cue has its name entered, at that cue's line or
    before. *)
Theorem development_introductions (lines : list str) :
  let st := CharacterDevelopment.scan_lines lines in
  NoDup (map fst (CharacterDevelopment.introduced st))
  /\ (forall k n, In (k, n) (CharacterDevelopment.introduced st) ->
        1 <= n <= length lines
        /\ at_line lines (n - 1) (introduces k) = true)
  /\ (forall m k, at_line lines m (names_cue k) = true ->
        exists n, In (k, n) (CharacterDevelopment.introduced st) /\ n <= m + 1).
Proof.
  destruct (development_scan_invariant lines) as (ND & In2 & Cue & _).
  cbv zeta. split; [exact ND|]. split; [exact In2|].
  intros m k Hc. apply Cue; [|exact Hc].
  unfold at_line in Hc. destruct (nth_error lines m) eqn:En; [|discriminate Hc].
  apply nth_error_Some. congruence.
Qed.

Lemma development_introductions_witness :
  In ("BOB" : str, 2)
    (CharacterDevelopment.introduced
       (CharacterDevelopment.scan_lines
          [ "INT. ROOM - DAY" : str; "BOB enters the room." : str;
            "BOB" : str; "Hello there." : str ]))
  /\ at_line
       [ "INT. ROOM - DAY" : str; "BOB enters the room." : str;
         "BOB" : str; "Hello there." : str ]
       (2 - 1) (introduces "BOB") = true.
Proof.
  assert (H : In ("BOB" : str, 2)
                (CharacterDevelopment.introduced
                   (CharacterDevelopment.scan_lines
                      [ "INT. ROOM - DAY" : str; "BOB enters the room." : str;
                        "BOB" : str; "Hello there." : str ])))
    by (vm_compute; left; reflexivity).
  split; [exact H|].
  destruct (development_introductions
              [ "INT. ROOM - DAY" : str; "BOB enters the room." : str;
                "BOB" : str; "Hello there." : str ]) as (_ & I & _).
  exact (proj2 (I _ _ H)).
Defined.

(** The speakers of [character_development_validator]: the counter of
    speakers and the map of scenes have the same keys in the same order,
    so the report's read of [scene_map[char]] never inserts a key; every
    speaker has been introduced, so the report never lists a speaker as
    never speaking; and the number of scenes reported for a speaker is at
    least one, at most the number of the speaker's lines, and at most one
    more than the number of scene headings. *)
Theorem development_speakers (lines : list str) (k : str) :
  let st := CharacterDevelopment.scan_lines lines in
  map fst (CharacterDevelopment.character_speakers st)
  = map fst (CharacterDevelopment.scene_map st)
  /\ (counter_mem k (CharacterDevelopment.character_speakers st) = true ->
      CharacterDevelopment.intro_mem k (CharacterDevelopment.introduced st) = true
      /\ 1 <= scene_set_size k (CharacterDevelopment.scene_map st)
      /\ scene_set_size k (CharacterDevelopment.scene_map st)
         <= counter_get k (CharacterDevelopment.character_speakers st)
      /\ scene_set_size k (CharacterDevelopment.scene_map st)
         <= length (filter is_scene_heading lines) + 1).
Proof.
  destruct (development_scan_invariant lines) as (_ & _ & _ & Al & Sp & _).
  cbv zeta. split; [eapply speakers_aligned_keys, Al|].
  intros Hk. split; [apply Sp, Hk|].
  destruct (speakers_aligned_lookup _ k _ _ Al Hk) as (L1 & L2 & L3).
  split; [exact L1|]. split; [exact L2|].
  unfold CharacterDevelopment.scan_lines in L3 at 2.
  rewrite development_loop_scenes in L3. exact L3.
Qed.

Lemma development_speakers_witness :
  counter_mem "BOB"
    (CharacterDevelopment.character_speakers
       (CharacterDevelopment.scan_lines
          [ "INT. ROOM - DAY" : str; "BOB" : str; "Hello there." : str ]))
  = true
  /\ 1 <= scene_set_size "BOB"
            (CharacterDevelopment.scene_map
               (CharacterDevelopment.scan_lines
                  [ "INT. ROOM - DAY" : str; "BOB" : str; "Hello there." : str ])).
Proof.
  assert (H : counter_mem "BOB"
                (CharacterDevelopment.character_speakers
                   (CharacterDevelopment.scan_lines
                      [ "INT. ROOM - DAY" : str; "BOB" : str;
                        "Hello there." : str ])) = true)
    by (vm_compute; reflexivity).
  split; [exact H|].
  destruct (development_speakers
              [ "INT. ROOM - DAY" : str; "BOB" : str; "Hello there." : str ]
              "BOB") as (_ & I).
  exact (proj1 (proj2 (I H))).
Defined.

(** ** extract_title *)

Lemma splitlines_from_no_break s : forall w,
  forallb (fun c => negb (is_linebreak c)) w = true ->
  Forall (fun l => forallb (fun c => negb (is_linebreak c)) l = true)
    (splitlines_from w s).
Proof.
  induction s as [s IH] using (induction_ltof1 _ (@length ascii)).
  unfold ltof in IH.
  intros w Hw. destruct s as [|c r]; cbn [splitlines_from].
  - destruct w; constructor; [exact Hw | constructor].
  - destruct (Ascii.eqb c "013"%char).
    + destruct r as [|c' r'].
      * constructor; [exact Hw | constructor].
      * destruct (Ascii.eqb c' "010"%char); constructor; try exact Hw;
          apply IH; try reflexivity; simpl; lia.
    + destruct (is_linebreak c) eqn:Eb.
      * constructor; [exact Hw|]. apply IH; [simpl; lia | reflexivity].
      * apply IH; [simpl; lia|]. rewrite forallb_app, Hw. cbn [forallb].
        rewrite Eb. reflexivity.
Qed.

Lemma extract_title_from_spec lines :
  (Forall (fun l => Str.strip l = []) lines
   /\ extract_title_from lines = "Untitled Script")
  \/ exists pre line rest,
       lines = pre ++ line :: rest
       /\ Forall (fun l => Str.strip l = []) pre
       /\ truthy (Str.strip line) = true
       /\ extract_title_from lines = Str.strip line.
Proof.
  induction lines as [|l lines IH]; cbn [extract_title_from].
  - left. split; [constructor | reflexivity].
  - destruct (truthy (Str.strip l)) eqn:E.
    + right. exists [], l, lines.
      split; [reflexivity|]. split; [constructor|]. split; [exact E | reflexivity].
    + assert (Hl : Str.strip l = [])
        by (destruct (Str.strip l); [reflexivity | discriminate E]).
      destruct IH as [[Hall Heq] | (pre & line & rest & -> & Hpre & Ht & Heq)].
      * left. split; [constructor; assumption | exact Heq].
      * right. exists (l :: pre), line, rest.
        split; [reflexivity|]. split; [constructor; assumption|].
        split; [exact Ht | exact Heq].
Qed.

(** [extract_title] always returns a usable title: it is not empty, has no
    white space at either end, and holds no line break.  It is the first
    line of [script.splitlines()] with a character that is not white
    space, trimmed; the default is returned only when there is no such
    line. *)
Theorem extract_title_spec (script : str) :
  truthy (extract_title script) = true
  /\ clean (extract_title script)
  /\ forallb (fun c => negb (is_linebreak c)) (extract_title script) = true
  /\ ((Forall (fun l => Str.strip l = []) (splitlines script)
       /\ extract_title script = "Untitled Script")
      \/ exists pre line rest,
           splitlines script = pre ++ line :: rest
           /\ Forall (fun l => Str.strip l = []) pre
           /\ truthy (Str.strip line) = true
           /\ extract_title script = Str.strip line).
Proof.
  unfold extract_title.
  pose proof (splitlines_from_no_break script [] eq_refl) as NB.
  fold (splitlines script) in NB.
  destruct (extract_title_from_spec (splitlines script))
    as [[Hall Heq] | (pre & line & rest & Hsp & Hpre & Ht & Heq)].
  - rewrite Heq. split; [reflexivity|]. split; [split; reflexivity|].
    split; [reflexivity|]. left. split; [exact Hall | reflexivity].
  - rewrite Heq. split; [exact Ht|]. split; [apply strip_clean|]. split.
    + rewrite Hsp in NB. apply Forall_app in NB. destruct NB as (_ & NB).
      apply Forall_inv in NB. rewrite forallb_forall in NB |- *.
      intros c Hc. apply NB, in_strip, Hc.
    + right. exists pre, line, rest.
      split; [exact Hsp|]. split; [exact Hpre|]. split; [exact Ht | reflexivity].
Qed.

Lemma strip_blank l : forallb Char.isspace l = true -> Str.strip l = [].
Proof.
  intros H. unfold Str.strip. rewrite (lstrip_all_spaces l H). reflexivity.
Qed.

Lemma blank_lines_of_blank s : forall w,
  forallb Char.isspace w = true -> forallb Char.isspace s = true ->
  Forall (fun l => forallb Char.isspace l = true) (splitlines_from w s).
Proof.
  induction s as [s IH] using (induction_ltof1 _ (@length ascii)).
  unfold ltof in IH.
  intros w Hw Hs. destruct s as [|c r]; cbn [splitlines_from].
  - destruct w; constructor; [exact Hw | constructor].
  - cbn [forallb] in Hs. apply andb_true_iff in Hs. destruct Hs as (Hc & Hr).
    destruct (Ascii.eqb c "013"%char).
    + destruct r as [|c' r'].
      * constructor; [exact Hw | constructor].
      * cbn [forallb] in Hr. apply andb_true_iff in Hr.
        destruct Hr as (Hc' & Hr').
        destruct (Ascii.eqb c' "010"%char); constructor; try exact Hw.
        -- apply IH; [simpl; lia | reflexivity | exact Hr'].
        -- apply IH; [simpl; lia | reflexivity |].
           cbn [forallb]. rewrite Hc', Hr'. reflexivity.
    + destruct (is_linebreak c).
      * constructor; [exact Hw|].
        apply IH; [simpl; lia | reflexivity | exact Hr].
      * apply IH; [simpl; lia | | exact Hr].
        rewrite forallb_app, Hw. cbn [forallb]. rewrite Hc. reflexivity.
Qed.

(** [extract_title] of a script that is empty or holds white space only
    is the default title. *)
Theorem extract_title_blank (script : str) :
  blank_text script -> extract_title script = "Untitled Script".
Proof.
  intros Hb. unfold extract_title.
  pose proof (blank_lines_of_blank script [] eq_refl Hb) as B.
  fold (splitlines script) in B.
  induction (splitlines script) as [|l ls IH]; [reflexivity|].
  cbn [extract_title_from]. inversion B as [|? ? Hl Hls]; subst.
  rewrite (strip_blank l Hl). cbn [truthy]. apply IH, Hls.
Qed.

Lemma extract_title_blank_witness :
  extract_title ((" " : str) ++ NL ++ ("  " : str)) = "Untitled Script".
Proof. apply extract_title_blank. reflexivity. Defined.

(** ** readability_analysis: what is flagged *)

Lemma starts_with_run_short n : forall bs,
  length bs < n -> starts_with_run n bs = false.
Proof.
  induction n as [|n IH]; intros bs H; [lia|].
  destruct bs as [|b r]; [reflexivity|]. cbn [starts_with_run].
  rewrite IH by (simpl in H; lia). apply andb_false_r.
Qed.

Lemma has_run_short n bs : length bs < n -> has_run n bs = false.
Proof.
  induction bs as [|b r IH]; intros H; cbn [has_run];
    rewrite starts_with_run_short by exact H; [reflexivity|].
  apply IH. simpl in H. lia.
Qed.

Lemma repeat_true_snoc c (r : list bool) :
  repeat true c ++ true :: r = repeat true (S c) ++ r.
Proof.
  induction c as [|c IH]; [reflexivity|].
  cbn [repeat app] in *. rewrite IH. reflexivity.
Qed.

(** The counter of consecutive long lines reaches five exactly when five
    long lines stand in a row. *)
Lemma run_reached_has_run bs : forall c,
  c < 5 -> run_reached c bs = has_run 5 (repeat true c ++ bs).
Proof.
  induction bs as [|b r IH]; intros c Hc.
  - rewrite app_nil_r, has_run_short by (rewrite repeat_length; exact Hc).
    reflexivity.
  - cbn [run_reached]. destruct b.
    + rewrite repeat_true_snoc. destruct (Nat.eq_dec c 4) as [->|Hne].
      * reflexivity.
      * replace (5 <=? c + 1) with false
          by (symmetry; apply Nat.leb_gt; lia).
        cbn [orb]. replace (c + 1) with (S c) by lia. apply IH. lia.
    + rewrite (IH 0) by lia. cbn [repeat app].
      destruct c as [|[|[|[|[|c]]]]]; try lia; reflexivity.
Qed.

Lemma readability_fold_step content : forall ll c b,
  Readability.long_lines
    (fold_left Readability.step content (Readability.mk_line_state ll c b))
  = ll + length (filter long_line content)
  /\ (1 <=? Readability.long_line_blocks
              (fold_left Readability.step content
                 (Readability.mk_line_state ll c b)))
     = (1 <=? b) || run_reached c (map long_line content).
Proof.
  induction content as [|x r IH]; intros ll c b; cbn [fold_left filter map run_reached].
  - cbn [Readability.long_lines Readability.long_line_blocks length].
    rewrite orb_false_r. split; [lia | reflexivity].
  - unfold Readability.step at 2 4.
    cbn [Readability.long_lines Readability.consecutive_long
         Readability.long_line_blocks].
    fold (long_line x). destruct (long_line x).
    + cbn [Readability.long_lines Readability.consecutive_long
           Readability.long_line_blocks].
      destruct (5 <=? c + 1);
        cbn [Readability.long_lines Readability.consecutive_long
             Readability.long_line_blocks];
        destruct (IH (ll + 1) (c + 1) (b + 1)) as (L1 & B1);
        destruct (IH (ll + 1) (c + 1) b) as (L2 & B2).
      * rewrite L1, B1. cbn [length].
        replace (1 <=? b + 1) with true by (symmetry; apply Nat.leb_le; lia).
        rewrite orb_true_r. split; [lia | reflexivity].
      * rewrite L2, B2. cbn [length orb]. split; [lia | reflexivity].
    + cbn [Readability.long_lines Readability.consecutive_long
           Readability.long_line_blocks].
      change (5 <=? 0) with false. cbv iota. exact (IH ll 0 b).
Qed.

Section ReadabilityFacts.

Variable below_0_3 : CharacterTracking.quotient -> bool.

Lemma readability_scene_step_ok st h c n :
  Readability.scene_step below_0_3 st (mk_scene h c (Some n))
  = Ok (Readability.mk_state
          (Readability.total_long_lines st + length (filter long_line c))
          (Readability.web st
           ++ map (scene_flag " too long for short-form pacing ")
                (filter too_long_for_web [mk_scene h c (Some n)]))
          (Readability.tv st
           ++ map (scene_flag " has dense narration blocks ")
                (filter dense_scene [mk_scene h c (Some n)]))
          (Readability.stage st
           ++ map (scene_flag " is action-heavy for stage format ")
                (filter (sparse_for_stage below_0_3) [mk_scene h c (Some n)]))).
Proof.
  unfold Readability.scene_step, Pacing.get_index, CharacterTracking.true_div.
  cbn [content index filter].
  destruct (readability_fold_step c (Readability.total_long_lines st) 0 0)
    as (L & B).
  pose proof (run_reached_has_run (map long_line c) 0) as RH.
  cbn [repeat app] in RH.
  rewrite L, B. change (1 <=? 0) with false. cbn [orb].
  unfold too_long_for_web, dense_scene, dense_block, sparse_for_stage.
  cbn [content]. rewrite <- RH by lia.
  replace (Nat.max (length c) 1 =? 0) with false
    by (symmetry; apply Nat.eqb_neq; lia).
  destruct (15 <? length c); cbn [bind];
    destruct (below_0_3
                (CharacterTracking.Quot (Readability.dialogue_lines c)
                   (Nat.max (length c) 1))); cbn [bind];
    destruct (run_reached 0 (map long_line c)); cbn [bind map];
    rewrite ?app_nil_r; reflexivity.
Qed.

Lemma readability_analyse_numbered gs : forall n st,
  Readability.analyse below_0_3 (number_scenes n gs) st
  = Ok (Readability.mk_state
          (Readability.total_long_lines st
           + length (filter long_line (concat (map snd gs))))
          (Readability.web st
           ++ map (scene_flag " too long for short-form pacing ")
                (filter too_long_for_web (number_scenes n gs)))
          (Readability.tv st
           ++ map (scene_flag " has dense narration blocks ")
                (filter dense_scene (number_scenes n gs)))
          (Readability.stage st
           ++ map (scene_flag " is action-heavy for stage format ")
                (filter (sparse_for_stage below_0_3) (number_scenes n gs)))).
Proof.
  induction gs as [|[h c] gs IH]; intros n st;
    cbn [number_scenes Readability.analyse].
  - cbn [map concat filter length]. rewrite !app_nil_r, Nat.add_0_r.
    destruct st; reflexivity.
  - rewrite readability_scene_step_ok. cbn [bind]. rewrite IH.
    cbn [Readability.total_long_lines Readability.web Readability.tv
         Readability.stage map concat snd].
    rewrite filter_app, length_app, Nat.add_assoc.
    set (sc := mk_scene (Some (Str.strip h)) c (Some (n + 1))).
    change (sc :: number_scenes (n + 1) gs)
      with ([sc] ++ number_scenes (n + 1) gs).
    rewrite !filter_app, !map_app, <- !app_assoc. reflexivity.
Qed.

(** The analysis of [readability_analysis] never raises: every scene it
    reads carries its index, and the divisor [max(scene_len, 1)] is never
    zero.  The long lines counted are the lines of more than 100
    characters inside scenes.  A scene is flagged for the web when it has
    more than 15 content lines, for TV exactly when five of its content
    lines in a row have more than 100 characters, and for the stage when
    the rate of its non-blank lines that are neither heading nor cue is
    below 0.3; each list of flags is in scene order. *)
Theorem readability_analysis_exact (lines : list str) :
  exists st,
    Readability.analyse below_0_3 (segment_scenes lines) Readability.init
    = Ok st
    /\ Readability.total_long_lines st
       = length (filter long_line
                   (concat (map content (segment_scenes lines))))
    /\ Readability.web st
       = map (scene_flag " too long for short-form pacing ")
           (filter too_long_for_web (segment_scenes lines))
    /\ Readability.tv st
       = map (scene_flag " has dense narration blocks ")
           (filter dense_scene (segment_scenes lines))
    /\ Readability.stage st
       = map (scene_flag " is action-heavy for stage format ")
           (filter (sparse_for_stage below_0_3) (segment_scenes lines)).
Proof.
  rewrite segment_scenes_spec, readability_analyse_numbered.
  eexists. split; [reflexivity|].
  cbn [Readability.total_long_lines Readability.web Readability.tv
       Readability.stage Readability.init app Nat.add].
  rewrite number_scenes_concat. repeat split; reflexivity.
Qed.

(** [readability_analysis] returns a report for every script, and the
    report has the line that no long line was found exactly when no
    content line of a scene has more than 100 characters. *)
Theorem readability_report_total (script : str) :
  exists st,
    Readability.scan below_0_3 script = Ok st
    /\ Readability.readability_analysis below_0_3 script
       = Ok (Str.join NL (Readability.report st))
    /\ last (Readability.report st) []
       = (let body :=
            concat (map content (segment_scenes (script_lines script))) in
          if existsb long_line body
          then "    - " ++ Str.of_nat (length (filter long_line body))
               ++ " line(s) exceed 100 characters (may reduce readability)"
          else "    - " ++ CHECK_MARK ++ " No overly long lines found").
Proof.
  unfold Readability.readability_analysis, Readability.scan.
  rewrite segment_scenes_spec, readability_analyse_numbered.
  eexists. split; [reflexivity|]. cbn [bind]. split; [reflexivity|].
  rewrite number_scenes_concat.
  set (body := concat (map snd (snd (split_at_headings (script_lines script))))).
  unfold Readability.report.
  cbn [Readability.total_long_lines Readability.init Nat.add].
  rewrite !app_assoc, last_last.
  assert (E : (length (filter long_line body) =? 0)
              = negb (existsb long_line body)).
  { clear. induction body as [|x r IH]; [reflexivity|].
    cbn [filter existsb]. destruct (long_line x); [reflexivity | exact IH]. }
  cbv zeta. fold body.
  rewrite E. destruct (existsb long_line body); reflexivity.
Qed.

End ReadabilityFacts.

(** ** line_write *)

Lemma line_write_loop_outcome inputs : forall lines,
  match snd (line_write_loop inputs lines) with
  | Returned raw_text =>
      exists pre q rest,
        inputs = pre ++ q :: rest
        /\ Str.strip q = "q"
        /\ raw_text = Str.join NL (lines ++ filter accepted_line pre)
        /\ 2 <= length (lines ++ filter accepted_line pre)
        /\ (forall pre' q' rest',
              pre = pre' ++ q' :: rest' -> Str.strip q' = "q" ->
              length (lines ++ filter accepted_line pre') <= 1)
  | Loops =>
      forall pre q rest,
        inputs = pre ++ q :: rest -> Str.strip q = "q" ->
        length (lines ++ filter accepted_line pre) <= 1
  end.
Proof.
  induction inputs as [|text inputs IH]; intros lines; cbn [line_write_loop].
  - cbn [snd]. intros [|? ?] q rest H; discriminate H.
  - destruct (str_eqb (Str.strip text) "q") eqn:Eq; cbn [andb].
    + destruct (length lines <=? 1) eqn:El.
      * specialize (IH lines).
        destruct (line_write_loop inputs lines) as [trace out]. cbn [snd] in *.
        assert (Ha : accepted_line text = false)
          by (unfold accepted_line; rewrite Eq; reflexivity).
        destruct out as [raw|].
        -- destruct IH as (pre & q & rest & -> & Hq & Hr & Hl & Hf).
           exists (text :: pre), q, rest. cbn [filter]. rewrite Ha.
           split; [reflexivity|]. split; [exact Hq|]. split; [exact Hr|].
           split; [exact Hl|].
           intros [|t pre'] q' rest' H Hq'; injection H as -> ->.
           ++ cbn [filter]. rewrite app_nil_r. apply Nat.leb_le, El.
           ++ cbn [filter]. rewrite Ha. eapply Hf; [reflexivity | exact Hq'].
        -- intros [|t pre] q rest H Hq; injection H as -> ->.
           ++ cbn [filter]. rewrite app_nil_r. apply Nat.leb_le, El.
           ++ cbn [filter]. rewrite Ha. eapply IH; [reflexivity | exact Hq].
      * cbn [snd]. exists [], text, inputs. cbn [filter app].
        rewrite app_nil_r. apply str_eqb_eq in Eq. apply Nat.leb_gt in El.
        split; [reflexivity|]. split; [exact Eq|]. split; [reflexivity|].
        split; [lia|]. intros [|? ?] q' rest' H; discriminate H.
    + destruct (length text <? 5) eqn:E5.
      * specialize (IH lines).
        destruct (line_write_loop inputs lines) as [trace out]. cbn [snd] in *.
        assert (Ha : accepted_line text = false).
        { unfold accepted_line. apply Nat.ltb_lt in E5.
          replace (5 <=? length text) with false
            by (symmetry; apply Nat.leb_gt; exact E5).
          apply andb_false_r. }
        destruct out as [raw|].
        -- destruct IH as (pre & q & rest & -> & Hq & Hr & Hl & Hf).
           exists (text :: pre), q, rest. cbn [filter]. rewrite Ha.
           split; [reflexivity|]. split; [exact Hq|]. split; [exact Hr|].
           split; [exact Hl|].
           intros [|t pre'] q' rest' H Hq'; injection H as -> ->.
           ++ apply str_eqb_neq in Eq. contradiction.
           ++ cbn [filter]. rewrite Ha. eapply Hf; [reflexivity | exact Hq'].
        -- intros [|t pre] q rest H Hq; injection H as -> ->.
           ++ apply str_eqb_neq in Eq. contradiction.
           ++ cbn [filter]. rewrite Ha. eapply IH; [reflexivity | exact Hq].
      * specialize (IH (lines ++ [text])).
        destruct (line_write_loop inputs (lines ++ [text])) as [trace out].
        cbn [snd] in *.
        assert (Ha : accepted_line text = true).
        { unfold accepted_line. rewrite Eq. apply Nat.ltb_ge in E5.
          apply Nat.leb_le in E5. rewrite E5. reflexivity. }
        destruct out as [raw|].
        -- destruct IH as (pre & q & rest & -> & Hq & Hr & Hl & Hf).
           exists (text :: pre), q, rest. cbn [filter]. rewrite Ha.
           rewrite <- app_assoc in Hr, Hl.
           split; [reflexivity|]. split; [exact Hq|]. split; [exact Hr|].
           split; [exact Hl|].
           intros [|t pre'] q' rest' H Hq'; injection H as -> ->.
           ++ apply str_eqb_neq in Eq. contradiction.
           ++ cbn [filter]. rewrite Ha.
              specialize (Hf pre' q' rest' eq_refl Hq').
              rewrite <- app_assoc in Hf. exact Hf.
        -- intros [|t pre] q rest H Hq; injection H as -> ->.
           ++ apply str_eqb_neq in Eq. contradiction.
           ++ cbn [filter]. rewrite Ha.
              specialize (IH pre q rest eq_refl Hq).
              rewrite <- app_assoc in IH. exact IH.
Qed.

Lemma join_length_two (lines : list str) :
  2 <= length lines -> Forall (fun l => 5 <= length l) lines ->
  11 <= length (Str.join NL lines).
Proof.
  destruct lines as [|a [|b r]]; try (simpl; lia). intros _ H.
  inversion H as [|? ? Ha H']; subst. inversion H' as [|? ? Hb _]; subst.
  change (Str.join NL (a :: b :: r)) with (a ++ NL ++ Str.join NL (b :: r)).
  rewrite !length_app.
  assert (5 <= length (Str.join NL (b :: r))).
  { destruct r as [|c r]; [exact Hb|].
    change (Str.join NL (b :: c :: r)) with (b ++ NL ++ Str.join NL (c :: r)).
    rewrite length_app. cbn beta in *. lia. }
  change (length NL) with 1. cbn beta in *. lia.
Qed.

(** Two ways of cutting one list at an element: one cut is at or before
    the other. *)
Lemma two_cuts {A : Type} (p q : list A) (x y : A) (r s : list A) :
  p ++ x :: r = q ++ y :: s ->
  (p = q /\ x = y /\ r = s)
  \/ (exists mid, q = p ++ x :: mid)
  \/ (exists mid, p = q ++ y :: mid).
Proof.
  revert q. induction p as [|a p IH]; intros [|b q] H; cbn [app] in H.
  - injection H as -> ->. left. repeat split; reflexivity.
  - injection H as -> ->. right. left. exists q. reflexivity.
  - injection H as -> <-. right. right. exists p. reflexivity.
  - injection H as -> H. destruct (IH q H) as [(-> & -> & ->) | [(mid & ->) | (mid & ->)]].
    + left. repeat split; reflexivity.
    + right. left. exists mid. reflexivity.
    + right. right. exists mid. reflexivity.
Qed.

(** The quit command that ends the run is determined by the typed
    lines: it is the first one with two kept lines before it. *)
Lemma line_write_end_unique (inputs pre1 rest1 pre2 rest2 : list str)
  (x1 x2 : str) :
  inputs = pre1 ++ x1 :: rest1 -> inputs = pre2 ++ x2 :: rest2 ->
  Str.strip x1 = "q" -> Str.strip x2 = "q" ->
  2 <= length (filter accepted_line pre1) ->
  2 <= length (filter accepted_line pre2) ->
  (forall pre' q' rest',
     pre1 = pre' ++ q' :: rest' -> Str.strip q' = "q" ->
     length (filter accepted_line pre') <= 1) ->
  (forall pre' q' rest',
     pre2 = pre' ++ q' :: rest' -> Str.strip q' = "q" ->
     length (filter accepted_line pre') <= 1) ->
  pre1 = pre2.
Proof.
  intros E1 E2 Q1 Q2 L1 L2 F1 F2. rewrite E1 in E2.
  destruct (two_cuts _ _ _ _ _ _ E2) as [(H & _) | [(mid & H) | (mid & H)]].
  - exact H.
  - specialize (F2 pre1 x1 mid H Q1). lia.
  - specialize (F1 pre2 x2 mid H Q2). lia.
Qed.

(** How [line_write] ends on the lines typed.  It returns the text
    [raw_text] exactly when the typed lines hold a quit command (a line
    that is [q] once trimmed) with two or more kept lines before it, the
    first such command being the one that ends the run, and [raw_text] is
    the kept lines before that command joined by line breaks; the kept
    lines are those that are not a quit command and have five characters
    or more.  The text returned has at least eleven characters.  Without
    such a command it never returns. *)
Theorem line_write_outcome (inputs : list str) :
  (forall raw_text,
     snd (line_write inputs) = Returned raw_text
     <-> exists pre q rest,
           inputs = pre ++ q :: rest
           /\ Str.strip q = "q"
           /\ 2 <= length (filter accepted_line pre)
           /\ (forall pre' q' rest',
                 pre = pre' ++ q' :: rest' -> Str.strip q' = "q" ->
                 length (filter accepted_line pre') <= 1)
           /\ raw_text = Str.join NL (filter accepted_line pre))
  /\ (forall raw_text,
        snd (line_write inputs) = Returned raw_text ->
        11 <= length raw_text)
  /\ (snd (line_write inputs) = Loops
      <-> forall pre q rest,
            inputs = pre ++ q :: rest -> Str.strip q = "q" ->
            length (filter accepted_line pre) <= 1).
Proof.
  assert (S : snd (line_write inputs) = snd (line_write_loop inputs [])).
  { unfold line_write. destruct (line_write_loop inputs []). reflexivity. }
  rewrite S. pose proof (line_write_loop_outcome inputs []) as H.
  cbn [app] in H.
  split; [|split].
  - intros raw_text. split.
    + intros E. rewrite E in H.
      destruct H as (pre & q & rest & Hi & Hq & Hr & Hl & Hf).
      exists pre, q, rest. repeat split; assumption.
    + intros (pre & q & rest & Hi & Hq & Hl & Hf & Hr).
      destruct (snd (line_write_loop inputs [])) as [raw|].
      * destruct H as (pre0 & q0 & rest0 & Hi0 & Hq0 & Hr0 & Hl0 & Hf0).
        assert (pre0 = pre)
          by (eapply line_write_end_unique; eassumption).
        subst pre0. rewrite Hr, Hr0. reflexivity.
      * specialize (H pre q rest Hi Hq). lia.
  - intros raw_text E. rewrite E in H.
    destruct H as (pre & q & rest & Hi & Hq & Hr & Hl & Hf).
    rewrite Hr. apply join_length_two; [exact Hl|].
    apply Forall_forall. intros l Hin. apply filter_In in Hin.
    destruct Hin as (_ & Ha). unfold accepted_line in Ha.
    apply andb_true_iff in Ha. destruct Ha as (_ & Ha).
    apply Nat.leb_le, Ha.
  - split.
    + intros E. rewrite E in H. exact H.
    + intros F. destruct (snd (line_write_loop inputs [])) as [raw|];
        [|reflexivity].
      destruct H as (pre & q & rest & Hi & Hq & Hr & Hl & Hf).
      specialize (F pre q rest Hi Hq). lia.
Qed.

Lemma line_write_outcome_witness :
  snd (line_write [ "Hello there" : str; "q" : str; "General Kenobi" : str;
                    "q" : str; "You are a bold one" : str; "q" : str ])
  = Returned ("Hello there" ++ NL ++ "General Kenobi").
Proof.
  apply (proj1 (line_write_outcome
                  [ "Hello there" : str; "q" : str; "General Kenobi" : str;
                    "q" : str; "You are a bold one" : str; "q" : str ])).
  exists [ "Hello there" : str; "q" : str; "General Kenobi" : str ],
    ("q" : str), [ "You are a bold one" : str; "q" : str ].
  split; [reflexivity|]. split; [reflexivity|]. split; [simpl; lia|].
  split; [|reflexivity].
  intros [|a [|b [|c pre']]] q' rest' H Hq'; cbn [app] in H.
  - injection H as <- _. vm_compute in Hq'. discriminate Hq'.
  - injection H as <- _ _. simpl. lia.
  - injection H as _ _ <- _. vm_compute in Hq'. discriminate Hq'.
  - injection H as _ _ _ H. destruct pre'; discriminate H.
Defined.

(** ** format_script: the lines it produces *)

Lemma char_upper_idem c : Char.upper (Char.upper c) = Char.upper c.
Proof. each_char c; reflexivity. Qed.

Lemma str_upper_idem s : Str.upper (Str.upper s) = Str.upper s.
Proof.
  unfold Str.upper. rewrite map_map. apply map_ext. exact char_upper_idem.
Qed.

Lemma heading_upper line :
  is_scene_heading (Str.upper (Str.strip line)) = is_scene_heading line.
Proof.
  unfold is_scene_heading. rewrite strip_upper, strip_idem, str_upper_idem.
  reflexivity.
Qed.

Lemma inline_block_length m out :
  inline_block m = Ok out -> 2 <= length out <= 3.
Proof.
  unfold inline_block.
  destruct (Re.group m 1); [|discriminate].
  destruct (Re.group m 3); [|discriminate].
  intros H. injection H as <-.
  destruct (Re.group m 2) as [p|]; [destruct (truthy p)|]; simpl; lia.
Qed.

(** What one input line gives. *)
Lemma format_line_entries raw :
  exists out,
    format_line module_globals raw = Ok out
    /\ 1 <= length out <= 3
    /\ (is_scene_heading raw = true -> out = [ Str.upper (Str.strip raw) ])
    /\ (Str.strip raw = [] -> out = [ [] ]).
Proof.
  rewrite format_line_head.
  destruct (truthy (Str.strip raw)) eqn:Et; cbn [negb].
  - assert (Hne : Str.strip raw <> [])
      by (intros E; rewrite E in Et; discriminate Et).
    destruct (is_scene_heading raw) eqn:Eh.
    { eexists. split; [reflexivity|]. cbn [length].
      split; [lia|]. split; [reflexivity | contradiction]. }
    destruct (starts_with_transition (Str.strip raw)).
    { eexists. split; [reflexivity|]. cbn [length].
      split; [lia|]. split; [discriminate | contradiction]. }
    destruct (Re.match_ DIALOGUE_RE (Str.strip raw)) as [m|] eqn:Em.
    { destruct (inline_block_ok _ _ Em) as (out & Eo). exists out.
      split; [exact Eo|]. pose proof (inline_block_length _ _ Eo).
      split; [lia|]. split; [discriminate | contradiction]. }
    destruct (is_character_name raw);
      [|destruct (is_emotion raw); [|destruct (is_dialogue raw)]];
      (eexists; split; [reflexivity|]; cbn [length];
       split; [lia|]; split; [discriminate | contradiction]).
  - destruct (not_truthy_predicates raw Et) as (Eh & _).
    eexists. split; [reflexivity|]. cbn [length]. split; [lia|].
    split; [rewrite Eh; discriminate | reflexivity].
Qed.

Lemma format_lines_entries raws :
  exists formatted,
    format_lines module_globals raws = Ok formatted
    /\ length raws <= length formatted <= 3 * length raws
    /\ length (filter is_scene_heading raws)
       <= length (filter is_scene_heading formatted)
    /\ incl (map (fun raw => Str.upper (Str.strip raw))
               (filter is_scene_heading raws)) formatted
    /\ length (filter (fun raw => negb (truthy (Str.strip raw))) raws)
       <= length (filter (fun l => negb (truthy l)) formatted).
Proof.
  induction raws as [|raw raws (outs & E & L & H & I & B)]; cbn [format_lines].
  - exists []. cbn. repeat split; try lia. intros x [].
  - destruct (format_line_entries raw) as (out & Eo & Lo & Ho & Bo).
    rewrite Eo, E. cbn [bind]. exists (out ++ outs).
    split; [reflexivity|]. rewrite !filter_app, !length_app. cbn [filter length].
    split; [lia|]. split; [|split].
    + destruct (is_scene_heading raw) eqn:Eh; [|lia].
      rewrite (Ho eq_refl). cbn [filter length]. rewrite heading_upper, Eh.
      cbn [length]. lia.
    + destruct (is_scene_heading raw) eqn:Eh.
      * cbn [map]. intros x [<- | Hx].
        -- apply in_or_app. left. rewrite (Ho eq_refl). left. reflexivity.
        -- apply in_or_app. right. apply I, Hx.
      * intros x Hx. apply in_or_app. right. apply I, Hx.
    + destruct (truthy (Str.strip raw)) eqn:Et; cbn [negb length]; [lia|].
      rewrite Bo by (destruct (Str.strip raw); [reflexivity | discriminate Et]).
      cbn [filter truthy negb length]. lia.
Qed.

(** [format_script] returns for every text (the inline pattern never
    leaves the name or the speech unset).  Each input line gives one, two
    or three output lines; every scene heading of the input is in the
    output, upper-cased and trimmed, so formatting loses no scene, and it
    loses no blank line. *)
Theorem format_script_keeps_headings (text : str) :
  exists formatted,
    format_script text = Ok (Str.join NL formatted)
    /\ length (splitlines text) <= length formatted
       <= 3 * length (splitlines text)
    /\ length (filter is_scene_heading (splitlines text))
       <= length (filter is_scene_heading formatted)
    /\ incl (map (fun raw => Str.upper (Str.strip raw))
               (filter is_scene_heading (splitlines text))) formatted
    /\ length (filter (fun raw => negb (truthy (Str.strip raw)))
                 (splitlines text))
       <= length (filter (fun l => negb (truthy l)) formatted).
Proof.
  destruct (format_lines_entries (splitlines text)) as (formatted & E & H).
  exists formatted. unfold format_script, format_script_in. rewrite E.
  split; [reflexivity | exact H].
Qed.

(** Formatting can add a scene: the speech of an inline dialogue line is
    written on a line of its own, where the validators read a heading. *)
Example format_script_adds_heading :
  format_lines module_globals [ "BOB: INT. HOUSE" : str ]
  = Ok [ Str.center "BOB" 40; Str.spaces 5 ++ "INT. HOUSE" ]
  /\ is_scene_heading ("BOB: INT. HOUSE") = false
  /\ is_scene_heading (Str.spaces 5 ++ "INT. HOUSE") = true.
Proof. repeat split; vm_compute; reflexivity. Qed.

(** ** character_speaking_stats: the report *)

Lemma counter_add_not_empty k n d :
  (length (counter_add k n d) =? 0) = false.
Proof.
  destruct d as [|[k' v] r]; cbn [counter_add]; [reflexivity|].
  destruct (str_eqb k' k); reflexivity.
Qed.

Lemma speaking_fold_empty lines : forall st,
  (length (SpeakingTime.character_line_count
             (fold_left SpeakingTime.step lines st)) =? 0)
  = (length (SpeakingTime.character_line_count st) =? 0)
    && negb (existsb is_dialogue lines).
Proof.
  induction lines as [|line lines IH]; intros st; cbn [fold_left existsb].
  - rewrite andb_true_r. reflexivity.
  - rewrite IH. unfold SpeakingTime.step.
    pose proof (dialogue_not_cue line) as D.
    destruct (is_dialogue line) eqn:Hd.
    + rewrite (D eq_refl). cbn [SpeakingTime.character_line_count orb negb].
      rewrite counter_add_not_empty, andb_false_r. reflexivity.
    + destruct (is_character_name line);
        cbn [SpeakingTime.character_line_count orb]; reflexivity.
Qed.

Section SpeakingReportFacts.

Variable time_str : nat -> str.

(** The reads of the report loop find every key: the line counter is
    left as it was. *)
Lemma css_entries_spec line_count : forall word_count,
  (forall k, counter_mem k word_count = true ->
             counter_mem k line_count = true) ->
  css_entries time_str word_count line_count
  = (flat_map
       (fun kv : str * nat =>
          [ fst kv ++ ":";
            "    - Lines: " ++ Str.of_nat (counter_get (fst kv) line_count);
            "    - Words: " ++ Str.of_nat (snd kv);
            "    - Estimated Speaking Time: " ++ time_str (snd kv) ++ NL ])
       word_count,
     line_count).
Proof.
  induction word_count as [|[k v] r IH]; intros H; cbn [css_entries flat_map].
  - reflexivity.
  - assert (Hk : counter_mem k line_count = true).
    { apply H. unfold counter_mem. cbn [existsb fst].
      rewrite str_eqb_refl. reflexivity. }
    unfold counter_touch. rewrite Hk, IH; [reflexivity|].
    intros k' Hk'. apply H. unfold counter_mem in *. cbn [existsb].
    rewrite Hk'. apply orb_true_r.
Qed.

(** The report of [character_speaking_stats]: the title, the number of
    dialogue lines of the script, four lines per character in order of
    first speech (name, lines, words, time), and the notice that no
    dialogue was found exactly when the script has no dialogue line.
    Reading the line counter in the loop adds no key to it. *)
Theorem speaking_report_exact (script : str) :
  let st := SpeakingTime.scan script in
  css_report time_str st
  = [ NL ++ "Character Speaking Time Report";
      "-------------------------------" : str;
      "Total dialogue lines: "
      ++ Str.of_nat (length (filter is_dialogue (script_lines script)))
      ++ " lines" ]
    ++ flat_map
         (fun kv : str * nat =>
            [ fst kv ++ ":";
              "    - Lines: "
              ++ Str.of_nat
                   (counter_get (fst kv) (SpeakingTime.character_line_count st));
              "    - Words: " ++ Str.of_nat (snd kv);
              "    - Estimated Speaking Time: " ++ time_str (snd kv) ++ NL ])
         (SpeakingTime.character_word_count st)
    ++ (if existsb is_dialogue (script_lines script) then []
        else [ "No dialogue lines found" : str ]).
Proof.
  cbv zeta. unfold css_report, SpeakingTime.scan, SpeakingTime.scan_lines.
  rewrite css_entries_spec.
  - destruct (speaking_fold_total (script_lines script) SpeakingTime.init)
      as (T & _).
    rewrite T, speaking_fold_empty.
    cbn [SpeakingTime.init SpeakingTime.total_lines
         SpeakingTime.character_line_count length Nat.eqb Nat.add andb].
    destruct (existsb is_dialogue (script_lines script)); reflexivity.
  - intros k Hk.
    destruct (speaking_fold_counters (script_lines script) k SpeakingTime.init)
      as (M & _); [split; [reflexivity | simpl; lia]|].
    rewrite <- M. exact Hk.
Qed.

End SpeakingReportFacts.

(** ** run_analysis *)

Section RunAnalysisFacts.

Variable bar_and_rate : CharacterTracking.percent -> str.
Variable below_0_3 : CharacterTracking.quotient -> bool.
Variable time_str : nat -> str.

Lemma structure_report_ok script :
  exists r, scene_structure_validator script = Ok r.
Proof.
  unfold scene_structure_validator, ssv_scan.
  destruct (ssv_scan_lines_ok (script_lines script)) as (st & ->).
  cbn [bind]. eauto.
Qed.

Lemma characters_report_ok script :
  exists r, CharacterTracking.character_tracking bar_and_rate script = Ok r.
Proof.
  unfold CharacterTracking.character_tracking.
  destruct (tracking_report_ok bar_and_rate (CharacterTracking.scan script))
    as (a & -> & _).
  cbn [bind]. eauto.
Qed.

Lemma pacing_report_ok script :
  exists r, scene_pacing_and_distribution bar_and_rate script = Ok r.
Proof.
  unfold scene_pacing_and_distribution.
  destruct (pacing_analysis_exact_lemma (script_lines script)) as (st & E & _).
  unfold segment_scenes in E. rewrite E. cbn [bind]. unfold pacing_report.
  assert (D : exists d,
            (if Pacing.all_dialogue_lines st =? 0
             then Ok [ "    No dialogue found in the script." : str ]
             else pacing_distribution bar_and_rate
                    (Pacing.all_dialogue_lines st)
                    (Pacing.all_character_lines st)) = Ok d).
  { destruct (Pacing.all_dialogue_lines st =? 0) eqn:Ed; [eauto|].
    rewrite pacing_distribution_ok by (apply Nat.eqb_neq, Ed). eauto. }
  destruct D as (d & ->).
  destruct (scene_counter (segment (script_lines script)) =? 0);
    [cbn [bind]; eauto|].
  destruct (scene_counter (segment (script_lines script)) =? 1);
    [cbn [bind]; eauto|].
  rewrite (pacing_compare_spec (Pacing.scene_reports st) (Pacing.scene_reports st) 0 false eq_refl). cbn [bind]. eauto.
Qed.

Lemma readability_report_ok script :
  exists r, Readability.readability_analysis below_0_3 script = Ok r.
Proof.
  unfold Readability.readability_analysis, Readability.scan.
  rewrite segment_scenes_spec, readability_analyse_numbered.
  cbn [bind]. eauto.
Qed.

(** [run_analysis] never fails: none of the six analyses raises on any
    script, so both messages are printed and the reports always hold the
    seven entries, in this order,
    each the value of its analysis on the script, and the title entry is
    the title of the script, a line break and the time stamp. *)
Theorem run_analysis_total (current_time script : str) :
  exists structure characters pacing readability,
    scene_structure_validator script = Ok structure
    /\ CharacterTracking.character_tracking bar_and_rate script = Ok characters
    /\ scene_pacing_and_distribution bar_and_rate script = Ok pacing
    /\ Readability.readability_analysis below_0_3 script = Ok readability
    /\ run_analysis bar_and_rate below_0_3 time_str current_time script
       = ([ Printed (NL ++ "Running analysis...");
            Printed "Analysis complete" ],
          Ok [ ("Title & Date" : str,
                extract_title script ++ NL ++ current_time);
               ("Structure" : str, structure);
               ("Characters" : str, characters);
               ("Development" : str, character_development_validator script);
               ("Pacing" : str, pacing);
               ("Readability" : str, readability);
               ("Speaking" : str, character_speaking_stats time_str script) ]).
Proof.
  destruct (structure_report_ok script) as (s & Es).
  destruct (characters_report_ok script) as (c & Ec).
  destruct (pacing_report_ok script) as (p & Ep).
  destruct (readability_report_ok script) as (r & Er).
  exists s, c, p, r. unfold run_analysis, run_reports.
  rewrite Es, Ec, Ep, Er. cbn [bind]. repeat split; reflexivity.
Qed.

End RunAnalysisFacts.

(** ** The line classes *)

(** Every line that is not blank is in at least one of the six classes of
    scene_validator.py, and a blank line is in none.  An action or
    dialogue line is never a scene heading, a transition, a character cue
    or an emotion. *)
Theorem line_classes_cover (line : str) :
  is_scene_heading line || is_transition line || is_character_name line
  || is_emotion line || is_action line || is_dialogue line
  = truthy (Str.strip line)
  /\ (is_action line || is_dialogue line = true ->
      is_scene_heading line = false /\ is_transition line = false
      /\ is_character_name line = false /\ is_emotion line = false).
Proof.
  assert (A : is_action line
              = truthy (Str.strip line) && negb (is_scene_heading line)
                && negb (is_transition line) && negb (is_character_name line)
                && negb (is_emotion line)
                && negb (Str.endswith_any (Str.strip line)
                           ["?" : str; "!" : str])).
  { unfold is_action. cbv zeta.
    rewrite is_scene_heading_strip, is_transition_strip,
      is_character_name_strip, is_emotion_strip. reflexivity. }
  assert (D : is_dialogue line
              = truthy (Str.strip line) && negb (is_scene_heading line)
                && negb (is_transition line) && negb (is_character_name line)
                && negb (is_emotion line)
                && (Str.endswith_any (Str.strip line)
                      ["." : str; "?" : str; "!" : str]
                    || (3 <? length (Str.split (Str.strip line))))).
  { unfold is_dialogue. cbv zeta.
    rewrite is_scene_heading_strip, is_transition_strip,
      is_character_name_strip, is_emotion_strip. reflexivity. }
  rewrite A, D. clear A D.
  destruct (truthy (Str.strip line)) eqn:Et.
  - unfold Str.endswith_any. cbn [existsb].
    destruct (is_scene_heading line), (is_transition line),
      (is_character_name line), (is_emotion line);
      cbn [negb andb orb]; try (split; [reflexivity | discriminate]).
    split; [|intros _; repeat split; reflexivity].
    destruct (Str.endswith (Str.strip line) "?"),
      (Str.endswith (Str.strip line) "!"),
      (Str.endswith (Str.strip line) "."); reflexivity.
  - assert (E : Str.strip line = [])
      by (destruct (Str.strip line); [reflexivity | discriminate Et]).
    destruct (not_truthy_predicates line Et) as (H1 & H2 & _ & _).
    rewrite H1, H2, (blank_not_cue line E). unfold is_emotion. rewrite E.
    cbn. split; [reflexivity | discriminate].
Qed.

Lemma line_classes_cover_witness :
  is_action "He walks in." || is_dialogue "He walks in." = true
  /\ is_character_name "He walks in." = false.
Proof.
  split; [reflexivity|].
  destruct (line_classes_cover "He walks in.") as (_ & H).
  exact (proj1 (proj2 (proj2 (H eq_refl)))).
Defined.
